(** * Martin content script (extension/dist_v2/content.js)

    A shallow embedding of the debounced analysis pipeline, the floating
    button state machine, the suggestion applier and the DOM watcher of
    the content script, together with the properties of the design
    document that concern them.

    JavaScript strings are modelled by [string]; one character stands for
    one code unit, so [String.length] is the JavaScript [length].  The
    module-level [let] variables of the script, the DOM objects it touches,
    the timer queue of the event loop and the network are fields of one
    [State] record which every handler threads explicitly. *)

From Stdlib Require Import String Ascii ZArith QArith Lia.
From stdpp Require Import gmap strings list.

(** ** JavaScript string primitives *)

Module JsString.

(** [strip_prefix pat s] is [Some rest] when [s = pat ++ rest]. *)
Fixpoint strip_prefix (pat s : string) : option string :=
  match pat with
  | EmptyString => Some s
  | String a pat' =>
      match s with
      | EmptyString => None
      | String b s' => if Ascii.eqb a b then strip_prefix pat' s' else None
      end
  end.

(** The first occurrence of [pat] in [s], as the text before it and the
    text after it ([String.prototype.indexOf] followed by the two slices
    that [String.prototype.replace] takes). *)
Fixpoint split_at_first (pat s : string) : option (string * string) :=
  match strip_prefix pat s with
  | Some post => Some (EmptyString, post)
  | None =>
      match s with
      | EmptyString => None
      | String c s' =>
          match split_at_first pat s' with
          | Some (pre, post) => Some (String c pre, post)
          | None => None
          end
      end
  end.

(** [GetSubstitution] of ECMA-262 for a string pattern: there are no
    captures, so only [$$], [$&], [$`] and [$'] are interpreted and every
    other character of the template, a lone [$] included, is copied. *)
Fixpoint GetSubstitution (matched pre post tmpl : string) : string :=
  match tmpl with
  | EmptyString => EmptyString
  | String c t =>
      if Ascii.eqb c "$"%char then
        match t with
        | EmptyString => String c EmptyString
        | String d r =>
            if Ascii.eqb d "$"%char then String "$"%char (GetSubstitution matched pre post r)
            else if Ascii.eqb d "&"%char then String.append matched (GetSubstitution matched pre post r)
            else if Ascii.eqb d "`"%char then String.append pre (GetSubstitution matched pre post r)
            else if Ascii.eqb d "'"%char then String.append post (GetSubstitution matched pre post r)
            else String c (GetSubstitution matched pre post t)
        end
      else String c (GetSubstitution matched pre post t)
  end.

(** [s.replace(pat, repl)] with a string [pat]: the first occurrence only;
    [s] itself when [pat] does not occur. *)
Definition replace (s pat repl : string) : string :=
  match split_at_first pat s with
  | None => s
  | Some (pre, post) =>
      String.append pre (String.append (GetSubstitution pat pre post repl) post)
  end.

(** [pat] occurs in [s] as a substring. *)
Definition occurs (pat s : string) : Prop :=
  exists pre post, s = String.append pre (String.append pat post).

(** [a || b] on strings: the empty string and [undefined] are falsy. *)
Definition or_else (a : option string) (b : string) : string :=
  match a with
  | Some (String c r) => String c r
  | _ => b
  end.

(** [!text || text.length < n] *)
Definition shorter_than (n : nat) (text : string) : bool :=
  match text with
  | EmptyString => true
  | _ => String.length text <? n
  end.

(** [text && text.length > n] *)
Definition longer_than (n : nat) (text : string) : bool :=
  match text with
  | EmptyString => false
  | _ => n <? String.length text
  end.

End JsString.

(** ** Data model *)

(** The [type] of a suggestion on the wire. *)
Inductive SuggestionType :=
  | grammar | clarity | specificity | structure
  | token_optimization | technical_accuracy.

Record Suggestion := {
  type : SuggestionType;
  original : string;
  suggested : string;
  explanation : string;
  confidence : Q;
  token_delta : Z;
  position : nat * nat
}.

Record Metrics := {
  clarity_score : Q;
  specificity_score : Q;
  token_reduction : Z;
  estimated_cost_savings : Q
}.

(** The parsed body of a successful response. *)
Record AnalysisResult := {
  optimized_prompt : string;
  result_suggestions : list Suggestion;
  metrics : option Metrics;
  processing_time_ms : nat;
  developer_tips : list string
}.

(** The body of the POST request built by [analyzePrompt]. *)
Record Request := {
  prompt : string;
  target_model : string;
  domain : string;
  aggressive_optimization : bool
}.

(** What the network eventually answers to a [fetch]. *)
Inductive Response :=
  | NetworkError                      (* fetch rejects *)
  | HttpError (status : nat)          (* response.ok is false *)
  | MalformedBody                     (* response.json() rejects *)
  | Parsed (r : AnalysisResult).

(** A DOM element of the host page, as far as the script looks at it:
    what the selectors of [findAndMonitorTextarea] test, what is stored
    under [value] (the raw value of a textarea; on any other element a
    property that is [undefined], [None], until the script assigns it),
    the text content, and how many [input] and [focus] listeners this
    script has attached to it.  An element that is not a textarea stands
    for one without a [value] of its own, a [div] or a paragraph; an
    [input] element that a page would mark contenteditable is not
    modelled. *)
Record Element := {
  is_textarea : bool;
  placeholder : option string;
  data_id : option string;
  contenteditable : option string;
  value : option string;
  textContent : string;
  input_listeners : nat;
  focus_listeners : nat
}.

(** The class that [updateMartinButton] leaves on the floating button. *)
Inductive ButtonState := BDefault | BAnalyzing | BSuggestions | BOptimized.

(** The inner HTML of the suggestion list. *)
Inductive ListView :=
  | ListUntouched
  | NoSuggestionsAvailable
  | Entries (l : list Suggestion).

Record UI := {
  button : ButtonState;
  badge_show : bool;
  badge_text : nat;
  card_display : bool;
  list_view : ListView;
  modal_show : bool;
  modal_original : string;
  modal_optimized : string;
  metrics_view : option Metrics
}.

(** The callbacks this script hands to [setTimeout]. *)
Inductive TimerAction :=
  | Later (text : string)   (* [later] of [debounce], closed over its argument *)
  | ResetButton.            (* [() => updateMartinButton('default')] *)

Record Timer := { tid : nat; deadline : nat; action : TimerAction }.

Record State := {
  (* the page *)
  hostname : string;
  heap : gmap nat Element;          (* element objects, by identity *)
  document : list nat;              (* elements attached to the body, in document order *)
  (* the script's module-level variables *)
  currentTextarea : option nat;
  suggestions : list Suggestion;
  isAnalyzing : bool;
  optimizedPrompt : string;
  timeout : option nat;             (* [let timeout] of the debounce closure *)
  (* the extension's own widgets *)
  ui : UI;
  (* event loop and network *)
  now : nat;
  timers : list Timer;
  next_timer : nat;
  outstanding : list Request;       (* fetches not answered yet *)
  sent : list Request;              (* every fetch issued so far *)
  dispatched : list nat             (* targets of the synthetic input events *)
}.

Definition DEBOUNCE_DELAY : nat := 500.

(** *** Field updates *)

(** [el.value = v]: the assigned string is stored as it is.  What reading
    the property gives is [get_value]. *)
Definition set_value (v : option string) (e : Element) : Element :=
  {| is_textarea := is_textarea e; placeholder := placeholder e; data_id := data_id e;
     contenteditable := contenteditable e; value := v; textContent := textContent e;
     input_listeners := input_listeners e; focus_listeners := focus_listeners e |}.

Definition set_textContent (t : string) (e : Element) : Element :=
  {| is_textarea := is_textarea e; placeholder := placeholder e; data_id := data_id e;
     contenteditable := contenteditable e; value := value e; textContent := t;
     input_listeners := input_listeners e; focus_listeners := focus_listeners e |}.

Definition add_listeners (e : Element) : Element :=
  {| is_textarea := is_textarea e; placeholder := placeholder e; data_id := data_id e;
     contenteditable := contenteditable e; value := value e; textContent := textContent e;
     input_listeners := S (input_listeners e); focus_listeners := S (focus_listeners e) |}.

Definition no_listeners (e : Element) : Element :=
  {| is_textarea := is_textarea e; placeholder := placeholder e; data_id := data_id e;
     contenteditable := contenteditable e; value := value e; textContent := textContent e;
     input_listeners := 0; focus_listeners := 0 |}.

Definition set_button (b : ButtonState) (u : UI) : UI :=
  {| button := b; badge_show := badge_show u; badge_text := badge_text u;
     card_display := card_display u; list_view := list_view u; modal_show := modal_show u;
     modal_original := modal_original u; modal_optimized := modal_optimized u;
     metrics_view := metrics_view u |}.

Definition set_badge_show (b : bool) (u : UI) : UI :=
  {| button := button u; badge_show := b; badge_text := badge_text u;
     card_display := card_display u; list_view := list_view u; modal_show := modal_show u;
     modal_original := modal_original u; modal_optimized := modal_optimized u;
     metrics_view := metrics_view u |}.

Definition set_badge_text (n : nat) (u : UI) : UI :=
  {| button := button u; badge_show := badge_show u; badge_text := n;
     card_display := card_display u; list_view := list_view u; modal_show := modal_show u;
     modal_original := modal_original u; modal_optimized := modal_optimized u;
     metrics_view := metrics_view u |}.

Definition set_card_display (b : bool) (u : UI) : UI :=
  {| button := button u; badge_show := badge_show u; badge_text := badge_text u;
     card_display := b; list_view := list_view u; modal_show := modal_show u;
     modal_original := modal_original u; modal_optimized := modal_optimized u;
     metrics_view := metrics_view u |}.

Definition set_list_view (v : ListView) (u : UI) : UI :=
  {| button := button u; badge_show := badge_show u; badge_text := badge_text u;
     card_display := card_display u; list_view := v; modal_show := modal_show u;
     modal_original := modal_original u; modal_optimized := modal_optimized u;
     metrics_view := metrics_view u |}.

Definition set_modal (shown : bool) (o p : string) (u : UI) : UI :=
  {| button := button u; badge_show := badge_show u; badge_text := badge_text u;
     card_display := card_display u; list_view := list_view u; modal_show := shown;
     modal_original := o; modal_optimized := p; metrics_view := metrics_view u |}.

Definition set_metrics_view (m : option Metrics) (u : UI) : UI :=
  {| button := button u; badge_show := badge_show u; badge_text := badge_text u;
     card_display := card_display u; list_view := list_view u; modal_show := modal_show u;
     modal_original := modal_original u; modal_optimized := modal_optimized u;
     metrics_view := m |}.

Definition with_page (h : gmap nat Element) (d : list nat) (s : State) : State :=
  {| hostname := hostname s; heap := h; document := d;
     currentTextarea := currentTextarea s; suggestions := suggestions s;
     isAnalyzing := isAnalyzing s; optimizedPrompt := optimizedPrompt s;
     timeout := timeout s; ui := ui s; now := now s; timers := timers s;
     next_timer := next_timer s; outstanding := outstanding s; sent := sent s;
     dispatched := dispatched s |}.

Definition with_heap (h : gmap nat Element) (s : State) : State :=
  with_page h (document s) s.

Definition with_currentTextarea (c : option nat) (s : State) : State :=
  {| hostname := hostname s; heap := heap s; document := document s;
     currentTextarea := c; suggestions := suggestions s;
     isAnalyzing := isAnalyzing s; optimizedPrompt := optimizedPrompt s;
     timeout := timeout s; ui := ui s; now := now s; timers := timers s;
     next_timer := next_timer s; outstanding := outstanding s; sent := sent s;
     dispatched := dispatched s |}.

Definition with_suggestions (l : list Suggestion) (s : State) : State :=
  {| hostname := hostname s; heap := heap s; document := document s;
     currentTextarea := currentTextarea s; suggestions := l;
     isAnalyzing := isAnalyzing s; optimizedPrompt := optimizedPrompt s;
     timeout := timeout s; ui := ui s; now := now s; timers := timers s;
     next_timer := next_timer s; outstanding := outstanding s; sent := sent s;
     dispatched := dispatched s |}.

Definition with_isAnalyzing (b : bool) (s : State) : State :=
  {| hostname := hostname s; heap := heap s; document := document s;
     currentTextarea := currentTextarea s; suggestions := suggestions s;
     isAnalyzing := b; optimizedPrompt := optimizedPrompt s;
     timeout := timeout s; ui := ui s; now := now s; timers := timers s;
     next_timer := next_timer s; outstanding := outstanding s; sent := sent s;
     dispatched := dispatched s |}.

Definition with_optimizedPrompt (p : string) (s : State) : State :=
  {| hostname := hostname s; heap := heap s; document := document s;
     currentTextarea := currentTextarea s; suggestions := suggestions s;
     isAnalyzing := isAnalyzing s; optimizedPrompt := p;
     timeout := timeout s; ui := ui s; now := now s; timers := timers s;
     next_timer := next_timer s; outstanding := outstanding s; sent := sent s;
     dispatched := dispatched s |}.

Definition with_timeout (t : option nat) (s : State) : State :=
  {| hostname := hostname s; heap := heap s; document := document s;
     currentTextarea := currentTextarea s; suggestions := suggestions s;
     isAnalyzing := isAnalyzing s; optimizedPrompt := optimizedPrompt s;
     timeout := t; ui := ui s; now := now s; timers := timers s;
     next_timer := next_timer s; outstanding := outstanding s; sent := sent s;
     dispatched := dispatched s |}.

Definition with_ui (u : UI) (s : State) : State :=
  {| hostname := hostname s; heap := heap s; document := document s;
     currentTextarea := currentTextarea s; suggestions := suggestions s;
     isAnalyzing := isAnalyzing s; optimizedPrompt := optimizedPrompt s;
     timeout := timeout s; ui := u; now := now s; timers := timers s;
     next_timer := next_timer s; outstanding := outstanding s; sent := sent s;
     dispatched := dispatched s |}.

Definition with_now (t : nat) (s : State) : State :=
  {| hostname := hostname s; heap := heap s; document := document s;
     currentTextarea := currentTextarea s; suggestions := suggestions s;
     isAnalyzing := isAnalyzing s; optimizedPrompt := optimizedPrompt s;
     timeout := timeout s; ui := ui s; now := t; timers := timers s;
     next_timer := next_timer s; outstanding := outstanding s; sent := sent s;
     dispatched := dispatched s |}.

Definition with_timers (l : list Timer) (n : nat) (s : State) : State :=
  {| hostname := hostname s; heap := heap s; document := document s;
     currentTextarea := currentTextarea s; suggestions := suggestions s;
     isAnalyzing := isAnalyzing s; optimizedPrompt := optimizedPrompt s;
     timeout := timeout s; ui := ui s; now := now s; timers := l;
     next_timer := n; outstanding := outstanding s; sent := sent s;
     dispatched := dispatched s |}.

Definition with_network (o l : list Request) (s : State) : State :=
  {| hostname := hostname s; heap := heap s; document := document s;
     currentTextarea := currentTextarea s; suggestions := suggestions s;
     isAnalyzing := isAnalyzing s; optimizedPrompt := optimizedPrompt s;
     timeout := timeout s; ui := ui s; now := now s; timers := timers s;
     next_timer := next_timer s; outstanding := o; sent := l;
     dispatched := dispatched s |}.

Definition with_dispatched (l : list nat) (s : State) : State :=
  {| hostname := hostname s; heap := heap s; document := document s;
     currentTextarea := currentTextarea s; suggestions := suggestions s;
     isAnalyzing := isAnalyzing s; optimizedPrompt := optimizedPrompt s;
     timeout := timeout s; ui := ui s; now := now s; timers := timers s;
     next_timer := next_timer s; outstanding := outstanding s; sent := sent s;
     dispatched := l |}.

(** ** The value and the content of an element *)

(** The newline normalisation of the value getter of a textarea: every
    CR LF pair, and then every CR left, reads as one LF. *)
Fixpoint normalize_newlines (s : string) : string :=
  match s with
  | EmptyString => EmptyString
  | String c r =>
      if Ascii.eqb c "013"%char then
        match r with
        | String d r' =>
            if Ascii.eqb d "010"%char then String "010"%char (normalize_newlines r')
            else String "010"%char (normalize_newlines r)
        | EmptyString => String "010"%char EmptyString
        end
      else String c (normalize_newlines r)
  end.

(** The text holds no CR. *)
Fixpoint no_cr (s : string) : bool :=
  match s with
  | EmptyString => true
  | String c r => negb (Ascii.eqb c "013"%char) && no_cr r
  end.

(** What reading [el.value] gives.  The field [value] is what has been
    stored: the raw value of a textarea, which the getter returns with
    its newlines normalised, and on any other element a plain property,
    [undefined] until the script assigns it. *)
Definition get_value (e : Element) : option string :=
  if is_textarea e then option_map normalize_newlines (value e) else value e.

(** The text an element holds for the user and the host page: the value
    of a textarea, the text content of any other element. *)
Definition content (e : Element) : string :=
  if is_textarea e then default EmptyString (get_value e) else textContent e.

(** ** Platform detector *)

Definition platforms : gmap string string :=
  {[ "chat.openai.com"%string := "gpt-4"%string;
     "claude.ai"%string := "claude-3"%string;
     "cursor.sh"%string := "cursor"%string;
     "gemini.google.com"%string := "gemini"%string;
     "github.com"%string := "github-copilot"%string ]}.

Definition detectPlatform (s : State) : string :=
  default "gpt-4"%string (platforms !! hostname s).

(** ** Event loop primitives *)

Definition setTimeout (a : TimerAction) (wait : nat) (s : State) : nat * State :=
  (next_timer s,
   with_timers
     (timers s ++ [{| tid := next_timer s; deadline := now s + wait; action := a |}])
     (S (next_timer s)) s).

(** [clearTimeout(undefined)] does nothing. *)
Definition clearTimeout (t : option nat) (s : State) : State :=
  match t with
  | None => s
  | Some i => with_timers (filter (fun tm => tid tm <> i) (timers s)) (next_timer s) s
  end.

Definition fetch (r : Request) (s : State) : State :=
  with_network (outstanding s ++ [r]) (sent s ++ [r]) s.

(** ** UI update functions *)

Definition updateMartinButton (b : ButtonState) (s : State) : State :=
  match b with
  | BAnalyzing => with_ui (set_badge_show false (set_button BAnalyzing (ui s))) s
  | BSuggestions =>
      with_ui (set_badge_show true
                 (set_badge_text (length (suggestions s))
                    (set_button BSuggestions (ui s)))) s
  | BOptimized => with_ui (set_badge_show false (set_button BOptimized (ui s))) s
  | BDefault => with_ui (set_badge_show false (set_button BDefault (ui s))) s
  end.

Definition showSuggestions (s : State) : State :=
  let view :=
    match suggestions s with
    | [] => NoSuggestionsAvailable
    | l => Entries l
    end in
  with_ui (set_card_display true (set_list_view view (ui s))) s.

Definition closeMartinCard (s : State) : State :=
  with_ui (set_card_display false (ui s)) s.

Definition closeMartinModal (s : State) : State :=
  with_ui (set_modal false (modal_original (ui s)) (modal_optimized (ui s)) (ui s)) s.

(** How a handler ends: it returns, or an exception escapes it.  Either
    way the state it leaves behind is the one carried. *)
Inductive Completion :=
  | Normal (s : State)
  | Throw (s : State).

Definition state_of (c : Completion) : State :=
  match c with Normal s => s | Throw s => s end.

(** [currentTextarea.value] is read first: a TypeError when no element is
    monitored. *)
Definition showOptimizedPrompt (s : State) : Completion :=
  match currentTextarea s with
  | None => Throw s
  | Some id =>
      match heap s !! id with
      | None => Throw s
      | Some e =>
          Normal (with_ui (set_modal true (default EmptyString (get_value e))
                             (optimizedPrompt s) (ui s)) s)
      end
  end.

(** ** Debounced analyzer *)

(** [executedFunction] returned by [debounce(func, DEBOUNCE_DELAY)]: the
    pending call, if any, is cancelled and [later] is scheduled anew. *)
Definition analyzeText (text : string) (s : State) : State :=
  let s1 := clearTimeout (timeout s) s in
  let '(id, s2) := setTimeout (Later text) DEBOUNCE_DELAY s1 in
  with_timeout (Some id) s2.

(** What an [await] is waiting for. *)
Inductive Awaited :=
  | Resolved (result : option AnalysisResult)
  | Pending (req : Request).

Definition analyzePrompt (text : string) (s : State) : Awaited :=
  if JsString.shorter_than 10 text then Resolved None
  else Pending {| prompt := text; target_model := detectPlatform s;
                  domain := "code_generation"; aggressive_optimization := true |}.

(** The rest of the analysis callback, from the point where
    [await analyzePrompt(text)] yields [result]. *)
Definition resume (result : option AnalysisResult) (s : State) : State :=
  let s' :=
    match result with
    | Some r =>
        let s1 := with_suggestions (result_suggestions r) s in
        let s2 := with_optimizedPrompt (optimized_prompt r) s1 in
        let s3 :=
          match metrics r with
          | Some m => with_ui (set_metrics_view (Some m) (ui s2)) s2
          | None => s2
          end in
        updateMartinButton
          (if 0 <? length (suggestions s3) then BSuggestions else BOptimized) s3
    | None => updateMartinButton BDefault s
    end in
  with_isAnalyzing false s'.

(** The analysis callback handed to [debounce], up to its [await]. *)
Definition analysis (text : string) (s : State) : State :=
  if isAnalyzing s || JsString.shorter_than 10 text then s
  else
    let s1 := with_isAnalyzing true s in
    let s2 := updateMartinButton BAnalyzing s1 in
    match analyzePrompt text s2 with
    | Resolved r => resume r s2
    | Pending req => fetch req s2
    end.

(** [later] of [debounce]. *)
Definition later (text : string) (s : State) : State :=
  analysis text (clearTimeout (timeout s) s).

(** The [try]/[catch] of [analyzePrompt] around the answer. *)
Definition settle (resp : Response) : option AnalysisResult :=
  match resp with
  | Parsed r => Some r
  | NetworkError | HttpError _ | MalformedBody => None
  end.

(** The [n]-th outstanding fetch is answered and its callback resumes. *)
Definition answer (n : nat) (resp : Response) (s : State) : State :=
  match outstanding s !! n with
  | None => s
  | Some _ =>
      resume (settle resp) (with_network (delete n (outstanding s)) (sent s) s)
  end.

(** ** Input, focus and click handlers *)

(** [e.target.value || e.target.textContent] *)
Definition text_of (e : Element) : string :=
  JsString.or_else (get_value e) (textContent e).

(** An [input] event on element [id]: each listener attached by
    [findAndMonitorTextarea] calls [analyzeText]. *)
Definition input_event (id : nat) (s : State) : State :=
  match heap s !! id with
  | Some e => Nat.iter (input_listeners e) (analyzeText (text_of e)) s
  | None => s
  end.

(** [el.dispatchEvent(new Event('input', { bubbles: true }))] *)
Definition dispatchEvent (id : nat) (s : State) : State :=
  input_event id (with_dispatched (dispatched s ++ [id]) s).

Definition focus_listener (e : Element) (s : State) : State :=
  let text := text_of e in
  if JsString.longer_than 10 text then analyzeText text s else s.

Definition focus_event (id : nat) (s : State) : State :=
  match heap s !! id with
  | Some e => Nat.iter (focus_listeners e) (focus_listener e) s
  | None => s
  end.

Definition button_click (s : State) : State :=
  if (0 <? length (suggestions s)) || negb (String.eqb (optimizedPrompt s) EmptyString)
  then showSuggestions s
  else
    match currentTextarea s with
    | None => s
    | Some id =>
        match heap s !! id with
        | None => s
        | Some e =>
            let text := text_of e in
            if JsString.longer_than 10 text then analyzeText text s else s
        end
    end.

(** ** Suggestion applier *)

Definition applySuggestion (index : nat) (s : State) : Completion :=
  match suggestions s !! index with
  | None => Normal s
  | Some suggestion =>
      match currentTextarea s with
      | None => Normal s
      | Some id =>
          match heap s !! id with
          | None => Throw s
          | Some e =>
              match get_value e with
              | None => Throw s       (* [text.replace] on [undefined] *)
              | Some text =>
                  let text' := JsString.replace text (original suggestion) (suggested suggestion) in
                  let s1 := with_heap (<[id := set_value (Some text') e]> (heap s)) s in
                  let s2 := dispatchEvent id s1 in
                  let s3 := with_suggestions (delete index (suggestions s2)) s2 in
                  let s4 :=
                    updateMartinButton
                      (if 0 <? length (suggestions s3) then BSuggestions else BDefault) s3 in
                  Normal (if 0 <? length (suggestions s4) then showSuggestions s4
                          else closeMartinCard s4)
              end
          end
      end
  end.

Definition acceptAllSuggestions (s : State) : State :=
  match currentTextarea s with
  | None => s
  | Some id =>
      if String.eqb (optimizedPrompt s) EmptyString then s
      else
        let s1 := with_heap (alter (set_value (Some (optimizedPrompt s))) id (heap s)) s in
        let s2 := dispatchEvent id s1 in
        let s3 := closeMartinCard s2 in
        let s4 := updateMartinButton BOptimized s3 in
        snd (setTimeout ResetButton 2000 s4)
  end.

Definition replaceWithOptimized (s : State) : State :=
  closeMartinModal (acceptAllSuggestions s).

(** ** DOM watcher *)

Inductive Selector :=
  | TextareaPlaceholderHas (part : string)   (* textarea[placeholder*="..."] *)
  | TextareaDataId (v : string)              (* textarea[data-id="..."] *)
  | ContentEditable (v : string)             (* [contenteditable="..."] *)
  | AnyTextarea.                             (* textarea *)

Definition selectors : list Selector :=
  [ TextareaPlaceholderHas "Send a message";
    TextareaPlaceholderHas "Talk to Claude";
    TextareaPlaceholderHas "Enter a prompt";
    TextareaPlaceholderHas "Type a message";
    TextareaDataId "root";
    ContentEditable "true";
    AnyTextarea ].

Definition matches (sel : Selector) (e : Element) : bool :=
  match sel with
  | TextareaPlaceholderHas part =>
      is_textarea e &&
      match placeholder e with
      | Some p => bool_decide (is_Some (JsString.split_at_first part p))
      | None => false
      end
  | TextareaDataId v => is_textarea e && bool_decide (data_id e = Some v)
  | ContentEditable v => bool_decide (contenteditable e = Some v)
  | AnyTextarea => is_textarea e
  end.

Definition querySelector (sel : Selector) (s : State) : option nat :=
  List.find (fun id => match heap s !! id with
                       | Some e => matches sel e
                       | None => false
                       end) (document s).

Fixpoint first_match (sels : list Selector) (s : State) : option nat :=
  match sels with
  | [] => None
  | sel :: rest =>
      match querySelector sel s with
      | Some id => Some id
      | None => first_match rest s
      end
  end.

Definition findAndMonitorTextarea (s : State) : bool * State :=
  match first_match selectors s with
  | Some id =>
      (true, with_heap (alter add_listeners id (heap s)) (with_currentTextarea (Some id) s))
  | None => (false, s)
  end.

(** [document.body.contains(el)] *)
Definition attached (id : nat) (s : State) : bool :=
  bool_decide (id ∈ document s).

(** The callback of the [MutationObserver]. *)
Definition observer_callback (s : State) : State :=
  match currentTextarea s with
  | None => snd (findAndMonitorTextarea s)
  | Some id => if attached id s then s else snd (findAndMonitorTextarea s)
  end.

(** ** Timers firing *)

(** The timer the event loop runs next among those due by time [t]: the
    earliest deadline, the oldest first among equal deadlines ([timers] is
    kept in creation order).  Returned with the timers that stay pending. *)
Fixpoint pop_due (t : nat) (l : list Timer) : option (Timer * list Timer) :=
  match l with
  | [] => None
  | x :: r =>
      match pop_due t r with
      | Some (y, r') =>
          if deadline x <=? deadline y then Some (x, r) else Some (y, x :: r')
      | None => if deadline x <=? t then Some (x, r) else None
      end
  end.

Definition run_action (a : TimerAction) (s : State) : State :=
  match a with
  | Later text => later text s
  | ResetButton => updateMartinButton BDefault s
  end.

Definition fire (tm : Timer) (rest : list Timer) (s : State) : State :=
  run_action (action tm)
    (with_now (Nat.max (now s) (deadline tm)) (with_timers rest (next_timer s) s)).

(** Runs the timers due by [t], one after the other.  No callback of this
    script sets a timer, so [length (timers s)] rounds are enough (see
    [run_timers_complete]). *)
Fixpoint run_timers (rounds : nat) (t : nat) (s : State) : State :=
  match rounds with
  | 0 => s
  | S n =>
      match pop_due t (timers s) with
      | None => s
      | Some (tm, rest) => run_timers n t (fire tm rest s)
      end
  end.

(** [dt] milliseconds pass with no event other than the timers. *)
Definition advance (dt : nat) (s : State) : State :=
  with_now (now s + dt) (run_timers (length (timers s)) (now s + dt) s).

(** ** The content script as a transition system *)

Inductive Event :=
  | UserTypes (id : nat) (text : string)
  | UserFocuses (id : nat)
  | ClickButton
  | ClickSuggestion (index : nat)
  | ClickAcceptAll
  | ClickViewOptimized
  | ClickUseOptimized
  | ClickCloseCard
  | ClickCloseModal
  | Elapse (dt : nat)
  | Answer (n : nat) (resp : Response)
  | PageChanges (created : gmap nat Element) (doc : list nat).

(** The user's edit lands in the raw value of a textarea and in the text
    content of any other element, whatever properties the script has set
    on it; then the [input] event fires. *)
Definition user_types (id : nat) (text : string) (s : State) : State :=
  let edit e :=
    if is_textarea e then set_value (Some text) e else set_textContent text e in
  input_event id (with_heap (alter edit id (heap s)) s).

(** The host page creates elements and rearranges the document; existing
    element objects keep their identity.  The observer then runs. *)
Definition page_changes (created : gmap nat Element) (doc : list nat) (s : State) : State :=
  observer_callback (with_page (heap s ∪ (no_listeners <$> created)) doc s).

Definition step (ev : Event) (s : State) : State :=
  match ev with
  | UserTypes id text => user_types id text s
  | UserFocuses id => focus_event id s
  | ClickButton => button_click s
  | ClickSuggestion index => state_of (applySuggestion index s)
  | ClickAcceptAll => acceptAllSuggestions s
  | ClickViewOptimized => state_of (showOptimizedPrompt s)
  | ClickUseOptimized => replaceWithOptimized s
  | ClickCloseCard => closeMartinCard s
  | ClickCloseModal => closeMartinModal s
  | Elapse dt => advance dt s
  | Answer n resp => answer n resp s
  | PageChanges created doc => page_changes created doc s
  end.

Definition run (evs : list Event) (s : State) : State :=
  foldl (fun s ev => step ev s) s evs.

Definition initial_ui : UI :=
  {| button := BDefault; badge_show := false; badge_text := 0;
     card_display := false; list_view := ListUntouched; modal_show := false;
     modal_original := EmptyString; modal_optimized := EmptyString;
     metrics_view := None |}.

(** The state once the script has run to its end on a page. *)
Definition loaded (host : string) (h : gmap nat Element) (doc : list nat) : State :=
  {| hostname := host; heap := no_listeners <$> h; document := doc;
     currentTextarea := None; suggestions := []; isAnalyzing := false;
     optimizedPrompt := EmptyString; timeout := None; ui := initial_ui;
     now := 0; timers := []; next_timer := 1; outstanding := []; sent := [];
     dispatched := [] |}.

(** States that the script can be in. *)
Definition reachable (s : State) : Prop :=
  exists host h doc evs, s = run evs (loaded host h doc).

(** The request that [analyzePrompt] builds for [text]. *)
Definition request_for (text : string) (s : State) : Request :=
  {| prompt := text; target_model := detectPlatform s;
     domain := "code_generation"; aggressive_optimization := true |}.

(** ** Sample page *)

Definition plain_textarea (v : string) : Element :=
  {| is_textarea := true; placeholder := Some "Send a message..."%string;
     data_id := None; contenteditable := None; value := Some v;
     textContent := EmptyString; input_listeners := 0; focus_listeners := 0 |}.

Definition sample_page : State :=
  run [PageChanges {[ 7 := plain_textarea "" ]} [7]] (loaded "claude.ai" ∅ []).

Definition sample_suggestion (o r : string) : Suggestion :=
  {| type := clarity; original := o; suggested := r; explanation := "clearer";
     confidence := 9 # 10; token_delta := (-1)%Z; position := (0, String.length o) |}.

Definition sample_result (l : list Suggestion) (opt : string) : AnalysisResult :=
  {| optimized_prompt := opt; result_suggestions := l; metrics := None;
     processing_time_ms := 12; developer_tips := [] |}.

(** ** Invariants and auxiliary notions *)

Definition is_later (tm : Timer) : bool :=
  match action tm with
  | Later _ => true
  | ResetButton => false
  end.

(** The pending debounced calls. *)
Definition laters (l : list Timer) : list Timer :=
  filter (fun tm => is_later tm = true) l.

(** The argument of the debounced call that is pending and due by [t]. *)
Definition due_later (t : nat) (l : list Timer) : option string :=
  match laters l with
  | tm :: _ =>
      if deadline tm <=? t
      then match action tm with Later text => Some text | ResetButton => None end
      else None
  | [] => None
  end.

(** What holds of the debounce closure, the timer queue and the network
    in every state the script reaches. *)
Record Inv (s : State) : Prop := {
  inv_timeout : forall k, timeout s = Some k -> k < next_timer s;
  inv_later : forall tm, tm ∈ timers s -> is_later tm = true -> timeout s = Some (tid tm);
  inv_single : length (laters (timers s)) <= 1;
  inv_network : length (outstanding s) = if isAnalyzing s then 1 else 0
}.

(** Two states that agree on everything but the widgets, the clock and
    the timer queue. *)
Record Agree (a b : State) : Prop := {
  agree_hostname : hostname a = hostname b;
  agree_heap : heap a = heap b;
  agree_document : document a = document b;
  agree_currentTextarea : currentTextarea a = currentTextarea b;
  agree_suggestions : suggestions a = suggestions b;
  agree_isAnalyzing : isAnalyzing a = isAnalyzing b;
  agree_optimizedPrompt : optimizedPrompt a = optimizedPrompt b;
  agree_outstanding : outstanding a = outstanding b;
  agree_sent : sent a = sent b;
  agree_dispatched : dispatched a = dispatched b
}.

(** A burst of invocations of the debounced analyzer: [first] now, then
    each [(gap, text)] of [rest] after [gap] more milliseconds. *)
Definition invoke_after (g : nat * string) (s : State) : State :=
  analyzeText (snd g) (advance (fst g) s).

Definition burst (first : string) (rest : list (nat * string)) (s : State) : State :=
  foldl (fun s g => invoke_after g s) (analyzeText first s) rest.

Definition last_text (first : string) (rest : list (nat * string)) : string :=
  List.last (map snd rest) first.

(** The debounce timer is armed for [text] at [d] and nothing has been
    sent since [s0]. *)
Record Armed (text : string) (d : nat) (s0 s : State) : Prop := {
  armed_inv : Inv s;
  armed_agree : Agree s s0;
  armed_timer : exists tm, laters (timers s) = [tm]
                           /\ action tm = Later text /\ deadline tm = d
}.

(** The element that is being monitored, if any. *)
Definition monitored (s : State) : option Element :=
  match currentTextarea s with
  | Some id => heap s !! id
  | None => None
  end.

(** ** Further notions used by the properties of the whole script *)

(** The replacement text holds no [$], so [GetSubstitution] copies it. *)
Fixpoint no_dollar (s : string) : bool :=
  match s with
  | EmptyString => true
  | String c r => negb (Ascii.eqb c "$"%char) && no_dollar r
  end.

(** An element that some selector of [findAndMonitorTextarea] can match. *)
Definition candidate (e : Element) : bool :=
  is_textarea e || bool_decide (contenteditable e = Some "true"%string).

(** [id] is the first element of the document, in document order, that
    [sel] matches. *)
Definition first_in_document (sel : Selector) (id : nat) (s : State) : Prop :=
  exists before after e,
    document s = before ++ id :: after
    /\ heap s !! id = Some e /\ matches sel e = true
    /\ forall id' e', id' ∈ before -> heap s !! id' = Some e' -> matches sel e' = false.

(** ** Startup discovery *)

Definition maxRetries : nat := 20.

(** How one run of [initializeMonitoring] ends: the element is found, the
    function has scheduled itself again after [wait] ms, or it has given up. *)
Inductive Discovery :=
  | Ready
  | RetryIn (wait : nat)
  | GivenUp.

(** [initializeMonitoring], with its counter [retryCount] passed in and
    out. *)
Definition initializeMonitoring (retryCount : nat) (s : State) : Discovery * nat * State :=
  let '(found, s') := findAndMonitorTextarea s in
  if found then (Ready, retryCount, s')
  else if retryCount <? maxRetries then (RetryIn 1000, S retryCount, s')
  else (GivenUp, retryCount, s').

(** The startup loop: [initializeMonitoring] runs, and as long as it asks
    for a retry the events of the next interval happen and it runs again.
    [intervals] is what happens on the page between two runs. *)
Fixpoint startup (retryCount : nat) (intervals : list (list Event)) (s : State)
    : Discovery * nat * State :=
  match initializeMonitoring retryCount s with
  | (RetryIn wait, rc, s') =>
      match intervals with
      | [] => (RetryIn wait, rc, s')
      | evs :: rest => startup rc rest (run evs s')
      end
  | done => done
  end.

(** The number of times the startup loop has called
    [findAndMonitorTextarea]. *)
Fixpoint attempts (retryCount : nat) (intervals : list (list Event)) (s : State) : nat :=
  match initializeMonitoring retryCount s with
  | (RetryIn _, rc, s') =>
      match intervals with
      | [] => 1
      | evs :: rest => S (attempts rc rest (run evs s'))
      end
  | _ => 1
  end.

(** A page with a plain textarea first and a contenteditable node after it. *)
Definition bare_textarea : Element :=
  {| is_textarea := true; placeholder := None; data_id := None;
     contenteditable := None; value := Some EmptyString; textContent := EmptyString;
     input_listeners := 0; focus_listeners := 0 |}.

Definition editable_div : Element :=
  {| is_textarea := false; placeholder := None; data_id := None;
     contenteditable := Some "true"%string; value := None; textContent := EmptyString;
     input_listeners := 0; focus_listeners := 0 |}.

Definition mixed_page : State :=
  loaded "gemini.google.com" {[ 3 := bare_textarea; 5 := editable_div ]} [3; 5].

(** The fields no click, keystroke or page change touches. *)
Record Quiet (a b : State) : Prop := {
  quiet_hostname : hostname a = hostname b;
  quiet_isAnalyzing : isAnalyzing a = isAnalyzing b;
  quiet_outstanding : outstanding a = outstanding b;
  quiet_sent : sent a = sent b
}.

(** Every event other than the passing of time and an answer. *)
Definition user_or_page (ev : Event) : Prop :=
  match ev with
  | Elapse _ | Answer _ _ => False
  | _ => True
  end.

(** How the badge goes with the look of the button. *)
Record BadgeInv (s : State) : Prop := {
  badge_shown_iff : badge_show (ui s) = true <-> button (ui s) = BSuggestions;
  badge_counts : button (ui s) = BSuggestions ->
                 badge_text (ui s) = length (suggestions s) /\ 0 < length (suggestions s)
}.

(** Element [e'] is element [e] later on: the same node, with no listener
    taken away. *)
Record SameNode (e e' : Element) : Prop := {
  node_is_textarea : is_textarea e' = is_textarea e;
  node_placeholder : placeholder e' = placeholder e;
  node_data_id : data_id e' = data_id e;
  node_contenteditable : contenteditable e' = contenteditable e;
  node_input_listeners : input_listeners e <= input_listeners e';
  node_focus_listeners : focus_listeners e <= focus_listeners e'
}.

(** From [s] to [s'] no element object is lost and none loses a listener. *)
Definition HeapGrows (s s' : State) : Prop :=
  forall id e, heap s !! id = Some e -> exists e', heap s' !! id = Some e' /\ SameNode e e'.

(** The monitored element, when there is one, exists and carries the
    listeners of the script. *)
Definition MonitoredInv (s : State) : Prop :=
  forall id, currentTextarea s = Some id ->
    exists e, heap s !! id = Some e /\ 0 < input_listeners e /\ 0 < focus_listeners e.

(** The contenteditable node of [mixed_page] is monitored, the user has
    typed into it and an analysis has brought two suggestions. *)
Definition editable_page : State :=
  run [ PageChanges ∅ [3; 5]; UserTypes 5 "fix my code please"; Elapse 500;
        Answer 0 (Parsed (sample_result
                            [sample_suggestion "fix" "repair"; sample_suggestion " please" ""]
                            "repair my code")) ] mixed_page.

(** A pending debounced call. *)
Definition armed_page : State :=
  run [UserTypes 7 "fix my code please"] sample_page.

(** The user has since rewritten the text of [editable_page]. *)
Definition edited_editable_page : State :=
  run [UserTypes 5 "repair my code please"] editable_page.

(** On [editable_page] the user has accepted the optimized text, the
    analysis that followed has failed, and no call is in flight. *)
Definition stale_page : State :=
  run [ClickAcceptAll; Elapse 500; Answer 0 NetworkError] editable_page.

(** What reading [el.value] gives once [v] has been assigned to it. *)
Definition read_back (e : Element) (v : string) : string :=
  if is_textarea e then normalize_newlines v else v.

(** What the input listener reads, [value || textContent], once the user
    has typed [text] into element [e]. *)
Definition heard_after_typing (e : Element) (text : string) : string :=
  if is_textarea e then normalize_newlines text else JsString.or_else (value e) text.



(** ** Sample states *)

Definition typed_page (text : string) : State :=
  run [PageChanges {[ 7 := plain_textarea text ]} [7]] (loaded "claude.ai" ∅ []).

Definition in_flight_page : State :=
  run [UserTypes 7 "fix my code please"; Elapse 500] sample_page.

Definition dropped_trace : list Event :=
  [ UserTypes 7 "fix my code please"; Elapse 500;
    UserTypes 7 "fix my code, thanks"; Elapse 500;
    Answer 0 (Parsed (sample_result [] "repair my code")) ].

Definition suggested_page : State :=
  run [ UserTypes 7 "fix my code please"; Elapse 500;
        Answer 0 (Parsed (sample_result
                            [sample_suggestion "fix" "repair"; sample_suggestion " please" ""]
                            "repair my code")) ] sample_page.

Definition no_issue_page : State :=
  run [ UserTypes 7 "repair my code"; Elapse 500;
        Answer 0 (Parsed (sample_result [] "repair my code")) ] sample_page.

Definition edited_page : State :=
  run [UserTypes 7 "repair my code please"] suggested_page.

Definition detached_page : State :=
  run [PageChanges ∅ []] suggested_page.

(** * Properties *)

(** ** Strings *)

Section StringFacts.
Local Open Scope string_scope.
Import JsString.

Lemma append_empty_l s : "" ++ s = s.
Proof. reflexivity. Qed.

Lemma append_String c a b : String c a ++ b = String c (a ++ b).
Proof. reflexivity. Qed.

Lemma strip_prefix_Some pat s post :
  strip_prefix pat s = Some post <-> s = pat ++ post.
Proof.
  revert s; induction pat as [|a pat IH]; intros s; simpl.
  - rewrite append_empty_l. split; congruence.
  - rewrite append_String. destruct s as [|b s]; [split; discriminate|].
    destruct (Ascii.eqb_spec a b) as [->|Hne].
    + rewrite IH. split; congruence.
    + split; [discriminate | intros [= E _]; congruence].
Qed.

Lemma split_at_first_Some pat s pre post :
  split_at_first pat s = Some (pre, post) -> s = pre ++ pat ++ post.
Proof.
  revert pre; induction s as [|c s IH]; intros pre; simpl.
  - destruct (strip_prefix pat "") eqn:E; [|discriminate].
    intros [= <- <-]. now apply strip_prefix_Some in E.
  - destruct (strip_prefix pat (String c s)) eqn:E.
    + intros [= <- <-]. now apply strip_prefix_Some in E.
    + destruct (split_at_first pat s) as [[p q]|]; [|discriminate].
      intros [= <- <-]. rewrite append_String. f_equal. now apply IH.
Qed.

Lemma split_at_first_None pat s :
  split_at_first pat s = None <-> ~ occurs pat s.
Proof.
  split.
  - induction s as [|c s IH]; simpl.
    + destruct (strip_prefix pat "") eqn:E; [discriminate|].
      intros _ (pre & post & H).
      destruct pre; [|discriminate]. rewrite append_empty_l in H.
      apply strip_prefix_Some in H. congruence.
    + destruct (strip_prefix pat (String c s)) eqn:E; [discriminate|].
      destruct (split_at_first pat s) as [[p q]|]; [discriminate|].
      intros _ (pre & post & H). destruct pre as [|c' pre].
      * rewrite append_empty_l in H. apply strip_prefix_Some in H. congruence.
      * rewrite append_String in H. injection H as _ H. apply IH; [reflexivity|].
        now exists pre, post.
  - intros Hno. destruct (split_at_first pat s) as [[p q]|] eqn:E; [|reflexivity].
    exfalso. apply Hno. exists p, q. now apply split_at_first_Some.
Qed.

Lemma replace_absent s pat repl : ~ occurs pat s -> replace s pat repl = s.
Proof.
  intros H. apply split_at_first_None in H. unfold replace. now rewrite H.
Qed.

Lemma shorter_than_length n text :
  String.length text < n -> shorter_than n text = true.
Proof.
  intros H. destruct text; [reflexivity|]. unfold shorter_than.
  now apply Nat.ltb_lt.
Qed.

Lemma shorter_than_false n text :
  n <= String.length text -> 0 < n -> shorter_than n text = false.
Proof.
  intros H Hn. destruct text; simpl in *; [lia|]. apply Nat.ltb_ge. exact H.
Qed.

Lemma longer_than_false n text :
  String.length text <= n -> longer_than n text = false.
Proof.
  intros H. destruct text; [reflexivity|]. unfold longer_than.
  now apply Nat.ltb_ge.
Qed.

End StringFacts.

(** ** The timer queue *)

Lemma pop_due_Some t l tm rest :
  pop_due t l = Some (tm, rest) ->
  exists l1 l2, l = l1 ++ tm :: l2 /\ rest = l1 ++ l2 /\ deadline tm <= t.
Proof.
  revert tm rest; induction l as [|x r IH]; intros tm rest; simpl; [discriminate|].
  destruct (pop_due t r) as [[y r']|] eqn:E.
  - destruct (IH y r' eq_refl) as (l1 & l2 & -> & -> & Hy).
    destruct (deadline x <=? deadline y) eqn:Hxy; intros [= <- <-].
    + apply Nat.leb_le in Hxy. exists [], (l1 ++ y :: l2). repeat split; lia.
    + exists (x :: l1), l2. repeat split; assumption.
  - destruct (deadline x <=? t) eqn:Hx; [|discriminate]. intros [= <- <-].
    apply Nat.leb_le in Hx. now exists [], r.
Qed.

Lemma pop_due_None t l :
  pop_due t l = None <-> Forall (fun x => t < deadline x) l.
Proof.
  induction l as [|x r IH]; simpl.
  - split; [constructor | reflexivity].
  - destruct (pop_due t r) as [[y r']|] eqn:E.
    + split.
      * destruct (deadline x <=? deadline y); discriminate.
      * intros H. inversion H; subst. apply IH in H3. discriminate.
    + destruct (Nat.leb_spec (deadline x) t) as [Hx|Hx].
      * split; [discriminate|]. intros H. inversion H; subst. lia.
      * split; [|reflexivity]. intros _. constructor; [lia|]. now apply IH.
Qed.

Lemma pop_due_length t l tm rest :
  pop_due t l = Some (tm, rest) -> length l = S (length rest).
Proof.
  intros H. apply pop_due_Some in H as (l1 & l2 & -> & -> & _).
  rewrite !length_app. simpl. lia.
Qed.

(** With a newest timer [r] due exactly at [t], every other due timer
    runs before it. *)
Lemma pop_due_snoc t l r :
  deadline r = t ->
  (exists y l', pop_due t (l ++ [r]) = Some (y, l' ++ [r]) /\ length l = S (length l'))
  \/ (pop_due t (l ++ [r]) = Some (r, l) /\ pop_due t l = None).
Proof.
  intros Hr. induction l as [|x l IH]; simpl.
  - right. rewrite Hr, Nat.leb_refl. split; reflexivity.
  - destruct IH as [(y & l' & -> & Hlen) | [-> Hnone]].
    + left. destruct (deadline x <=? deadline y).
      * exists x, l. split; [reflexivity | reflexivity].
      * exists y, (x :: l'). split; [reflexivity | simpl; lia].
    + rewrite Hnone. rewrite Hr. destruct (deadline x <=? t) eqn:Hx.
      * left. exists x, l. split; reflexivity.
      * right. split; reflexivity.
Qed.

(** ** States that agree *)

Lemma Agree_refl s : Agree s s.
Proof. constructor; reflexivity. Qed.

Lemma Agree_sym a b : Agree a b -> Agree b a.
Proof. intros []; constructor; congruence. Qed.

Lemma Agree_trans a b c : Agree a b -> Agree b c -> Agree a c.
Proof. intros [] []; constructor; congruence. Qed.

Lemma Agree_with_ui u s : Agree (with_ui u s) s.
Proof. constructor; reflexivity. Qed.

Lemma Agree_with_now t s : Agree (with_now t s) s.
Proof. constructor; reflexivity. Qed.

Lemma Agree_with_timers l n s : Agree (with_timers l n s) s.
Proof. constructor; reflexivity. Qed.

Lemma Agree_with_timeout t s : Agree (with_timeout t s) s.
Proof. constructor; reflexivity. Qed.

Lemma Agree_clearTimeout o s : Agree (clearTimeout o s) s.
Proof. destruct o; constructor; reflexivity. Qed.

Lemma Agree_updateMartinButton b s : Agree (updateMartinButton b s) s.
Proof. destruct b; constructor; reflexivity. Qed.

Lemma Agree_analyzeText text s : Agree (analyzeText text s) s.
Proof. unfold analyzeText. destruct (timeout s); constructor; reflexivity. Qed.

Lemma Agree_iter_analyzeText n text s : Agree (Nat.iter n (analyzeText text) s) s.
Proof.
  induction n as [|n IH]; [apply Agree_refl|]. rewrite Nat.iter_succ.
  eapply Agree_trans; [apply Agree_analyzeText | exact IH].
Qed.

Lemma ui_analyzeText text s : ui (analyzeText text s) = ui s.
Proof. unfold analyzeText. destruct (timeout s); reflexivity. Qed.

Lemma now_analyzeText text s : now (analyzeText text s) = now s.
Proof. unfold analyzeText. destruct (timeout s); reflexivity. Qed.

Lemma ui_iter_analyzeText n text s : ui (Nat.iter n (analyzeText text) s) = ui s.
Proof.
  induction n as [|n IH]; [reflexivity|]. now rewrite Nat.iter_succ, ui_analyzeText.
Qed.

Lemma timers_clearTimeout o s :
  timers (clearTimeout o s) =
  match o with
  | Some i => filter (fun tm => tid tm <> i) (timers s)
  | None => timers s
  end.
Proof. destruct o; reflexivity. Qed.

Lemma timers_analyzeText text s :
  timers (analyzeText text s) =
  timers (clearTimeout (timeout s) s)
  ++ [{| tid := next_timer s; deadline := now s + DEBOUNCE_DELAY; action := Later text |}].
Proof. unfold analyzeText. destruct (timeout s); reflexivity. Qed.

(** The analysis callback in closed form: the second length test, inside
    [analyzePrompt], never fails once the first one has passed. *)
Lemma analysis_unfold text s :
  analysis text s =
  if isAnalyzing s || JsString.shorter_than 10 text then s
  else fetch (request_for text s) (updateMartinButton BAnalyzing (with_isAnalyzing true s)).
Proof.
  unfold analysis, analyzePrompt.
  destruct (isAnalyzing s); [reflexivity|]. simpl.
  destruct (JsString.shorter_than 10 text); reflexivity.
Qed.

Lemma Agree_analysis text a b :
  Agree a b -> Agree (analysis text a) (analysis text b).
Proof.
  intros H. rewrite !analysis_unfold.
  destruct H as [Hhost Hheap Hdoc Hcur Hsug Hana Hopt Hout Hsent Hdisp].
  rewrite Hana.
  destruct (isAnalyzing b || JsString.shorter_than 10 text).
  - constructor; assumption.
  - constructor; simpl; try assumption; try reflexivity.
    + unfold request_for, detectPlatform. now rewrite Hout, Hhost.
    + unfold request_for, detectPlatform. now rewrite Hsent, Hhost.
Qed.

(** ** The invariant *)

Lemma Inv_ext a b :
  timeout a = timeout b -> next_timer a = next_timer b -> timers a = timers b ->
  outstanding a = outstanding b -> isAnalyzing a = isAnalyzing b ->
  Inv b -> Inv a.
Proof.
  intros H1 H2 H3 H4 H5 [I1 I2 I3 I4].
  constructor; rewrite ?H1, ?H2, ?H3, ?H4, ?H5; assumption.
Qed.

Ltac same_inv s :=
  apply (Inv_ext _ s); [reflexivity | reflexivity | reflexivity | reflexivity | reflexivity | ].

Lemma laters_app l1 l2 : laters (l1 ++ l2) = laters l1 ++ laters l2.
Proof. apply filter_app. Qed.

Lemma laters_cons x l :
  laters (x :: l) = if is_later x then x :: laters l else laters l.
Proof.
  unfold laters. rewrite filter_cons.
  destruct (is_later x); [now rewrite decide_True | now rewrite decide_False].
Qed.

Lemma laters_remove l1 x l2 :
  length (laters (l1 ++ l2)) <= length (laters (l1 ++ x :: l2)).
Proof.
  rewrite !laters_app, laters_cons, !length_app.
  destruct (is_later x); simpl; lia.
Qed.

Lemma elem_of_laters tm l : tm ∈ laters l <-> is_later tm = true /\ tm ∈ l.
Proof. unfold laters. exact (list_elem_of_filter (fun tm => is_later tm = true) l tm). Qed.

(** Under the invariant, [clearTimeout(timeout)] removes every pending
    debounced call. *)
Lemma laters_clearTimeout s :
  Inv s -> laters (timers (clearTimeout (timeout s) s)) = [].
Proof.
  intros [_ I2 _ _].
  destruct (laters (timers (clearTimeout (timeout s) s))) as [|tm l] eqn:E; [reflexivity|].
  exfalso.
  assert (Hin : tm ∈ laters (timers (clearTimeout (timeout s) s))) by (rewrite E; left).
  apply elem_of_laters in Hin as [Hl Hin].
  rewrite timers_clearTimeout in Hin. destruct (timeout s) as [i|] eqn:Ht.
  - apply list_elem_of_filter in Hin as [Hne Hin].
    specialize (I2 tm Hin Hl). congruence.
  - specialize (I2 tm Hin Hl). discriminate.
Qed.

Lemma clearTimeout_frame o s :
  timeout (clearTimeout o s) = timeout s /\ next_timer (clearTimeout o s) = next_timer s
  /\ outstanding (clearTimeout o s) = outstanding s
  /\ isAnalyzing (clearTimeout o s) = isAnalyzing s.
Proof. destruct o; repeat split; reflexivity. Qed.

Lemma Inv_clearTimeout s : Inv s -> Inv (clearTimeout (timeout s) s).
Proof.
  intros I. pose proof (laters_clearTimeout s I) as Hnone.
  destruct (clearTimeout_frame (timeout s) s) as (F1 & F2 & F3 & F4).
  destruct I as [I1 I2 I3 I4]. constructor.
  - rewrite F1, F2. exact I1.
  - intros tm Hin Hl.
    assert (tm ∈ laters (timers (clearTimeout (timeout s) s)))
      by (apply elem_of_laters; split; assumption).
    rewrite Hnone in H. inversion H.
  - rewrite Hnone. simpl. lia.
  - rewrite F3, F4. exact I4.
Qed.

Lemma Inv_analyzeText text s : Inv s -> Inv (analyzeText text s).
Proof.
  intros I. pose proof (laters_clearTimeout s I) as Hnone.
  destruct I as [I1 I2 I3 I4].
  assert (Hto : timeout (analyzeText text s) = Some (next_timer s))
    by (unfold analyzeText; destruct (timeout s); reflexivity).
  assert (Hnx : next_timer (analyzeText text s) = S (next_timer s))
    by (unfold analyzeText; destruct (timeout s); reflexivity).
  constructor.
  - rewrite Hto, Hnx. intros k [= <-]. lia.
  - rewrite Hto, timers_analyzeText. intros tm Hin Hl.
    apply elem_of_app in Hin as [Hin|Hin].
    + assert (tm ∈ laters (timers (clearTimeout (timeout s) s)))
        by (apply elem_of_laters; split; assumption).
      rewrite Hnone in H. inversion H.
    + apply list_elem_of_singleton in Hin. subst tm. reflexivity.
  - rewrite timers_analyzeText, laters_app, Hnone, laters_cons. simpl. lia.
  - destruct (Agree_analyzeText text s) as [_ _ _ _ _ -> _ -> _ _]. exact I4.
Qed.

Lemma Inv_iter_analyzeText n text s : Inv s -> Inv (Nat.iter n (analyzeText text) s).
Proof.
  intros I. induction n as [|n IH]; [exact I|].
  rewrite Nat.iter_succ. now apply Inv_analyzeText.
Qed.

Lemma Inv_setTimeout_ResetButton wait s :
  Inv s -> Inv (snd (setTimeout ResetButton wait s)).
Proof.
  intros [I1 I2 I3 I4]. constructor; simpl.
  - intros k Hk. specialize (I1 k Hk). lia.
  - intros tm Hin Hl. apply elem_of_app in Hin as [Hin|Hin]; [now apply I2|].
    apply list_elem_of_singleton in Hin. subst tm. discriminate.
  - rewrite laters_app, laters_cons. cbn [is_later action]. unfold laters at 2.
    rewrite filter_nil, app_nil_r. exact I3.
  - exact I4.
Qed.

Lemma Inv_updateMartinButton b s : Inv s -> Inv (updateMartinButton b s).
Proof. intros I. destruct b; same_inv s; exact I. Qed.

Lemma Inv_showSuggestions s : Inv s -> Inv (showSuggestions s).
Proof. intros I. same_inv s; exact I. Qed.

Lemma Inv_closeMartinCard s : Inv s -> Inv (closeMartinCard s).
Proof. intros I. same_inv s; exact I. Qed.

Lemma Inv_closeMartinModal s : Inv s -> Inv (closeMartinModal s).
Proof. intros I. same_inv s; exact I. Qed.

Lemma Inv_pop t n s tm rest :
  Inv s -> pop_due t (timers s) = Some (tm, rest) ->
  Inv (with_now n (with_timers rest (next_timer s) s)).
Proof.
  intros [I1 I2 I3 I4] H. apply pop_due_Some in H as (l1 & l2 & Hl & -> & _).
  constructor; simpl.
  - exact I1.
  - intros x Hin Hx. apply I2; [|exact Hx]. rewrite Hl.
    apply elem_of_app in Hin as [Hin|Hin]; apply elem_of_app; [now left|].
    right. now right.
  - rewrite Hl in I3. pose proof (laters_remove l1 tm l2). lia.
  - exact I4.
Qed.

Lemma Inv_analysis text s : Inv s -> Inv (analysis text s).
Proof.
  intros I. rewrite analysis_unfold.
  destruct (isAnalyzing s) eqn:Ha; [exact I|]. simpl.
  destruct (JsString.shorter_than 10 text); [exact I|].
  destruct I as [I1 I2 I3 I4]. rewrite Ha in I4.
  constructor; simpl; try assumption.
  rewrite length_app. simpl. lia.
Qed.

Lemma Inv_later text s : Inv s -> Inv (later text s).
Proof. intros I. apply Inv_analysis. now apply Inv_clearTimeout. Qed.

Lemma Inv_fire t s tm rest :
  Inv s -> pop_due t (timers s) = Some (tm, rest) -> Inv (fire tm rest s).
Proof.
  intros I H. unfold fire, run_action.
  pose proof (Inv_pop t (Nat.max (now s) (deadline tm)) s tm rest I H) as I'.
  destruct (action tm); [now apply Inv_later | now apply Inv_updateMartinButton].
Qed.

Lemma Inv_run_timers n t s : Inv s -> Inv (run_timers n t s).
Proof.
  revert s; induction n as [|n IH]; intros s I; simpl; [exact I|].
  destruct (pop_due t (timers s)) as [[tm rest]|] eqn:E; [|exact I].
  apply IH. eapply Inv_fire; eassumption.
Qed.

Lemma Inv_advance dt s : Inv s -> Inv (advance dt s).
Proof.
  intros I. unfold advance.
  same_inv (run_timers (length (timers s)) (now s + dt) s). now apply Inv_run_timers.
Qed.

Lemma Inv_resume r s s0 :
  Inv s0 -> timeout s = timeout s0 -> next_timer s = next_timer s0 ->
  timers s = timers s0 -> outstanding s = [] -> Inv (resume r s).
Proof.
  intros [I1 I2 I3 I4] H1 H2 H3 Hout.
  assert (Inv (with_isAnalyzing false s)) as I.
  { constructor; simpl; rewrite ?H1, ?H2, ?H3; try assumption. now rewrite Hout. }
  unfold resume. destruct r as [r|].
  - destruct (metrics r);
      match goal with |- context [updateMartinButton ?b _] => destruct b end;
      same_inv (with_isAnalyzing false s); exact I.
  - same_inv (with_isAnalyzing false s); exact I.
Qed.

Lemma Inv_answer n resp s : Inv s -> Inv (answer n resp s).
Proof.
  intros I. unfold answer. destruct (outstanding s !! n) as [r|] eqn:E; [|exact I].
  pose proof I as [I1 I2 I3 I4].
  assert (Hlen : length (outstanding s) = 1).
  { apply lookup_lt_Some in E. destruct (isAnalyzing s); lia. }
  destruct (outstanding s) as [|r0 [|r1 l]] eqn:Ho; try discriminate.
  destruct n as [|n]; [|destruct n; discriminate].
  apply (Inv_resume _ _ s); [exact I | reflexivity..].
Qed.

Lemma Inv_input_event id s : Inv s -> Inv (input_event id s).
Proof.
  intros I. unfold input_event. destruct (heap s !! id); [|exact I].
  now apply Inv_iter_analyzeText.
Qed.

Lemma Inv_dispatchEvent id s : Inv s -> Inv (dispatchEvent id s).
Proof.
  intros I. unfold dispatchEvent. apply Inv_input_event. same_inv s; exact I.
Qed.

Lemma Inv_focus_event id s : Inv s -> Inv (focus_event id s).
Proof.
  intros I. unfold focus_event. destruct (heap s !! id) as [e|]; [|exact I].
  induction (focus_listeners e) as [|n IH]; [exact I|].
  rewrite Nat.iter_succ. unfold focus_listener at 1.
  destruct (JsString.longer_than 10 (text_of e)); [now apply Inv_analyzeText | exact IH].
Qed.

Lemma Inv_button_click s : Inv s -> Inv (button_click s).
Proof.
  intros I. unfold button_click.
  destruct (_ || _); [now apply Inv_showSuggestions|].
  destruct (currentTextarea s); [|exact I].
  destruct (heap s !! n) as [e|]; [|exact I].
  destruct (JsString.longer_than 10 (text_of e)); [now apply Inv_analyzeText | exact I].
Qed.

Lemma Inv_applySuggestion index s : Inv s -> Inv (state_of (applySuggestion index s)).
Proof.
  intros I. unfold applySuggestion.
  destruct (suggestions s !! index) as [sg|]; [|exact I].
  destruct (currentTextarea s) as [id|]; [|exact I].
  destruct (heap s !! id) as [e|]; [|exact I].
  destruct (get_value e) as [text|]; [|exact I].
  cbn [state_of].
  match goal with |- context [dispatchEvent id ?s1] =>
    assert (I2 : Inv (dispatchEvent id s1)) by (apply Inv_dispatchEvent; same_inv s; exact I);
    set (s2 := dispatchEvent id s1) in *
  end.
  match goal with |- Inv (if ?c then showSuggestions ?s4 else closeMartinCard ?s4) =>
    assert (I4 : Inv s4);
    [| destruct c; [now apply Inv_showSuggestions | now apply Inv_closeMartinCard]]
  end.
  apply Inv_updateMartinButton. same_inv s2; exact I2.
Qed.

Lemma Inv_acceptAllSuggestions s : Inv s -> Inv (acceptAllSuggestions s).
Proof.
  intros I. unfold acceptAllSuggestions.
  destruct (currentTextarea s) as [id|]; [|exact I].
  destruct (String.eqb _ _); [exact I|].
  apply Inv_setTimeout_ResetButton, Inv_updateMartinButton, Inv_closeMartinCard,
    Inv_dispatchEvent.
  same_inv s; exact I.
Qed.

Lemma Inv_showOptimizedPrompt s : Inv s -> Inv (state_of (showOptimizedPrompt s)).
Proof.
  intros I. unfold showOptimizedPrompt.
  destruct (currentTextarea s) as [id|]; [|exact I].
  destruct (heap s !! id); [|exact I]. same_inv s; exact I.
Qed.

Lemma Inv_findAndMonitorTextarea s : Inv s -> Inv (snd (findAndMonitorTextarea s)).
Proof.
  intros I. unfold findAndMonitorTextarea.
  destruct (first_match selectors s); [|exact I]. same_inv s; exact I.
Qed.

Lemma Inv_observer_callback s : Inv s -> Inv (observer_callback s).
Proof.
  intros I. unfold observer_callback.
  destruct (currentTextarea s) as [id|]; [|now apply Inv_findAndMonitorTextarea].
  destruct (attached id s); [exact I | now apply Inv_findAndMonitorTextarea].
Qed.

Lemma Inv_step ev s : Inv s -> Inv (step ev s).
Proof.
  intros I. destruct ev; cbn [step].
  - unfold user_types. apply Inv_input_event. same_inv s; exact I.
  - now apply Inv_focus_event.
  - now apply Inv_button_click.
  - now apply Inv_applySuggestion.
  - now apply Inv_acceptAllSuggestions.
  - now apply Inv_showOptimizedPrompt.
  - unfold replaceWithOptimized. now apply Inv_closeMartinModal, Inv_acceptAllSuggestions.
  - now apply Inv_closeMartinCard.
  - now apply Inv_closeMartinModal.
  - now apply Inv_advance.
  - now apply Inv_answer.
  - unfold page_changes. apply Inv_observer_callback. same_inv s; exact I.
Qed.

Lemma Inv_run evs s : Inv s -> Inv (run evs s).
Proof.
  revert s; induction evs as [|ev evs IH]; intros s I; [exact I|].
  apply IH. now apply Inv_step.
Qed.

Lemma Inv_loaded host h doc : Inv (loaded host h doc).
Proof.
  constructor; simpl.
  - discriminate.
  - intros tm Hin. inversion Hin.
  - lia.
  - reflexivity.
Qed.

Lemma reachable_Inv s : reachable s -> Inv s.
Proof. intros (host & h & doc & evs & ->). apply Inv_run, Inv_loaded. Qed.

Lemma reachable_step ev s : reachable s -> reachable (step ev s).
Proof.
  intros (host & h & doc & evs & ->). exists host, h, doc, (evs ++ [ev]).
  unfold run. now rewrite foldl_app.
Qed.

Lemma reachable_run evs s : reachable s -> reachable (run evs s).
Proof.
  revert s; induction evs as [|ev evs IH]; intros s Hr; [exact Hr|].
  apply IH. now apply reachable_step.
Qed.

Lemma reachable_loaded host h doc : reachable (loaded host h doc).
Proof. exists host, h, doc, []. reflexivity. Qed.

(** ** What the passing of time does *)

Lemma timers_analysis text s : timers (analysis text s) = timers s.
Proof.
  rewrite analysis_unfold. destruct (_ || _); reflexivity.
Qed.

Lemma timeout_analysis text s : timeout (analysis text s) = timeout s.
Proof.
  rewrite analysis_unfold. destruct (_ || _); reflexivity.
Qed.

Lemma length_timers_fire tm rest s : length (timers (fire tm rest s)) <= length rest.
Proof.
  unfold fire, run_action. destruct (action tm) as [text|]; [|reflexivity].
  unfold later. rewrite timers_analysis, timers_clearTimeout.
  match goal with |- context [timeout ?x] => destruct (timeout x) end;
    [apply length_filter | reflexivity].
Qed.

(** [length (timers s)] rounds run every timer that is due. *)
Lemma run_timers_complete n t s :
  length (timers s) <= n -> pop_due t (timers (run_timers n t s)) = None.
Proof.
  revert s; induction n as [|n IH]; intros s Hn; simpl.
  - destruct (timers s); [reflexivity | simpl in Hn; lia].
  - destruct (pop_due t (timers s)) as [[tm rest]|] eqn:E; [|exact E].
    apply IH. pose proof (length_timers_fire tm rest s).
    apply pop_due_length in E. lia.
Qed.

Lemma advance_complete dt s :
  pop_due (now s + dt) (timers (advance dt s)) = None.
Proof. unfold advance. cbn [timers with_now]. now apply run_timers_complete. Qed.

Lemma due_later_not_due t l :
  Forall (fun x => t < deadline x) l -> due_later t l = None.
Proof.
  intros H. unfold due_later. destruct (laters l) as [|tm r] eqn:E; [reflexivity|].
  assert (Hin : tm ∈ laters l) by (rewrite E; left).
  apply elem_of_laters in Hin as [_ Hin].
  rewrite Forall_forall in H. specialize (H tm Hin).
  destruct (Nat.leb_spec (deadline tm) t); [lia | reflexivity].
Qed.

Lemma laters_split_single l1 tm l2 :
  is_later tm = true -> length (laters (l1 ++ tm :: l2)) <= 1 ->
  laters (l1 ++ tm :: l2) = [tm] /\ laters (l1 ++ l2) = [].
Proof.
  intros Hl. rewrite !laters_app, laters_cons, Hl, length_app. simpl.
  intros H. destruct (laters l1); [|simpl in H; lia].
  destruct (laters l2); [|simpl in H; lia]. split; reflexivity.
Qed.

Lemma laters_split_other l1 tm l2 :
  is_later tm = false -> laters (l1 ++ tm :: l2) = laters (l1 ++ l2).
Proof. intros Hl. now rewrite !laters_app, laters_cons, Hl. Qed.

Lemma Agree_fire_ResetButton tm rest s :
  action tm = ResetButton -> Agree (fire tm rest s) s.
Proof. intros H. unfold fire. rewrite H. constructor; reflexivity. Qed.

(** Time passing affects the script's variables and the network only
    through the pending debounced call, if it is due. *)
Lemma run_timers_agree n t s :
  Inv s -> length (timers s) <= n ->
  Agree (run_timers n t s)
        (match due_later t (timers s) with
         | Some text => analysis text s
         | None => s
         end).
Proof.
  revert s; induction n as [|n IH]; intros s I Hn.
  - destruct (timers s) eqn:E; [|simpl in Hn; lia]. apply Agree_refl.
  - simpl. destruct (pop_due t (timers s)) as [[tm rest]|] eqn:E.
    + pose proof (Inv_fire t s tm rest I E) as I'.
      pose proof (Inv_pop t (Nat.max (now s) (deadline tm)) s tm rest I E) as Ipop.
      pose proof (length_timers_fire tm rest s) as Hlen.
      pose proof (pop_due_length _ _ _ _ E) as Hlen'.
      specialize (IH (fire tm rest s) I' ltac:(lia)).
      apply pop_due_Some in E as (l1 & l2 & Hl & -> & Hdue).
      destruct (action tm) as [text|] eqn:Ha.
      * assert (Hlater : is_later tm = true) by (unfold is_later; now rewrite Ha).
        pose proof (inv_single s I) as Hs. rewrite Hl in Hs.
        apply laters_split_single in Hs as [Hone Hnone]; [|exact Hlater].
        assert (Hl' : laters (timers (fire tm (l1 ++ l2) s)) = []).
        { unfold fire. rewrite Ha. cbn [run_action]. unfold later.
          rewrite timers_analysis. apply laters_clearTimeout. exact Ipop. }
        unfold due_later in IH. rewrite Hl' in IH.
        unfold due_later. rewrite Hl, Hone, Ha.
        destruct (Nat.leb_spec (deadline tm) t); [|lia].
        eapply Agree_trans; [exact IH|].
        unfold fire. rewrite Ha. cbn [run_action]. unfold later.
        apply Agree_analysis.
        eapply Agree_trans; [apply Agree_clearTimeout|]. constructor; reflexivity.
      * assert (Hother : is_later tm = false) by (unfold is_later; now rewrite Ha).
        assert (Hsame : due_later t (timers (fire tm (l1 ++ l2) s)) = due_later t (timers s)).
        { unfold fire. rewrite Ha. cbn. unfold due_later.
          now rewrite Hl, (laters_split_other l1 tm l2 Hother). }
        rewrite Hsame in IH.
        pose proof (Agree_fire_ResetButton tm (l1 ++ l2) s Ha) as Hag.
        eapply Agree_trans; [exact IH|].
        destruct (due_later t (timers s)); [now apply Agree_analysis | exact Hag].
    + apply pop_due_None in E. rewrite (due_later_not_due _ _ E). apply Agree_refl.
Qed.

Lemma advance_agree dt s :
  Inv s ->
  Agree (advance dt s)
        (match due_later (now s + dt) (timers s) with
         | Some text => analysis text s
         | None => s
         end).
Proof.
  intros I. unfold advance.
  eapply Agree_trans; [apply Agree_with_now|]. now apply run_timers_agree.
Qed.

(** While the pending debounced call is not due, it stays pending. *)
Lemma run_timers_laters n t s :
  Inv s -> due_later t (timers s) = None ->
  laters (timers (run_timers n t s)) = laters (timers s).
Proof.
  revert s; induction n as [|n IH]; intros s I Hnone; [reflexivity|].
  simpl. destruct (pop_due t (timers s)) as [[tm rest]|] eqn:E; [|reflexivity].
  pose proof (Inv_fire t s tm rest I E) as I'.
  apply pop_due_Some in E as (l1 & l2 & Hl & -> & Hdue).
  destruct (action tm) as [text|] eqn:Ha.
  - exfalso.
    assert (Hlater : is_later tm = true) by (unfold is_later; now rewrite Ha).
    pose proof (inv_single s I) as Hs. rewrite Hl in Hs.
    apply laters_split_single in Hs as [Hone _]; [|exact Hlater].
    unfold due_later in Hnone. rewrite Hl, Hone, Ha in Hnone.
    destruct (Nat.leb_spec (deadline tm) t); [discriminate | lia].
  - assert (Hother : is_later tm = false) by (unfold is_later; now rewrite Ha).
    assert (Ht : timers (fire tm (l1 ++ l2) s) = l1 ++ l2)
      by (unfold fire; rewrite Ha; reflexivity).
    rewrite IH; [| exact I' |].
    + now rewrite Ht, Hl, (laters_split_other l1 tm l2 Hother).
    + unfold due_later in *.
      now rewrite Ht, <- (laters_split_other l1 tm l2 Hother), <- Hl.
Qed.

(** ** The armed debounce timer *)

Lemma now_advance dt s : now (advance dt s) = now s + dt.
Proof. reflexivity. Qed.

Lemma Armed_analyzeText text s0 s :
  Inv s -> Agree s s0 -> Armed text (now s + DEBOUNCE_DELAY) s0 (analyzeText text s).
Proof.
  intros I Hag. constructor.
  - now apply Inv_analyzeText.
  - eapply Agree_trans; [apply Agree_analyzeText | exact Hag].
  - eexists. rewrite timers_analyzeText, laters_app, (laters_clearTimeout s I), laters_cons.
    cbn. split; [reflexivity|]. split; reflexivity.
Qed.

Lemma Armed_due_later text d s0 s t :
  Armed text d s0 s ->
  due_later t (timers s) = if d <=? t then Some text else None.
Proof.
  intros [_ _ (tm & Hl & Ha & Hd)]. unfold due_later. now rewrite Hl, Ha, Hd.
Qed.

Lemma Armed_advance_early text d s0 s g :
  Armed text d s0 s -> now s + g < d -> Armed text d s0 (advance g s).
Proof.
  intros A Hg. pose proof (Armed_due_later _ _ _ _ (now s + g) A) as Hdue.
  destruct (Nat.leb_spec d (now s + g)); [lia|].
  destruct A as [I Hag Htm]. constructor.
  - now apply Inv_advance.
  - pose proof (advance_agree g s I) as H'. rewrite Hdue in H'.
    eapply Agree_trans; eassumption.
  - unfold advance. cbn [timers with_now]. now rewrite run_timers_laters.
Qed.

Lemma Armed_advance_late text d s0 s dt :
  Armed text d s0 s -> d <= now s + dt -> Agree (advance dt s) (analysis text s0).
Proof.
  intros A Hd. pose proof (Armed_due_later _ _ _ _ (now s + dt) A) as Hdue.
  destruct (Nat.leb_spec d (now s + dt)); [|lia].
  destruct A as [I Hag _].
  pose proof (advance_agree dt s I) as H'. rewrite Hdue in H'.
  eapply Agree_trans; [exact H'|]. now apply Agree_analysis.
Qed.

Lemma last_cons {A} (x : A) l d : List.last (x :: l) d = List.last l x.
Proof.
  revert x d; induction l as [|y l IH]; intros x d; [reflexivity|].
  change (List.last (x :: y :: l) d) with (List.last (y :: l) d).
  now rewrite (IH y d), (IH y x).
Qed.

Lemma Armed_invocations text s0 s1 rest :
  Armed text (now s1 + DEBOUNCE_DELAY) s0 s1 ->
  Forall (fun g => fst g < DEBOUNCE_DELAY) rest ->
  let s' := foldl (fun s g => invoke_after g s) s1 rest in
  Armed (List.last (map snd rest) text) (now s' + DEBOUNCE_DELAY) s0 s'.
Proof.
  revert text s1; induction rest as [|[g t'] rest IH]; intros text s1 A Hgaps; [exact A|].
  inversion Hgaps as [|? ? Hg Hrest]; subst. simpl in Hg.
  cbn [foldl map snd]. rewrite last_cons. apply IH; [|exact Hrest].
  unfold invoke_after; cbn [fst snd].
  assert (A' : Armed text (now s1 + DEBOUNCE_DELAY) s0 (advance g s1))
    by (apply Armed_advance_early; [exact A | lia]).
  rewrite now_analyzeText. destruct A' as [I' Hag' _].
  now apply Armed_analyzeText.
Qed.

Lemma Armed_burst first rest s :
  Inv s -> Forall (fun g => fst g < DEBOUNCE_DELAY) rest ->
  Armed (last_text first rest) (now (burst first rest s) + DEBOUNCE_DELAY) s
        (burst first rest s).
Proof.
  intros I Hgaps. unfold burst, last_text.
  apply Armed_invocations; [|exact Hgaps].
  rewrite now_analyzeText. apply Armed_analyzeText; [exact I | apply Agree_refl].
Qed.

Lemma sent_analysis text s :
  sent (analysis text s) =
  if isAnalyzing s || JsString.shorter_than 10 text then sent s
  else sent s ++ [request_for text s].
Proof. rewrite analysis_unfold. destruct (_ || _); reflexivity. Qed.

Lemma analysis_short text s : String.length text < 10 -> analysis text s = s.
Proof.
  intros H. rewrite analysis_unfold, (shorter_than_length 10 text H).
  now rewrite orb_true_r.
Qed.

Lemma analysis_in_flight text s : isAnalyzing s = true -> analysis text s = s.
Proof. intros H. rewrite analysis_unfold, H. reflexivity. Qed.

Lemma longer_than_not_shorter text :
  JsString.longer_than 10 text = true -> JsString.shorter_than 10 text = false.
Proof.
  destruct text as [|c r]; [discriminate|]. unfold JsString.longer_than, JsString.shorter_than.
  intros H. apply Nat.ltb_lt in H. apply Nat.ltb_ge. lia.
Qed.

(** What a single invocation leads to, whatever else is pending. *)
Lemma invocation_outcome text s dt :
  Inv s ->
  sent (advance dt (analyzeText text s)) =
  if dt <? DEBOUNCE_DELAY then sent s else sent (analysis text s).
Proof.
  intros I.
  pose proof (Armed_analyzeText text s s I (Agree_refl s)) as A.
  destruct (Nat.ltb_spec dt DEBOUNCE_DELAY) as [Hlt|Hge].
  - apply (Armed_advance_early _ _ _ _ dt) in A.
    + destruct A as [_ [] _]. assumption.
    + rewrite now_analyzeText. lia.
  - apply (Armed_advance_late _ _ _ _ dt) in A.
    + destruct A. assumption.
    + rewrite now_analyzeText. lia.
Qed.

Lemma iter_analyzeText_S n text s :
  exists s1, Nat.iter (S n) (analyzeText text) s = analyzeText text s1
             /\ (Inv s -> Inv s1) /\ Agree s1 s /\ now s1 = now s.
Proof.
  exists (Nat.iter n (analyzeText text) s). split; [apply Nat.iter_succ|]. split; [|split].
  - intros I. now apply Inv_iter_analyzeText.
  - apply Agree_iter_analyzeText.
  - induction n as [|n IH]; [reflexivity|]. now rewrite Nat.iter_succ, now_analyzeText.
Qed.

(** ** Debounced analyzer *)

Lemma reachable_sample_page : reachable sample_page.
Proof. exists "claude.ai"%string, ∅, [], [PageChanges {[ 7 := plain_textarea "" ]} [7]]. reflexivity. Qed.

(** C5.  A text shorter than 10 characters never leads to a network call
    and never changes the widgets: invoking the debounced analyzer with
    it touches neither, the callback returns at once in whatever state
    its timer fires, and no request is issued however long one waits. *)
Theorem short_text_is_ignored (s : State) (text : string) :
  String.length text < 10 ->
  ui (analyzeText text s) = ui s
  /\ sent (analyzeText text s) = sent s
  /\ outstanding (analyzeText text s) = outstanding s
  /\ (forall s', analysis text s' = s')
  /\ (forall s', ui (later text s') = ui s' /\ sent (later text s') = sent s'
                 /\ outstanding (later text s') = outstanding s'
                 /\ isAnalyzing (later text s') = isAnalyzing s')
  /\ (reachable s -> forall dt, sent (advance dt (analyzeText text s)) = sent s).
Proof.
  intros Hshort.
  destruct (Agree_analyzeText text s) as [_ _ _ _ _ _ _ Hout Hsent _].
  split; [apply ui_analyzeText|]. split; [exact Hsent|]. split; [exact Hout|].
  split; [intros s'; now apply analysis_short|]. split.
  - intros s'. unfold later. rewrite analysis_short by exact Hshort.
    destruct (timeout s'); repeat split; reflexivity.
  - intros Hr dt. rewrite invocation_outcome by now apply reachable_Inv.
    rewrite analysis_short by exact Hshort. now destruct (dt <? DEBOUNCE_DELAY).
Qed.

Lemma short_text_is_ignored_witness :
  sent (advance 500 (analyzeText "fix" sample_page)) = sent sample_page.
Proof.
  apply (short_text_is_ignored sample_page "fix"); [simpl; lia | exact reachable_sample_page].
Defined.

(** C6, as the code has it.  A burst of invocations, each less than
    500 ms after the one before and with no call in flight, sends nothing
    while it lasts; once 500 ms have passed since the last invocation,
    exactly one request has been sent, carrying the last text, when that
    text has at least 10 characters, and none when it is shorter. *)
Theorem burst_sends_last_text (s : State) (first : string) (rest : list (nat * string)) (dt : nat) :
  reachable s ->
  isAnalyzing s = false ->
  Forall (fun g => fst g < DEBOUNCE_DELAY) rest ->
  DEBOUNCE_DELAY <= dt ->
  sent (burst first rest s) = sent s
  /\ sent (advance dt (burst first rest s)) =
     if JsString.shorter_than 10 (last_text first rest) then sent s
     else sent s ++ [request_for (last_text first rest) s].
Proof.
  intros Hr Hidle Hgaps Hdt. apply reachable_Inv in Hr.
  pose proof (Armed_burst first rest s Hr Hgaps) as A. split.
  - destruct A as [_ [] _]. assumption.
  - apply (Armed_advance_late _ _ _ _ dt) in A; [|lia].
    destruct A as [_ _ _ _ _ _ _ _ -> _]. now rewrite sent_analysis, Hidle.
Qed.

Lemma burst_sends_last_text_witness :
  sent (advance 500 (burst "fix my" [(100, "fix my code"); (120, "fix my code please")] sample_page))
  = [request_for "fix my code please" sample_page].
Proof.
  apply (burst_sends_last_text sample_page "fix my"
           [(100, "fix my code"%string); (120, "fix my code please"%string)] 500).
  - exact reachable_sample_page.
  - reflexivity.
  - repeat constructor; simpl; unfold DEBOUNCE_DELAY; lia.
  - unfold DEBOUNCE_DELAY; lia.
Defined.

(** C6 as stated fails when the burst ends on a short text: the pending
    call for the longer text is cancelled and nothing is ever sent. *)
Lemma burst_ending_short_sends_nothing :
  let s := burst "fix my code please" [(100, "fix")] sample_page in
  isAnalyzing sample_page = false
  /\ (forall dt, ~ exists r, sent (advance dt s) = sent sample_page ++ [r]).
Proof.
  split; [reflexivity|]. intros dt (r & H).
  unfold burst, invoke_after in H. cbn [foldl fst snd] in H.
  rewrite invocation_outcome in H
    by (apply Inv_advance, Inv_analyzeText, reachable_Inv, reachable_sample_page).
  rewrite analysis_short in H by (simpl; lia).
  destruct (dt <? DEBOUNCE_DELAY); vm_compute in H; discriminate.
Qed.

(** ** Button click, focus and input *)

Lemma reachable_typed_page text : reachable (typed_page text).
Proof.
  exists "claude.ai"%string, ∅, [], [PageChanges {[ 7 := plain_textarea text ]} [7]].
  reflexivity.
Qed.

(** C3, as the code has it.  With no suggestions, no optimized text and
    a monitored element holding more than 10 characters, a click on the
    button is one more invocation of the debounced analyzer: nothing is
    sent at the click nor during the 500 ms that follow; the request goes
    out when the timer fires, unless a call is in flight then, in which
    case it is dropped. *)
Theorem click_goes_through_debounce (s : State) (id : nat) (e : Element) :
  reachable s ->
  suggestions s = [] ->
  optimizedPrompt s = EmptyString ->
  currentTextarea s = Some id ->
  heap s !! id = Some e ->
  JsString.longer_than 10 (text_of e) = true ->
  button_click s = analyzeText (text_of e) s
  /\ sent (button_click s) = sent s
  /\ ui (button_click s) = ui s
  /\ (forall dt, dt < DEBOUNCE_DELAY -> sent (advance dt (button_click s)) = sent s)
  /\ (forall dt, DEBOUNCE_DELAY <= dt ->
      sent (advance dt (button_click s)) =
      if isAnalyzing s then sent s else sent s ++ [request_for (text_of e) s]).
Proof.
  intros Hr Hsg Hopt Hcur He Hlong.
  assert (Hclick : button_click s = analyzeText (text_of e) s).
  { unfold button_click. now rewrite Hsg, Hopt, Hcur, He, Hlong. }
  rewrite Hclick. apply reachable_Inv in Hr.
  split; [reflexivity|].
  split; [apply (agree_sent _ _ (Agree_analyzeText _ _))|].
  split; [apply ui_analyzeText|]. split.
  - intros dt Hdt. rewrite invocation_outcome by exact Hr.
    destruct (Nat.ltb_spec dt DEBOUNCE_DELAY); [reflexivity | lia].
  - intros dt Hdt. rewrite invocation_outcome by exact Hr.
    destruct (Nat.ltb_spec dt DEBOUNCE_DELAY); [lia|].
    rewrite sent_analysis, (longer_than_not_shorter _ Hlong).
    now destruct (isAnalyzing s).
Qed.

Lemma click_goes_through_debounce_witness :
  let s := typed_page "fix my code please" in
  sent (button_click s) = sent s
  /\ sent (advance 499 (button_click s)) = sent s
  /\ sent (advance 500 (button_click s)) = [request_for "fix my code please" s].
Proof.
  intros s.
  destruct (click_goes_through_debounce s 7
              {| is_textarea := true; placeholder := Some "Send a message..."%string;
                 data_id := None; contenteditable := None;
                 value := Some "fix my code please"%string; textContent := EmptyString;
                 input_listeners := 1; focus_listeners := 1 |})
    as (_ & H1 & _ & H2 & H3);
    [apply reachable_typed_page | reflexivity | reflexivity | reflexivity
    | reflexivity | reflexivity |].
  split; [exact H1|]. split.
  - apply H2. unfold DEBOUNCE_DELAY. lia.
  - apply (H3 500). unfold DEBOUNCE_DELAY. lia.
Defined.

(** C3 as stated fails: a click sends nothing at once, and still nothing
    499 ms later; the button does not even turn to its analyzing look. *)
Lemma click_does_not_bypass_debounce :
  let s := typed_page "fix my code please" in
  suggestions s = [] /\ optimizedPrompt s = EmptyString
  /\ option_map text_of (monitored s) = Some "fix my code please"%string
  /\ sent (button_click s) = [] /\ outstanding (button_click s) = []
  /\ button (ui (button_click s)) = BDefault
  /\ sent (advance 499 (button_click s)) = [].
Proof. vm_compute. repeat split; reflexivity. Qed.

Lemma focus_event_short id e s :
  heap s !! id = Some e -> JsString.longer_than 10 (text_of e) = false ->
  focus_event id s = s.
Proof.
  intros He Hshort. unfold focus_event. rewrite He.
  induction (focus_listeners e) as [|n IH]; [reflexivity|].
  rewrite Nat.iter_succ, IH. unfold focus_listener. now rewrite Hshort.
Qed.

(** C10.  When the monitored text has exactly 10 characters, an input
    event arms the debounce timer and the request is sent when it fires
    (no call being in flight), whereas a focus event changes nothing and
    a click on the button, with nothing to show, changes nothing either. *)
Theorem length_ten_input_only (s : State) (id : nat) (e : Element) :
  reachable s ->
  heap s !! id = Some e ->
  String.length (text_of e) = 10 ->
  (0 < input_listeners e ->
     due_later (now s + DEBOUNCE_DELAY) (timers (input_event id s)) = Some (text_of e)
     /\ (isAnalyzing s = false -> forall dt, DEBOUNCE_DELAY <= dt ->
         sent (advance dt (input_event id s)) = sent s ++ [request_for (text_of e) s]))
  /\ focus_event id s = s
  /\ (currentTextarea s = Some id ->
      timers (button_click s) = timers s /\ timeout (button_click s) = timeout s
      /\ Agree (button_click s) s
      /\ (suggestions s = [] -> optimizedPrompt s = EmptyString -> button_click s = s)).
Proof.
  intros Hr He Hlen. apply reachable_Inv in Hr.
  assert (Hnot_longer : JsString.longer_than 10 (text_of e) = false)
    by (apply longer_than_false; lia).
  assert (Hnot_shorter : JsString.shorter_than 10 (text_of e) = false)
    by (apply shorter_than_false; lia).
  split; [|split].
  - intros Hlst. unfold input_event. rewrite He.
    destruct (input_listeners e) as [|n]; [lia|].
    destruct (iter_analyzeText_S n (text_of e) s) as (s1 & -> & HI & Hag & Hnow).
    specialize (HI Hr). split.
    + rewrite (Armed_due_later _ _ _ _ _ (Armed_analyzeText (text_of e) s s1 HI Hag)).
      rewrite Hnow, Nat.leb_refl. reflexivity.
    + intros Hidle dt Hdt. rewrite invocation_outcome by exact HI.
      destruct (Nat.ltb_spec dt DEBOUNCE_DELAY); [lia|].
      rewrite sent_analysis, Hnot_shorter.
      destruct Hag as [Hh _ _ _ _ -> _ _ -> _]. rewrite Hidle. cbn [orb].
      unfold request_for, detectPlatform. now rewrite Hh.
  - now apply (focus_event_short id e).
  - intros Hcur. unfold button_click. rewrite Hcur, He, Hnot_longer.
    destruct (0 <? length (suggestions s)) eqn:Hn.
    + cbn [orb]. repeat split; try reflexivity.
      intros Hsg. rewrite Hsg in Hn. discriminate.
    + cbn [orb]. destruct (String.eqb_spec (optimizedPrompt s) EmptyString) as [Ho|Ho].
      * cbn [negb]. repeat split; reflexivity.
      * cbn [negb]. repeat split; try reflexivity. intros _ Ho'. contradiction.
Qed.

Lemma length_ten_input_only_witness :
  let s := typed_page "0123456789" in
  sent (advance 500 (input_event 7 s)) = [request_for "0123456789" s]
  /\ focus_event 7 s = s
  /\ button_click s = s.
Proof.
  intros s.
  destruct (length_ten_input_only s 7
              {| is_textarea := true; placeholder := Some "Send a message..."%string;
                 data_id := None; contenteditable := None;
                 value := Some "0123456789"%string; textContent := EmptyString;
                 input_listeners := 1; focus_listeners := 1 |})
    as (H1 & H2 & H3);
    [apply reachable_typed_page | reflexivity | reflexivity |].
  split; [|split].
  - destruct H1 as [_ H1]; [simpl; lia|].
    apply (H1 eq_refl 500). unfold DEBOUNCE_DELAY. lia.
  - exact H2.
  - destruct (H3 eq_refl) as (_ & _ & _ & H4). now apply H4.
Defined.

(** ** In-flight guard *)

Lemma run_timers_idle n t s : pop_due t (timers s) = None -> run_timers n t s = s.
Proof. intros H. destruct n; [reflexivity|]. simpl. now rewrite H. Qed.

Lemma advance_no_timers dt s : timers s = [] -> advance dt s = with_now (now s + dt) s.
Proof. intros H. unfold advance. now rewrite H. Qed.

Lemma timers_fire_subset tm rest s x : x ∈ timers (fire tm rest s) -> x ∈ rest.
Proof.
  unfold fire, run_action. destruct (action tm) as [text|]; [|trivial].
  unfold later. rewrite timers_analysis, timers_clearTimeout.
  match goal with |- context [timeout ?y] => destruct (timeout y) end; [|trivial].
  intros H. now apply list_elem_of_filter in H as [_ H].
Qed.

Lemma timers_run_timers_subset n t s x :
  x ∈ timers (run_timers n t s) -> x ∈ timers s.
Proof.
  revert s; induction n as [|n IH]; intros s; [trivial|]. simpl.
  destruct (pop_due t (timers s)) as [[tm rest]|] eqn:E; [|trivial].
  intros H. apply IH, timers_fire_subset in H.
  apply pop_due_Some in E as (l1 & l2 & -> & -> & _).
  apply elem_of_app in H as [H|H]; apply elem_of_app; [now left | right; now right].
Qed.

(** Once the armed timer is due, no debounced call stays pending. *)
Lemma Armed_advance_late_laters text d s0 s dt :
  Armed text d s0 s -> d <= now s + dt -> laters (timers (advance dt s)) = [].
Proof.
  intros [I _ (tm & Hl & _ & Hd)] Hdue.
  destruct (laters (timers (advance dt s))) as [|x l] eqn:E; [reflexivity|]. exfalso.
  assert (Hx : x ∈ laters (timers (advance dt s))) by (rewrite E; left).
  apply elem_of_laters in Hx as [Hxl Hx].
  pose proof (advance_complete dt s) as Hnone. apply pop_due_None in Hnone.
  rewrite Forall_forall in Hnone. specialize (Hnone x Hx).
  unfold advance in Hx. cbn [timers with_now] in Hx.
  apply timers_run_timers_subset in Hx.
  assert (Hin : x ∈ laters (timers s)) by (apply elem_of_laters; now split).
  rewrite Hl in Hin. apply list_elem_of_singleton in Hin. subst x. lia.
Qed.

(** C2, as the code has it.  At most one request is ever outstanding,
    and one is exactly when [isAnalyzing] is set.  An invocation whose
    timer fires while a call is in flight does not wait for it: the
    callback returns at once, the text is not sent and no debounced call
    stays pending that would send it later. *)
Theorem in_flight_invocation_is_dropped (s : State) :
  reachable s ->
  length (outstanding s) <= 1
  /\ (isAnalyzing s = true <-> outstanding s <> [])
  /\ (isAnalyzing s = true ->
      forall text,
        (forall s', isAnalyzing s' = true -> analysis text s' = s')
        /\ forall dt, DEBOUNCE_DELAY <= dt ->
             sent (advance dt (analyzeText text s)) = sent s
             /\ outstanding (advance dt (analyzeText text s)) = outstanding s
             /\ laters (timers (advance dt (analyzeText text s))) = []).
Proof.
  intros Hr. apply reachable_Inv in Hr. pose proof (inv_network s Hr) as Hnet.
  split; [destruct (isAnalyzing s); lia|]. split.
  - destruct (isAnalyzing s), (outstanding s); simpl in Hnet; try discriminate;
      split; congruence.
  - intros Hfl text. split; [intros s'; apply analysis_in_flight|].
    intros dt Hdt.
    pose proof (Armed_analyzeText text s s Hr (Agree_refl s)) as A.
    pose proof (Armed_advance_late _ _ _ _ dt A) as Hag.
    rewrite now_analyzeText in Hag. specialize (Hag ltac:(lia)).
    rewrite (analysis_in_flight _ _ Hfl) in Hag.
    split; [apply Hag|]. split; [apply Hag|].
    apply (Armed_advance_late_laters _ _ _ _ dt A). rewrite now_analyzeText. lia.
Qed.

Lemma reachable_in_flight_page : reachable in_flight_page.
Proof. apply reachable_run, reachable_sample_page. Qed.

Lemma in_flight_invocation_is_dropped_witness :
  isAnalyzing in_flight_page = true
  /\ sent (advance 500 (analyzeText "fix my code, thanks" in_flight_page)) = sent in_flight_page.
Proof.
  assert (Hfl : isAnalyzing in_flight_page = true) by (vm_compute; reflexivity).
  split; [exact Hfl|].
  pose proof (in_flight_invocation_is_dropped in_flight_page reachable_in_flight_page)
    as (_ & _ & H).
  specialize (H Hfl "fix my code, thanks"%string). destruct H as [_ H].
  assert (Hd : DEBOUNCE_DELAY <= 500) by (unfold DEBOUNCE_DELAY; lia).
  specialize (H 500 Hd). destruct H as [H _]. exact H.
Defined.

(** C2 as stated fails: text typed while a call is in flight, whose timer
    fires before the answer arrives, is never sent afterwards. *)
Lemma text_during_flight_never_sent :
  let s := run dropped_trace sample_page in
  option_map text_of (monitored s) = Some "fix my code, thanks"%string
  /\ isAnalyzing s = false
  /\ forall dt, ~ exists r, r ∈ sent (advance dt s) /\ prompt r = "fix my code, thanks"%string.
Proof.
  intros s. split; [vm_compute; reflexivity|]. split; [vm_compute; reflexivity|].
  intros dt (r & Hin & Hp).
  rewrite advance_no_timers in Hin by (vm_compute; reflexivity).
  vm_compute in Hin. apply list_elem_of_singleton in Hin. subst r. discriminate.
Qed.

(** ** The optimized look of the button *)

Lemma timeout_fire tm rest s : timeout (fire tm rest s) = timeout s.
Proof.
  unfold fire, run_action. destruct (action tm) as [text|]; [|reflexivity].
  unfold later. rewrite timeout_analysis.
  match goal with |- context [clearTimeout ?o ?x] =>
    destruct (clearTimeout_frame o x) as (-> & _) end.
  reflexivity.
Qed.

(** The timers left by firing [tm] when a timer [r] that the debounce
    closure does not hold comes last in the queue. *)
Lemma timers_fire_snoc tm l r s :
  timeout s <> Some (tid r) ->
  exists l', timers (fire tm (l ++ [r]) s) = l' ++ [r] /\ length l' <= length l.
Proof.
  intros Hne. unfold fire, run_action. destruct (action tm) as [text|].
  - unfold later. rewrite timers_analysis, timers_clearTimeout. cbn.
    destruct (timeout s) as [i|] eqn:Ht; cbn.
    + rewrite filter_app, filter_cons_True by congruence.
      rewrite filter_nil. eexists; split; [reflexivity | apply length_filter].
    + exists l. split; [reflexivity | lia].
  - exists l. split; [reflexivity | cbn; lia].
Qed.

Lemma run_timers_last_reset n t s l r :
  timers s = l ++ [r] -> action r = ResetButton -> deadline r = t ->
  timeout s <> Some (tid r) -> length (timers s) <= n ->
  button (ui (run_timers n t s)) = BDefault.
Proof.
  revert s l; induction n as [|n IH]; intros s l Hl Ha Hd Hne Hn.
  - rewrite Hl, length_app in Hn. simpl in Hn. lia.
  - simpl. rewrite Hl.
    destruct (pop_due_snoc t l r Hd) as [(y & l' & -> & Hlen) | [-> Hnone]].
    + destruct (timers_fire_snoc y l' r s Hne) as (l'' & Hl'' & Hlen'').
      apply (IH _ l''); try assumption.
      * now rewrite timeout_fire.
      * rewrite Hl'', length_app. rewrite Hl, length_app in Hn. simpl in *. lia.
    + rewrite run_timers_idle.
      * unfold fire. rewrite Ha. reflexivity.
      * unfold fire. rewrite Ha. exact Hnone.
Qed.

Lemma now_iter_analyzeText n text s : now (Nat.iter n (analyzeText text) s) = now s.
Proof.
  induction n as [|n IH]; [reflexivity|]. now rewrite Nat.iter_succ, now_analyzeText.
Qed.

Lemma now_dispatchEvent id s : now (dispatchEvent id s) = now s.
Proof.
  unfold dispatchEvent, input_event. cbn [heap with_dispatched].
  destruct (heap s !! id); [|reflexivity]. now rewrite now_iter_analyzeText.
Qed.

Lemma resume_frame r s :
  timers (resume r s) = timers s /\ next_timer (resume r s) = next_timer s
  /\ timeout (resume r s) = timeout s /\ now (resume r s) = now s
  /\ heap (resume r s) = heap s /\ sent (resume r s) = sent s.
Proof.
  unfold resume. destruct r as [r|]; [|repeat split; reflexivity].
  destruct (metrics r);
    match goal with |- context [updateMartinButton ?b _] => destruct b end;
    repeat split; reflexivity.
Qed.

(** C4, as the code has it.  Accepting the full optimized text turns the
    button to optimized and sets a timer, due 2000 ms later, that turns it
    back to the default look; 2000 ms after the click the button is back
    to default.  An analysis that returns no suggestions turns the button
    to optimized too, but sets no timer. *)
Theorem optimized_resets_only_after_accept_all (s : State) (id : nat) :
  reachable s ->
  currentTextarea s = Some id ->
  optimizedPrompt s <> EmptyString ->
  button (ui (acceptAllSuggestions s)) = BOptimized
  /\ (exists tm, tm ∈ timers (acceptAllSuggestions s)
                 /\ action tm = ResetButton /\ deadline tm = now s + 2000)
  /\ button (ui (advance 2000 (acceptAllSuggestions s))) = BDefault
  /\ (forall r s', result_suggestions r = [] ->
        button (ui (resume (Some r) s')) = BOptimized
        /\ timers (resume (Some r) s') = timers s').
Proof.
  intros Hr Hcur Hopt. apply reachable_Inv in Hr.
  unfold acceptAllSuggestions. rewrite Hcur.
  destruct (String.eqb_spec (optimizedPrompt s) EmptyString) as [|_]; [contradiction|].
  set (s1 := with_heap _ s).
  assert (I2 : Inv (dispatchEvent id s1))
    by (apply Inv_dispatchEvent; apply (Inv_ext _ s); try reflexivity; exact Hr).
  assert (Hnow : now (dispatchEvent id s1) = now s)
    by (rewrite now_dispatchEvent; reflexivity).
  set (s2 := dispatchEvent id s1) in *.
  split; [reflexivity|]. split; [|split].
  - eexists. split; [apply elem_of_app; right; left|].
    split; [reflexivity|]. cbn. now rewrite Hnow.
  - unfold advance. cbn [ui with_now].
    eapply run_timers_last_reset.
    + cbn. reflexivity.
    + reflexivity.
    + cbn. reflexivity.
    + cbn. intros H. apply (inv_timeout _ I2) in H. lia.
    + lia.
  - intros r s' Hnil. split; [|apply resume_frame].
    unfold resume. cbn. rewrite Hnil. destruct (metrics r); reflexivity.
Qed.

Lemma reachable_suggested_page : reachable suggested_page.
Proof. apply reachable_run, reachable_sample_page. Qed.

Lemma optimized_resets_only_after_accept_all_witness :
  button (ui (acceptAllSuggestions suggested_page)) = BOptimized
  /\ button (ui (advance 2000 (acceptAllSuggestions suggested_page))) = BDefault.
Proof.
  assert (Hcur : currentTextarea suggested_page = Some 7) by (vm_compute; reflexivity).
  assert (Hopt : optimizedPrompt suggested_page <> EmptyString) by (vm_compute; discriminate).
  pose proof (optimized_resets_only_after_accept_all suggested_page 7
                reachable_suggested_page Hcur Hopt) as (H1 & _ & H2 & _).
  split; [exact H1 | exact H2].
Defined.

(** C4 as stated fails on the analysis path: after an answer without
    suggestions the button is optimized, no timer is pending, and the
    button keeps that look however long one waits. *)
Lemma optimized_after_analysis_stays :
  button (ui no_issue_page) = BOptimized
  /\ timers no_issue_page = []
  /\ forall dt, button (ui (advance dt no_issue_page)) <> BDefault.
Proof.
  assert (Ht : timers no_issue_page = []) by (vm_compute; reflexivity).
  split; [vm_compute; reflexivity|]. split; [exact Ht|].
  intros dt. rewrite (advance_no_timers dt _ Ht). vm_compute. discriminate.
Qed.

(** ** Reading the value of an element *)

Lemma normalize_newlines_no_cr s : no_cr s = true -> normalize_newlines s = s.
Proof.
  induction s as [|c r IH]; [reflexivity|]. simpl.
  destruct (Ascii.eqb c "013"); [discriminate|]. simpl. intros H. now rewrite IH.
Qed.

Lemma no_cr_normalize_newlines_upto n s :
  String.length s <= n -> no_cr (normalize_newlines s) = true.
Proof.
  revert s; induction n as [|n IH]; intros s Hn.
  - destruct s; [reflexivity | simpl in Hn; lia].
  - destruct s as [|c r]; [reflexivity|]. simpl in Hn. simpl.
    destruct (Ascii.eqb c "013") eqn:Hc.
    + destruct r as [|d r']; [reflexivity|]. simpl in Hn.
      destruct (Ascii.eqb d "010"); simpl.
      * apply IH. lia.
      * apply (IH (String d r')). simpl. lia.
    + simpl. rewrite Hc. simpl. apply IH. lia.
Qed.

Lemma no_cr_normalize_newlines s : no_cr (normalize_newlines s) = true.
Proof. now apply (no_cr_normalize_newlines_upto (String.length s)). Qed.

Lemma normalize_newlines_idempotent s :
  normalize_newlines (normalize_newlines s) = normalize_newlines s.
Proof. apply normalize_newlines_no_cr, no_cr_normalize_newlines. Qed.

Lemma normalize_newlines_nonempty s :
  s <> EmptyString -> normalize_newlines s <> EmptyString.
Proof.
  destruct s as [|c r]; [contradiction|]. intros _. simpl.
  destruct (Ascii.eqb c "013"); [|discriminate].
  destruct r as [|d r']; [discriminate|]. destruct (Ascii.eqb d "010"); discriminate.
Qed.

Lemma get_value_set_value text e :
  get_value (set_value (Some text) e) =
  Some (if is_textarea e then normalize_newlines text else text).
Proof. unfold get_value. cbn. now destruct (is_textarea e). Qed.

(** Writing back what has been read leaves the reading as it was. *)
Lemma get_value_written_back text e :
  get_value e = Some text -> get_value (set_value (Some text) e) = Some text.
Proof.
  rewrite get_value_set_value. unfold get_value.
  destruct (is_textarea e); [|reflexivity].
  destruct (value e) as [raw|]; [|discriminate]. cbn. intros [= <-].
  now rewrite normalize_newlines_idempotent.
Qed.

Lemma get_value_of_value text e :
  value e = Some text -> exists heard, get_value e = Some heard.
Proof. intros H. unfold get_value. rewrite H. destruct (is_textarea e); cbn; eauto. Qed.

Lemma get_value_None e : value e = None -> get_value e = None.
Proof. intros H. unfold get_value. rewrite H. now destruct (is_textarea e). Qed.

(** ** Suggestion applier *)

Lemma Agree_input_event id s : Agree (input_event id s) s.
Proof.
  unfold input_event. destruct (heap s !! id); [|apply Agree_refl].
  apply Agree_iter_analyzeText.
Qed.

Lemma dispatchEvent_frame id s :
  heap (dispatchEvent id s) = heap s
  /\ suggestions (dispatchEvent id s) = suggestions s
  /\ currentTextarea (dispatchEvent id s) = currentTextarea s
  /\ optimizedPrompt (dispatchEvent id s) = optimizedPrompt s
  /\ document (dispatchEvent id s) = document s
  /\ dispatched (dispatchEvent id s) = dispatched s ++ [id].
Proof.
  unfold dispatchEvent.
  destruct (Agree_input_event id (with_dispatched (dispatched s ++ [id]) s))
    as [_ Hh Hd Hc Hs _ Ho _ _ Hdis].
  repeat split; assumption.
Qed.

(** What a successful application leaves behind. *)
Lemma applySuggestion_applies s i sg id e text :
  suggestions s !! i = Some sg ->
  currentTextarea s = Some id ->
  heap s !! id = Some e ->
  get_value e = Some text ->
  exists s', applySuggestion i s = Normal s'
    /\ suggestions s' = delete i (suggestions s)
    /\ heap s' = <[id := set_value (Some (JsString.replace text (original sg) (suggested sg))) e]> (heap s)
    /\ dispatched s' = dispatched s ++ [id]
    /\ currentTextarea s' = Some id
    /\ optimizedPrompt s' = optimizedPrompt s.
Proof.
  intros Hsg Hcur He Hv. unfold applySuggestion. rewrite Hsg, Hcur, He, Hv.
  eexists. split; [reflexivity|].
  match goal with |- context [dispatchEvent id ?s1] =>
    destruct (dispatchEvent_frame id s1) as (Hh & Hs & Hc & Ho & _ & Hd);
    set (s2 := dispatchEvent id s1) in *
  end.
  cbn in Hh, Hs, Hc, Ho, Hd.
  match goal with |- context [if ?c then showSuggestions ?s4 else closeMartinCard ?s4] =>
    assert (Hfr : suggestions s4 = delete i (suggestions s2) /\ heap s4 = heap s2
                  /\ dispatched s4 = dispatched s2 /\ currentTextarea s4 = currentTextarea s2
                  /\ optimizedPrompt s4 = optimizedPrompt s2)
      by (match goal with |- context [updateMartinButton ?b _] => destruct b end;
          repeat split; reflexivity);
    destruct c
  end;
  destruct Hfr as (F1 & F2 & F3 & F4 & F5); cbn [showSuggestions closeMartinCard
    suggestions heap dispatched currentTextarea optimizedPrompt with_ui];
  rewrite F1, F2, F3, F4, F5, Hh, Hs, Hc, Ho, Hd, Hcur; repeat split; reflexivity.
Qed.

Lemma reachable_editable_page : reachable editable_page.
Proof. apply reachable_run. unfold mixed_page. apply reachable_loaded. Qed.

Lemma reachable_edited_editable_page : reachable edited_editable_page.
Proof. apply reachable_run, reachable_editable_page. Qed.

(** C7.  The code at the failing input.  The monitored element is the
    contenteditable node that [findAndMonitorTextarea] has picked; two
    suggestions are active and index 0 is valid.  [applySuggestion(0)]
    throws, reading [replace] of an undefined value, before the splice:
    the state is as before and both suggestions are still active. *)
Theorem applySuggestion_throws_on_contenteditable :
  reachable editable_page
  /\ currentTextarea editable_page = Some 5
  /\ option_map contenteditable (heap editable_page !! 5) = Some (Some "true"%string)
  /\ option_map get_value (heap editable_page !! 5) = Some None
  /\ length (suggestions editable_page) = 2
  /\ applySuggestion 0 editable_page = Throw editable_page
  /\ suggestions (state_of (applySuggestion 0 editable_page)) = suggestions editable_page.
Proof.
  split; [exact reachable_editable_page|].
  assert (H : applySuggestion 0 editable_page = Throw editable_page)
    by (vm_compute; reflexivity).
  rewrite H. repeat split; vm_compute; reflexivity.
Qed.

(** C8.  The code at the failing input.  On the same contenteditable
    node the user has rewritten the text, so that the original text of
    suggestion 0 does not occur in it any more.  [applySuggestion(0)]
    throws: the content is unchanged, but the suggestion is not removed. *)
Theorem absent_original_on_contenteditable_not_removed :
  reachable edited_editable_page
  /\ currentTextarea edited_editable_page = Some 5
  /\ option_map content (heap edited_editable_page !! 5) = Some "repair my code please"%string
  /\ option_map original (suggestions edited_editable_page !! 0) = Some "fix"%string
  /\ ~ JsString.occurs "fix" "repair my code please"
  /\ applySuggestion 0 edited_editable_page = Throw edited_editable_page
  /\ length (suggestions (state_of (applySuggestion 0 edited_editable_page))) = 2.
Proof.
  split; [exact reachable_edited_editable_page|].
  assert (H : applySuggestion 0 edited_editable_page = Throw edited_editable_page)
    by (vm_compute; reflexivity).
  rewrite H. repeat split; try (vm_compute; reflexivity).
  apply split_at_first_None. vm_compute. reflexivity.
Qed.

(** X23.  With a monitored element whose value reads as a string,
    applying the suggestion at a valid index [i] returns normally and
    removes exactly the [i]-th entry: the entries before it keep their
    place, those after it move up by one, in the same order. *)
Theorem applySuggestion_removes_exactly (s : State) (i id : nat) (e : Element) (text : string) :
  currentTextarea s = Some id ->
  heap s !! id = Some e ->
  get_value e = Some text ->
  i < length (suggestions s) ->
  exists s', applySuggestion i s = Normal s'
    /\ suggestions s' = take i (suggestions s) ++ drop (S i) (suggestions s)
    /\ S (length (suggestions s')) = length (suggestions s)
    /\ (forall j, j < i -> suggestions s' !! j = suggestions s !! j)
    /\ (forall j, i <= j -> suggestions s' !! j = suggestions s !! S j).
Proof.
  intros Hcur He Hv Hi.
  destruct (lookup_lt_is_Some_2 (suggestions s) i Hi) as [sg Hsg].
  destruct (applySuggestion_applies s i sg id e text Hsg Hcur He Hv)
    as (s' & Hs' & Hdel & _).
  exists s'. split; [exact Hs'|]. rewrite Hdel. split; [apply delete_take_drop|].
  split; [rewrite length_delete by eauto; lia|]. split.
  - intros j Hj. now apply list_lookup_delete_lt.
  - intros j Hj. now apply list_lookup_delete_ge.
Qed.

Lemma applySuggestion_removes_exactly_witness :
  exists s', applySuggestion 0 suggested_page = Normal s'
    /\ suggestions s' = [sample_suggestion " please" ""].
Proof.
  assert (Hcur : currentTextarea suggested_page = Some 7) by (vm_compute; reflexivity).
  assert (He : heap suggested_page !! 7 =
               Some (add_listeners (plain_textarea "fix my code please")))
    by (vm_compute; reflexivity).
  assert (Hlen : 0 < length (suggestions suggested_page)) by (vm_compute; lia).
  destruct (applySuggestion_removes_exactly suggested_page 0 7 _ "fix my code please"
              Hcur He eq_refl Hlen) as (s' & H1 & H2 & _).
  exists s'. split; [exact H1|]. rewrite H2. vm_compute. reflexivity.
Defined.

(** X24.  When the original text of the suggestion does not occur in
    what the value of the monitored element reads as, applying it leaves
    the value reading as before, leaves the text content and every other
    element as they were, and still removes the suggestion from the
    active sequence. *)
Theorem applySuggestion_absent_original (s : State) (i id : nat) (e : Element)
    (text : string) (sg : Suggestion) :
  currentTextarea s = Some id ->
  heap s !! id = Some e ->
  get_value e = Some text ->
  suggestions s !! i = Some sg ->
  ~ JsString.occurs (original sg) text ->
  exists s' e', applySuggestion i s = Normal s'
    /\ heap s' = <[id := e']> (heap s)
    /\ get_value e' = Some text
    /\ content e' = content e
    /\ suggestions s' = delete i (suggestions s).
Proof.
  intros Hcur He Hv Hsg Habs.
  destruct (applySuggestion_applies s i sg id e text Hsg Hcur He Hv)
    as (s' & Hs' & Hdel & Hheap & _).
  rewrite (replace_absent _ _ _ Habs) in Hheap.
  exists s', (set_value (Some text) e). split; [exact Hs'|]. split; [exact Hheap|].
  pose proof (get_value_written_back text e Hv) as Hback.
  split; [exact Hback|]. split; [|exact Hdel].
  unfold content. cbn [is_textarea set_value textContent]. now rewrite Hback, Hv.
Qed.

Lemma applySuggestion_absent_original_witness :
  exists s' e', applySuggestion 0 edited_page = Normal s'
    /\ heap s' = <[7 := e']> (heap edited_page)
    /\ content e' = "repair my code please"%string
    /\ suggestions s' = [sample_suggestion " please" ""].
Proof.
  assert (Hcur : currentTextarea edited_page = Some 7) by (vm_compute; reflexivity).
  assert (He : heap edited_page !! 7 =
               Some (add_listeners (plain_textarea "repair my code please")))
    by (vm_compute; reflexivity).
  assert (Hsg : suggestions edited_page !! 0 = Some (sample_suggestion "fix" "repair"))
    by (vm_compute; reflexivity).
  assert (Habs : ~ JsString.occurs (original (sample_suggestion "fix" "repair"))
                   "repair my code please").
  { apply split_at_first_None. vm_compute. reflexivity. }
  destruct (applySuggestion_absent_original edited_page 0 7 _ "repair my code please" _
              Hcur He eq_refl Hsg Habs) as (s' & e' & H1 & H2 & _ & H3 & H4).
  exists s', e'. split; [exact H1|]. split; [exact H2|].
  split; [rewrite H3; reflexivity|]. rewrite H4. vm_compute. reflexivity.
Defined.

(** ** Accepting the full optimized text *)

Lemma acceptAllSuggestions_accepts s id :
  currentTextarea s = Some id ->
  optimizedPrompt s <> EmptyString ->
  heap (acceptAllSuggestions s) = alter (set_value (Some (optimizedPrompt s))) id (heap s)
  /\ dispatched (acceptAllSuggestions s) = dispatched s ++ [id]
  /\ suggestions (acceptAllSuggestions s) = suggestions s
  /\ optimizedPrompt (acceptAllSuggestions s) = optimizedPrompt s
  /\ currentTextarea (acceptAllSuggestions s) = Some id.
Proof.
  intros Hcur Hopt. unfold acceptAllSuggestions. rewrite Hcur.
  destruct (String.eqb_spec (optimizedPrompt s) EmptyString) as [|_]; [contradiction|].
  match goal with |- context [dispatchEvent id ?s1] =>
    destruct (dispatchEvent_frame id s1) as (Hh & Hs & Hc & Ho & _ & Hd)
  end.
  cbn in *. rewrite Hh, Hs, Hc, Ho, Hd, Hcur. repeat split; reflexivity.
Qed.

Lemma content_set_value text e :
  is_textarea e = true -> content (set_value (Some text) e) = normalize_newlines text.
Proof. intros H. unfold content, get_value. cbn. now rewrite H. Qed.

(** C1, as the code has it.  With no monitored element or with an empty
    optimized text, accepting all changes nothing.  Otherwise the
    optimized text is stored under the value of the monitored element,
    one synthetic input event has been dispatched on the element and the
    active suggestion sequence is as it was; when the element is a
    textarea, its content then is the optimized text with CR LF and CR
    read as LF, which is the optimized text itself when it holds no CR. *)
Theorem accept_all_replaces_content (s : State) :
  (currentTextarea s = None \/ optimizedPrompt s = EmptyString ->
     acceptAllSuggestions s = s)
  /\ (forall id e,
        currentTextarea s = Some id ->
        heap s !! id = Some e ->
        optimizedPrompt s <> EmptyString ->
        exists e', heap (acceptAllSuggestions s) !! id = Some e'
          /\ value e' = Some (optimizedPrompt s)
          /\ (is_textarea e = true ->
                content e' = normalize_newlines (optimizedPrompt s)
                /\ (no_cr (optimizedPrompt s) = true -> content e' = optimizedPrompt s))
          /\ dispatched (acceptAllSuggestions s) = dispatched s ++ [id]
          /\ suggestions (acceptAllSuggestions s) = suggestions s).
Proof.
  split.
  - intros [Hcur | Hopt]; unfold acceptAllSuggestions.
    + now rewrite Hcur.
    + destruct (currentTextarea s); [|reflexivity]. now rewrite Hopt.
  - intros id e Hcur He Hopt.
    destruct (acceptAllSuggestions_accepts s id Hcur Hopt) as (Hh & Hd & Hs & _).
    exists (set_value (Some (optimizedPrompt s)) e).
    split; [now rewrite Hh, lookup_alter_eq, He|]. split; [reflexivity|].
    split; [|split; assumption].
    intros Hta. rewrite (content_set_value _ e Hta). split; [reflexivity|].
    apply normalize_newlines_no_cr.
Qed.

Lemma accept_all_replaces_content_witness :
  acceptAllSuggestions sample_page = sample_page
  /\ option_map content (heap (acceptAllSuggestions suggested_page) !! 7)
     = Some "repair my code"%string
  /\ dispatched (acceptAllSuggestions suggested_page) = [7]
  /\ length (suggestions (acceptAllSuggestions suggested_page)) = 2.
Proof.
  assert (Hcur : currentTextarea suggested_page = Some 7) by (vm_compute; reflexivity).
  assert (He : heap suggested_page !! 7 =
               Some (add_listeners (plain_textarea "fix my code please")))
    by (vm_compute; reflexivity).
  assert (Hopt : optimizedPrompt suggested_page = "repair my code"%string)
    by (vm_compute; reflexivity).
  assert (Hne : optimizedPrompt suggested_page <> EmptyString)
    by (rewrite Hopt; discriminate).
  assert (Hnone : optimizedPrompt sample_page = EmptyString) by (vm_compute; reflexivity).
  split.
  { pose proof (accept_all_replaces_content sample_page) as [H0 _].
    exact (H0 (or_intror Hnone)). }
  pose proof (accept_all_replaces_content suggested_page) as [_ H].
  destruct (H 7 _ Hcur He Hne) as (e' & He' & _ & Hc & Hd & Hs).
  destruct (Hc eq_refl) as [_ Hc'].
  rewrite Hopt in Hc'. specialize (Hc' eq_refl).
  split; [now rewrite He', <- Hc'|]. split.
  - rewrite Hd. vm_compute. reflexivity.
  - rewrite Hs. vm_compute. reflexivity.
Defined.

(** C1 as stated fails: after accepting all on a textarea, the two
    suggestions of the current result are still the active sequence. *)
Lemma accept_all_keeps_suggestions :
  let s' := acceptAllSuggestions suggested_page in
  length (suggestions suggested_page) = 2
  /\ ~ (option_map content (heap s' !! 7) = Some (optimizedPrompt suggested_page)
        /\ dispatched s' = dispatched suggested_page ++ [7]
        /\ suggestions s' = []).
Proof.
  split; [vm_compute; reflexivity|].
  intros (_ & _ & H). vm_compute in H. discriminate.
Qed.



(** ** Revalidation of the monitored element *)

(** C9, as the code has it.  The appliers test only that a reference is
    held: with none they do nothing, and with one they write to the
    element whether or not it is attached to the document.  Attachment is
    looked at by the observer callback alone, which keeps an attached
    reference and otherwise runs the discovery again. *)
Theorem appliers_check_reference_only (s : State) :
  (currentTextarea s = None ->
     acceptAllSuggestions s = s /\ forall i, applySuggestion i s = Normal s)
  /\ (forall id e, currentTextarea s = Some id -> heap s !! id = Some e ->
        attached id s = false ->
        (optimizedPrompt s <> EmptyString ->
           option_map value (heap (acceptAllSuggestions s) !! id)
           = Some (Some (optimizedPrompt s)))
        /\ (forall i sg text, suggestions s !! i = Some sg -> get_value e = Some text ->
              option_map value (heap (state_of (applySuggestion i s)) !! id)
              = Some (Some (JsString.replace text (original sg) (suggested sg)))))
  /\ (forall id, currentTextarea s = Some id -> attached id s = true ->
        observer_callback s = s)
  /\ (currentTextarea s = None
      \/ (exists id, currentTextarea s = Some id /\ attached id s = false) ->
      observer_callback s = snd (findAndMonitorTextarea s)).
Proof.
  split; [|split; [|split]].
  - intros Hcur. unfold acceptAllSuggestions, applySuggestion. rewrite Hcur.
    split; [reflexivity|]. intros i. now destruct (suggestions s !! i).
  - intros id e Hcur He _. split.
    + intros Hopt.
      destruct (acceptAllSuggestions_accepts s id Hcur Hopt) as (-> & _).
      now rewrite lookup_alter_eq, He.
    + intros i sg text Hsg Hv.
      destruct (applySuggestion_applies s i sg id e text Hsg Hcur He Hv)
        as (s' & Hs' & _ & Hheap & _).
      rewrite Hs'. cbn [state_of]. now rewrite Hheap, lookup_insert_eq.
  - intros id Hcur Hat. unfold observer_callback. now rewrite Hcur, Hat.
  - intros [Hcur | (id & Hcur & Hat)]; unfold observer_callback; now rewrite Hcur, ?Hat.
Qed.

Lemma appliers_check_reference_only_witness :
  attached 7 detached_page = false
  /\ option_map value (heap (acceptAllSuggestions detached_page) !! 7)
     = Some (Some (optimizedPrompt detached_page)).
Proof.
  assert (Hcur : currentTextarea detached_page = Some 7) by (vm_compute; reflexivity).
  assert (He : heap detached_page !! 7 =
               Some (add_listeners (plain_textarea "fix my code please")))
    by (vm_compute; reflexivity).
  assert (Hat : attached 7 detached_page = false) by (vm_compute; reflexivity).
  assert (Hopt : optimizedPrompt detached_page <> EmptyString) by (vm_compute; discriminate).
  split; [exact Hat|].
  pose proof (appliers_check_reference_only detached_page) as (_ & H & _).
  specialize (H 7 _ Hcur He Hat). destruct H as [H _]. exact (H Hopt).
Defined.

(** C9 as stated fails: the element has left the document, the observer
    has run, and accepting all still rewrites its content. *)
Lemma detached_element_is_mutated :
  currentTextarea detached_page = Some 7
  /\ attached 7 detached_page = false
  /\ option_map value (heap detached_page !! 7) = Some (Some "fix my code please"%string)
  /\ option_map value (heap (acceptAllSuggestions detached_page) !! 7)
     = Some (Some "repair my code"%string)
  /\ option_map value (heap (state_of (applySuggestion 0 detached_page)) !! 7)
     = Some (Some "repair my code please"%string).
Proof. vm_compute. repeat split; reflexivity. Qed.

(** * Further properties of the script *)

(** ** Literal replacement *)

Lemma split_at_first_leftmost pat s pre post :
  JsString.split_at_first pat s = Some (pre, post) ->
  forall pre' post',
    s = String.append pre' (String.append pat post') ->
    String.length pre <= String.length pre'.
Proof.
  revert pre; induction s as [|c s IH]; intros pre; simpl.
  - destruct (JsString.strip_prefix pat "") eqn:E; [|discriminate].
    intros [= <- <-] pre' post' _. simpl. lia.
  - destruct (JsString.strip_prefix pat (String c s)) eqn:E.
    + intros [= <- <-] pre' post' _. simpl. lia.
    + destruct (JsString.split_at_first pat s) as [[p q]|] eqn:E'; [|discriminate].
      intros [= <- <-] pre' post' H. destruct pre' as [|c' pre'].
      * rewrite append_empty_l in H. apply strip_prefix_Some in H. congruence.
      * rewrite append_String in H. injection H as _ H. simpl.
        specialize (IH p eq_refl pre' post' H). lia.
Qed.

Lemma GetSubstitution_no_dollar matched pre post repl :
  no_dollar repl = true -> JsString.GetSubstitution matched pre post repl = repl.
Proof.
  induction repl as [|c r IH]; [reflexivity|]. simpl.
  destruct (Ascii.eqb c "$"); [discriminate|]. simpl. intros H. now rewrite IH.
Qed.

(** X1.  When the pattern occurs in the text and the replacement holds no
    dollar sign, [replace] puts the replacement, as it is, in the place of
    the leftmost occurrence of the pattern and of no other. *)
Theorem replace_leftmost_occurrence (s pat repl : string) :
  JsString.occurs pat s ->
  no_dollar repl = true ->
  exists pre post,
    s = String.append pre (String.append pat post)
    /\ (forall pre' post', s = String.append pre' (String.append pat post') ->
          String.length pre <= String.length pre')
    /\ JsString.replace s pat repl = String.append pre (String.append repl post).
Proof.
  intros Hocc Hrepl. unfold JsString.replace.
  destruct (JsString.split_at_first pat s) as [[pre post]|] eqn:E.
  - exists pre, post. split; [now apply split_at_first_Some|]. split.
    + now apply (split_at_first_leftmost pat s pre post).
    + now rewrite GetSubstitution_no_dollar.
  - apply split_at_first_None in E. contradiction.
Qed.

Lemma replace_leftmost_occurrence_witness :
  exists pre post,
    "fix my code, my friend"%string = String.append pre (String.append "my" post)
    /\ (forall pre' post',
          "fix my code, my friend"%string = String.append pre' (String.append "my" post') ->
          String.length pre <= String.length pre')
    /\ JsString.replace "fix my code, my friend" "my" "the"
       = String.append pre (String.append "the" post).
Proof.
  apply (replace_leftmost_occurrence "fix my code, my friend" "my" "the").
  - exists "fix "%string, " code, my friend"%string. reflexivity.
  - reflexivity.
Defined.

(** ** Element discovery *)

Lemma find_first {A} (f : A -> bool) l x :
  List.find f l = Some x ->
  exists l1 l2, l = l1 ++ x :: l2 /\ f x = true /\ forall y, y ∈ l1 -> f y = false.
Proof.
  induction l as [|a l IH]; simpl; [discriminate|].
  destruct (f a) eqn:Ha.
  - intros [= <-]. exists [], l. split; [reflexivity|]. split; [exact Ha|].
    intros y Hy. inversion Hy.
  - intros H. destruct (IH H) as (l1 & l2 & -> & Hx & Hbefore).
    exists (a :: l1), l2. split; [reflexivity|]. split; [exact Hx|].
    intros y Hy. apply elem_of_cons in Hy as [->|Hy]; [exact Ha | now apply Hbefore].
Qed.

Lemma find_nothing {A} (f : A -> bool) l :
  List.find f l = None <-> forall y, y ∈ l -> f y = false.
Proof.
  induction l as [|a l IH]; simpl.
  - split; [intros _ y Hy; inversion Hy | reflexivity].
  - destruct (f a) eqn:Ha.
    + split; [discriminate|]. intros H. specialize (H a ltac:(left)). congruence.
    + rewrite IH. split.
      * intros H y Hy. apply elem_of_cons in Hy as [->|Hy]; [exact Ha | now apply H].
      * intros H y Hy. apply H. now right.
Qed.

Lemma querySelector_Some sel s id :
  querySelector sel s = Some id -> first_in_document sel id s.
Proof.
  unfold querySelector. intros H. apply find_first in H as (l1 & l2 & Hdoc & Hm & Hbefore).
  destruct (heap s !! id) as [e|] eqn:He; [|discriminate].
  exists l1, l2, e. split; [exact Hdoc|]. split; [exact He|]. split; [exact Hm|].
  intros id' e' Hin He'. specialize (Hbefore id' Hin). now rewrite He' in Hbefore.
Qed.

Lemma querySelector_None sel s :
  querySelector sel s = None <->
  forall id e, id ∈ document s -> heap s !! id = Some e -> matches sel e = false.
Proof.
  unfold querySelector. rewrite find_nothing. split.
  - intros H id e Hin He. specialize (H id Hin). now rewrite He in H.
  - intros H id Hin. destruct (heap s !! id) as [e|] eqn:He; [|reflexivity].
    now apply (H id).
Qed.

Lemma first_match_Some sels s id :
  first_match sels s = Some id ->
  exists k sel, sels !! k = Some sel /\ querySelector sel s = Some id
    /\ forall j sel', j < k -> sels !! j = Some sel' -> querySelector sel' s = None.
Proof.
  induction sels as [|sel sels IH]; simpl; [discriminate|].
  destruct (querySelector sel s) as [id'|] eqn:E.
  - intros [= <-]. exists 0, sel. split; [reflexivity|]. split; [exact E|]. intros; lia.
  - intros H. destruct (IH H) as (k & sel0 & Hk & Hq & Hearlier).
    exists (S k), sel0. split; [exact Hk|]. split; [exact Hq|].
    intros [|j] sel' Hj Hsel'.
    + injection Hsel' as <-. exact E.
    + apply (Hearlier j); [lia | exact Hsel'].
Qed.

Lemma first_match_None sels s :
  first_match sels s = None <-> forall sel, sel ∈ sels -> querySelector sel s = None.
Proof.
  induction sels as [|sel sels IH]; simpl.
  - split; [intros _ sel' H; inversion H | reflexivity].
  - destruct (querySelector sel s) as [id|] eqn:E.
    + split; [discriminate|]. intros H. specialize (H sel ltac:(left)). congruence.
    + rewrite IH. split.
      * intros H sel' Hin. apply elem_of_cons in Hin as [->|Hin]; [exact E | now apply H].
      * intros H sel' Hin. apply H. now right.
Qed.

Lemma selector_matches_candidate sel e :
  sel ∈ selectors -> matches sel e = true -> candidate e = true.
Proof.
  intros Hin Hm. unfold selectors in Hin. unfold candidate.
  repeat (apply elem_of_cons in Hin as [->|Hin]);
    try (simpl in Hm; apply andb_true_iff in Hm as [-> _]; reflexivity).
  - simpl in Hm. rewrite Hm. apply orb_true_r.
  - simpl in Hm. now rewrite Hm.
  - inversion Hin.
Qed.

Lemma candidate_matches e :
  candidate e = true ->
  matches AnyTextarea e = true \/ matches (ContentEditable "true") e = true.
Proof. unfold candidate. intros H. apply orb_true_iff in H. exact H. Qed.

Lemma first_match_candidate s id :
  first_match selectors s = Some id ->
  id ∈ document s /\ exists e, heap s !! id = Some e /\ candidate e = true.
Proof.
  intros H. apply first_match_Some in H as (k & sel & Hk & Hq & _).
  apply querySelector_Some in Hq as (l1 & l2 & e & Hdoc & He & Hm & _).
  split.
  - rewrite Hdoc. apply elem_of_app. right. left.
  - exists e. split; [exact He|].
    apply (selector_matches_candidate sel); [|exact Hm].
    apply list_elem_of_lookup. now exists k.
Qed.

Lemma first_match_no_candidate s :
  first_match selectors s = None <->
  forall id e, id ∈ document s -> heap s !! id = Some e -> candidate e = false.
Proof.
  rewrite first_match_None. split.
  - intros H id e Hin He. destruct (candidate e) eqn:Hc; [|reflexivity].
    apply candidate_matches in Hc as [Hc|Hc].
    + assert (Hq : querySelector AnyTextarea s = None)
        by (apply H; unfold selectors; repeat (first [left | right])).
      rewrite querySelector_None in Hq. specialize (Hq id e Hin He). congruence.
    + assert (Hq : querySelector (ContentEditable "true") s = None)
        by (apply H; unfold selectors; do 5 right; left).
      rewrite querySelector_None in Hq. specialize (Hq id e Hin He). congruence.
  - intros H sel Hsel. apply querySelector_None. intros id e Hin He.
    destruct (matches sel e) eqn:Hm; [|reflexivity].
    apply (selector_matches_candidate sel e Hsel) in Hm.
    specialize (H id e Hin He). congruence.
Qed.

Lemma findAndMonitorTextarea_false s :
  fst (findAndMonitorTextarea s) = false -> snd (findAndMonitorTextarea s) = s.
Proof.
  unfold findAndMonitorTextarea. destruct (first_match selectors s); [discriminate|].
  reflexivity.
Qed.

Lemma findAndMonitorTextarea_true s :
  fst (findAndMonitorTextarea s) = true ->
  exists id e,
    currentTextarea (snd (findAndMonitorTextarea s)) = Some id
    /\ id ∈ document s /\ heap s !! id = Some e /\ candidate e = true
    /\ heap (snd (findAndMonitorTextarea s)) = <[id := add_listeners e]> (heap s)
    /\ document (snd (findAndMonitorTextarea s)) = document s.
Proof.
  unfold findAndMonitorTextarea.
  destruct (first_match selectors s) as [id|] eqn:E; cbn [fst snd]; [|discriminate].
  intros _. destruct (first_match_candidate s id E) as (Hin & e & He & Hc).
  exists id, e. repeat split; try assumption.
  cbn. apply map_eq. intros j. rewrite lookup_alter, lookup_insert.
  destruct (decide (id = j)) as [<-|]; [now rewrite He | reflexivity].
Qed.

(** X2.  [findAndMonitorTextarea] answers false, and then changes nothing,
    exactly when the document holds neither a textarea nor a node with
    [contenteditable="true"].  When it answers true, the element it now
    monitors is such an element of the document, this element has got one
    more input and one more focus listener, and no other element has
    changed. *)
Theorem findAndMonitorTextarea_outcome (s : State) :
  (fst (findAndMonitorTextarea s) = false <->
     forall id e, id ∈ document s -> heap s !! id = Some e -> candidate e = false)
  /\ (fst (findAndMonitorTextarea s) = false -> snd (findAndMonitorTextarea s) = s)
  /\ (fst (findAndMonitorTextarea s) = true ->
      exists id e,
        currentTextarea (snd (findAndMonitorTextarea s)) = Some id
        /\ id ∈ document s /\ heap s !! id = Some e /\ candidate e = true
        /\ heap (snd (findAndMonitorTextarea s)) = <[id := add_listeners e]> (heap s)
        /\ document (snd (findAndMonitorTextarea s)) = document s).
Proof.
  split; [|split; [apply findAndMonitorTextarea_false | apply findAndMonitorTextarea_true]].
  rewrite <- first_match_no_candidate. unfold findAndMonitorTextarea.
  destruct (first_match selectors s) as [id|]; cbn [fst].
  - split; discriminate.
  - split; reflexivity.
Qed.

(** X3.  The selectors are tried in their order, each over the whole
    document: the element found is the first in document order that its
    selector matches, and no element of the document is matched by a
    selector that comes earlier in the list. *)
Theorem discovery_follows_selector_order (s : State) (id : nat) :
  first_match selectors s = Some id ->
  exists k sel,
    selectors !! k = Some sel
    /\ first_in_document sel id s
    /\ forall j sel' id' e',
         j < k -> selectors !! j = Some sel' ->
         id' ∈ document s -> heap s !! id' = Some e' -> matches sel' e' = false.
Proof.
  intros H. apply first_match_Some in H as (k & sel & Hk & Hq & Hearlier).
  exists k, sel. split; [exact Hk|]. split; [now apply querySelector_Some|].
  intros j sel' id' e' Hj Hsel' Hin He'.
  specialize (Hearlier j sel' Hj Hsel'). rewrite querySelector_None in Hearlier.
  now apply (Hearlier id' e').
Qed.

Lemma discovery_follows_selector_order_witness :
  first_match selectors mixed_page = Some 5
  /\ exists k sel,
       selectors !! k = Some sel
       /\ first_in_document sel 5 mixed_page
       /\ forall j sel' id' e',
            j < k -> selectors !! j = Some sel' ->
            id' ∈ document mixed_page -> heap mixed_page !! id' = Some e' ->
            matches sel' e' = false.
Proof.
  assert (H : first_match selectors mixed_page = Some 5) by (vm_compute; reflexivity).
  split; [exact H|]. exact (discovery_follows_selector_order mixed_page 5 H).
Defined.

Lemma findAndMonitorTextarea_outcome_witness :
  exists id e,
    currentTextarea (snd (findAndMonitorTextarea mixed_page)) = Some id
    /\ id ∈ document mixed_page /\ heap mixed_page !! id = Some e /\ candidate e = true
    /\ heap (snd (findAndMonitorTextarea mixed_page)) = <[id := add_listeners e]> (heap mixed_page)
    /\ document (snd (findAndMonitorTextarea mixed_page)) = document mixed_page.
Proof.
  pose proof (findAndMonitorTextarea_outcome mixed_page) as (_ & _ & H).
  apply H. vm_compute. reflexivity.
Defined.

(** ** The observer callback *)

Lemma attached_true id s : attached id s = true <-> id ∈ document s.
Proof. unfold attached. apply bool_decide_eq_true. Qed.

Lemma observer_callback_found s id :
  first_match selectors s = Some id ->
  observer_callback (snd (findAndMonitorTextarea s)) = snd (findAndMonitorTextarea s).
Proof.
  intros H. destruct (first_match_candidate s id H) as (Hin & _).
  unfold findAndMonitorTextarea. rewrite H. cbn [snd].
  unfold observer_callback. cbn [currentTextarea with_heap with_page with_currentTextarea].
  assert (Hat : attached id (with_heap (alter add_listeners id (heap s))
                               (with_currentTextarea (Some id) s)) = true)
    by (apply attached_true; exact Hin).
  now rewrite Hat.
Qed.

(** X4.  Running the observer callback twice in a row is the same as
    running it once: a second notification without a change of the
    document attaches no further listener and moves no reference. *)
Theorem observer_callback_idempotent (s : State) :
  observer_callback (observer_callback s) = observer_callback s.
Proof.
  assert (Hfind : observer_callback (snd (findAndMonitorTextarea s))
                  = snd (findAndMonitorTextarea s)).
  { destruct (first_match selectors s) as [id|] eqn:E.
    - now apply (observer_callback_found s id).
    - unfold findAndMonitorTextarea. rewrite E. cbn [snd].
      unfold observer_callback.
      destruct (currentTextarea s) as [id|] eqn:Hcur.
      + destruct (attached id s); [reflexivity|].
        unfold findAndMonitorTextarea. now rewrite E.
      + unfold findAndMonitorTextarea. now rewrite E. }
  unfold observer_callback at 2 3.
  destruct (currentTextarea s) as [id|] eqn:Hcur; [|exact Hfind].
  destruct (attached id s) eqn:Hat; [|exact Hfind].
  unfold observer_callback. now rewrite Hcur, Hat.
Qed.

(** X5.  After the observer callback has run, the monitored element is
    attached to the document whenever the document holds a textarea or a
    node with [contenteditable="true"]; the document itself is as before. *)
Theorem observer_callback_reattaches (s : State) (id : nat) (e : Element) :
  id ∈ document s ->
  heap s !! id = Some e ->
  candidate e = true ->
  document (observer_callback s) = document s
  /\ exists id', currentTextarea (observer_callback s) = Some id'
                 /\ attached id' (observer_callback s) = true.
Proof.
  intros Hin He Hc.
  assert (Hfound : exists id', first_match selectors s = Some id').
  { destruct (first_match selectors s) as [id'|] eqn:E; [now exists id'|].
    rewrite first_match_no_candidate in E. specialize (E id e Hin He). congruence. }
  destruct Hfound as (id' & Hfound).
  destruct (first_match_candidate s id' Hfound) as (Hin' & _).
  assert (Hres : document (snd (findAndMonitorTextarea s)) = document s
                 /\ exists id'', currentTextarea (snd (findAndMonitorTextarea s)) = Some id''
                      /\ attached id'' (snd (findAndMonitorTextarea s)) = true).
  { unfold findAndMonitorTextarea. rewrite Hfound. cbn [snd]. split; [reflexivity|].
    exists id'. split; [reflexivity|]. apply attached_true. exact Hin'. }
  unfold observer_callback. destruct (currentTextarea s) as [cur|] eqn:Hcur; [|exact Hres].
  destruct (attached cur s) eqn:Hat; [|exact Hres].
  split; [reflexivity|]. exists cur. split; [exact Hcur | exact Hat].
Qed.

Lemma observer_callback_reattaches_witness :
  document (observer_callback mixed_page) = document mixed_page
  /\ exists id', currentTextarea (observer_callback mixed_page) = Some id'
                 /\ attached id' (observer_callback mixed_page) = true.
Proof.
  apply (observer_callback_reattaches mixed_page 3 bare_textarea).
  - vm_compute. left.
  - vm_compute. reflexivity.
  - reflexivity.
Defined.

(** ** Reasoning over all reachable states *)

Lemma run_snoc evs ev s : run (evs ++ [ev]) s = step ev (run evs s).
Proof. unfold run. now rewrite foldl_app. Qed.

Lemma reachable_induction (P : State -> Prop) :
  (forall host h doc, P (loaded host h doc)) ->
  (forall s ev, reachable s -> P s -> P (step ev s)) ->
  forall s, reachable s -> P s.
Proof.
  intros Hbase Hstep s (host & h & doc & evs & ->).
  induction evs as [|ev evs IH] using rev_ind; [apply Hbase|].
  rewrite run_snoc. apply Hstep; [|exact IH].
  apply reachable_run, reachable_loaded.
Qed.

(** ** What the handlers leave alone *)

Lemma Agree_focus_event id s : Agree (focus_event id s) s.
Proof.
  unfold focus_event. destruct (heap s !! id) as [e|]; [|apply Agree_refl].
  induction (focus_listeners e) as [|n IH]; [apply Agree_refl|].
  rewrite Nat.iter_succ. unfold focus_listener at 1.
  destruct (JsString.longer_than 10 (text_of e)); [|exact IH].
  eapply Agree_trans; [apply Agree_analyzeText | exact IH].
Qed.

Lemma Quiet_refl s : Quiet s s.
Proof. constructor; reflexivity. Qed.

Lemma Quiet_trans a b c : Quiet a b -> Quiet b c -> Quiet a c.
Proof. intros [] []; constructor; congruence. Qed.

Lemma Agree_Quiet a b : Agree a b -> Quiet a b.
Proof. intros []; constructor; assumption. Qed.

Lemma Quiet_dispatchEvent id s : Quiet (dispatchEvent id s) s.
Proof.
  unfold dispatchEvent.
  eapply Quiet_trans; [apply Agree_Quiet, Agree_input_event|]. constructor; reflexivity.
Qed.

Lemma Quiet_updateMartinButton b s : Quiet (updateMartinButton b s) s.
Proof. apply Agree_Quiet, Agree_updateMartinButton. Qed.

Lemma Quiet_button_click s : Quiet (button_click s) s.
Proof.
  unfold button_click. destruct (_ || _); [constructor; reflexivity|].
  destruct (currentTextarea s) as [id|]; [|apply Quiet_refl].
  destruct (heap s !! id) as [e|]; [|apply Quiet_refl].
  destruct (JsString.longer_than 10 (text_of e)); [|apply Quiet_refl].
  apply Agree_Quiet, Agree_analyzeText.
Qed.

Lemma Quiet_applySuggestion i s : Quiet (state_of (applySuggestion i s)) s.
Proof.
  unfold applySuggestion.
  destruct (suggestions s !! i) as [sg|]; [|apply Quiet_refl].
  destruct (currentTextarea s) as [id|]; [|apply Quiet_refl].
  destruct (heap s !! id) as [e|]; [|apply Quiet_refl].
  destruct (get_value e) as [text|]; [|apply Quiet_refl].
  cbn [state_of].
  match goal with |- context [dispatchEvent id ?s1] =>
    pose proof (Quiet_dispatchEvent id s1) as Hq; set (s2 := dispatchEvent id s1) in *
  end.
  match goal with |- Quiet (if ?c then showSuggestions ?s4 else closeMartinCard ?s4) _ =>
    assert (H4 : Quiet s4 s);
    [| destruct c; (eapply Quiet_trans; [|exact H4]); constructor; reflexivity]
  end.
  destruct Hq as [H1 H2 H3 H4].
  match goal with |- context [updateMartinButton ?b _] => destruct b end;
    constructor; cbn; assumption.
Qed.

Lemma Quiet_acceptAllSuggestions s : Quiet (acceptAllSuggestions s) s.
Proof.
  unfold acceptAllSuggestions.
  destruct (currentTextarea s) as [id|]; [|apply Quiet_refl].
  destruct (String.eqb _ _); [apply Quiet_refl|].
  match goal with |- context [dispatchEvent id ?s1] =>
    pose proof (Quiet_dispatchEvent id s1) as Hq; set (s2 := dispatchEvent id s1) in *
  end.
  destruct Hq as [H1 H2 H3 H4]. constructor; cbn; assumption.
Qed.

Lemma Quiet_showOptimizedPrompt s : Quiet (state_of (showOptimizedPrompt s)) s.
Proof.
  unfold showOptimizedPrompt.
  destruct (currentTextarea s) as [id|]; [|apply Quiet_refl].
  destruct (heap s !! id); [constructor; reflexivity | apply Quiet_refl].
Qed.

Lemma Quiet_observer_callback s : Quiet (observer_callback s) s.
Proof.
  assert (H : Quiet (snd (findAndMonitorTextarea s)) s).
  { unfold findAndMonitorTextarea.
    destruct (first_match selectors s); [constructor; reflexivity | apply Quiet_refl]. }
  unfold observer_callback. destruct (currentTextarea s) as [id|]; [|exact H].
  destruct (attached id s); [apply Quiet_refl | exact H].
Qed.

Lemma Quiet_step ev s : user_or_page ev -> Quiet (step ev s) s.
Proof.
  destruct ev; cbn [user_or_page step]; intros H; try contradiction.
  - unfold user_types. eapply Quiet_trans; [apply Agree_Quiet, Agree_input_event|].
    constructor; reflexivity.
  - apply Agree_Quiet, Agree_focus_event.
  - apply Quiet_button_click.
  - apply Quiet_applySuggestion.
  - apply Quiet_acceptAllSuggestions.
  - apply Quiet_showOptimizedPrompt.
  - unfold replaceWithOptimized.
    eapply Quiet_trans; [|apply Quiet_acceptAllSuggestions]. constructor; reflexivity.
  - constructor; reflexivity.
  - constructor; reflexivity.
  - unfold page_changes. eapply Quiet_trans; [apply Quiet_observer_callback|].
    constructor; reflexivity.
Qed.

Lemma shorter_than_false_length n text :
  JsString.shorter_than n text = false -> n <= String.length text.
Proof.
  destruct text as [|c r]; [discriminate|]. unfold JsString.shorter_than.
  intros H. now apply Nat.ltb_ge in H.
Qed.

Lemma hostname_resume r s : hostname (resume r s) = hostname s.
Proof.
  unfold resume. destruct r as [r|]; [|reflexivity].
  destruct (metrics r);
    match goal with |- context [updateMartinButton ?b _] => destruct b end; reflexivity.
Qed.

Lemma hostname_step ev s : reachable s -> hostname (step ev s) = hostname s.
Proof.
  intros Hr. destruct ev; try (apply Quiet_step; exact I).
  - cbn [step]. pose proof (advance_agree dt s (reachable_Inv s Hr)) as H.
    destruct (due_later (now s + dt) (timers s)) as [text|].
    + rewrite (agree_hostname _ _ H), analysis_unfold.
      destruct (_ || _); reflexivity.
    + apply H.
  - cbn [step]. unfold answer. destruct (outstanding s !! n); [|reflexivity].
    now rewrite hostname_resume.
Qed.

Lemma event_kinds ev :
  user_or_page ev \/ (exists dt, ev = Elapse dt) \/ (exists n resp, ev = Answer n resp).
Proof. destruct ev; cbn; eauto. Qed.

Lemma sent_advance dt s :
  reachable s ->
  sent (advance dt s) =
  match due_later (now s + dt) (timers s) with
  | Some text =>
      if isAnalyzing s || JsString.shorter_than 10 text then sent s
      else sent s ++ [request_for text s]
  | None => sent s
  end.
Proof.
  intros Hr. pose proof (advance_agree dt s (reachable_Inv s Hr)) as H.
  rewrite (agree_sent _ _ H).
  destruct (due_later (now s + dt) (timers s)); [apply sent_analysis | reflexivity].
Qed.

Lemma sent_answer n resp s : sent (answer n resp s) = sent s.
Proof.
  unfold answer. destruct (outstanding s !! n); [|reflexivity].
  match goal with |- sent (resume ?r ?x) = _ =>
    destruct (resume_frame r x) as (_ & _ & _ & _ & _ & ->) end.
  reflexivity.
Qed.

(** X6.  Requests are issued by the debounce timer alone.  No keystroke,
    click, focus, page change or answer sends anything; the passing of
    time sends at most one request, and only when no call is in flight
    and the pending debounced text, by then due, has at least 10
    characters; earlier requests are never altered. *)
Theorem requests_come_from_the_timer (s : State) (ev : Event) :
  reachable s ->
  sent (step ev s) = sent s
  \/ exists dt text,
       ev = Elapse dt
       /\ isAnalyzing s = false
       /\ due_later (now s + dt) (timers s) = Some text
       /\ 10 <= String.length text
       /\ sent (step ev s) = sent s ++ [request_for text s].
Proof.
  intros Hr. destruct ev; try (left; apply Quiet_step; exact I).
  - cbn [step]. rewrite (sent_advance dt s Hr).
    destruct (due_later (now s + dt) (timers s)) as [text|] eqn:Hdue; [|left; reflexivity].
    destruct (isAnalyzing s) eqn:Ha; [left; reflexivity|]. cbn [orb].
    destruct (JsString.shorter_than 10 text) eqn:Hs; [left; reflexivity|].
    right. exists dt, text. split; [reflexivity|]. split; [reflexivity|].
    split; [exact Hdue|]. split; [now apply shorter_than_false_length | reflexivity].
  - left. apply sent_answer.
Qed.

Lemma requests_come_from_the_timer_witness :
  sent (step ClickAcceptAll suggested_page) = sent suggested_page
  \/ exists dt text,
       ClickAcceptAll = Elapse dt
       /\ isAnalyzing suggested_page = false
       /\ due_later (now suggested_page + dt) (timers suggested_page) = Some text
       /\ 10 <= String.length text
       /\ sent (step ClickAcceptAll suggested_page)
          = sent suggested_page ++ [request_for text suggested_page].
Proof.
  exact (requests_come_from_the_timer suggested_page ClickAcceptAll reachable_suggested_page).
Defined.

(** X7.  Every request the script has ever sent carries a prompt of at
    least 10 characters, the target model of the page's host, the domain
    [code_generation] and the aggressive option. *)
Theorem every_request_is_well_formed (s : State) :
  reachable s ->
  Forall (fun r => 10 <= String.length (prompt r)
                   /\ target_model r = detectPlatform s
                   /\ domain r = "code_generation"%string
                   /\ aggressive_optimization r = true) (sent s).
Proof.
  revert s. apply reachable_induction.
  - intros host h doc. constructor.
  - intros s ev Hr IH.
    assert (Hd : detectPlatform (step ev s) = detectPlatform s)
      by (unfold detectPlatform; now rewrite hostname_step).
    rewrite Hd.
    destruct (event_kinds ev) as [Hq | [(dt & ->) | (n & resp & ->)]].
    + now rewrite (quiet_sent _ _ (Quiet_step ev s Hq)).
    + cbn [step]. rewrite (sent_advance dt s Hr).
      destruct (due_later (now s + dt) (timers s)) as [text|]; [|exact IH].
      destruct (isAnalyzing s); [exact IH|]. cbn [orb].
      destruct (JsString.shorter_than 10 text) eqn:Hs; [exact IH|].
      apply Forall_app. split; [exact IH|].
      constructor; [|constructor].
      split; [now apply shorter_than_false_length|]. repeat split; reflexivity.
    + cbn [step]. now rewrite sent_answer.
Qed.

Lemma every_request_is_well_formed_witness :
  Forall (fun r => 10 <= String.length (prompt r)
                   /\ target_model r = detectPlatform suggested_page
                   /\ domain r = "code_generation"%string
                   /\ aggressive_optimization r = true) (sent suggested_page).
Proof. exact (every_request_is_well_formed suggested_page reachable_suggested_page). Defined.

(** ** Pending debounced calls *)

(** X8.  In every state the script reaches at most one debounced call is
    pending, and it is the one whose timer id the debounce closure holds,
    so that the next invocation cancels it. *)
Theorem one_pending_debounced_call (s : State) :
  reachable s ->
  length (laters (timers s)) <= 1
  /\ forall tm, tm ∈ timers s -> is_later tm = true ->
       timeout s = Some (tid tm)
       /\ laters (timers (clearTimeout (timeout s) s)) = [].
Proof.
  intros Hr. apply reachable_Inv in Hr. split; [apply Hr|].
  intros tm Hin Hl. split; [now apply (inv_later s Hr)|]. now apply laters_clearTimeout.
Qed.

Lemma reachable_armed_page : reachable armed_page.
Proof. apply reachable_run, reachable_sample_page. Qed.

Lemma one_pending_debounced_call_witness :
  Build_Timer 1 500 (Later "fix my code please") ∈ timers armed_page
  /\ length (laters (timers armed_page)) <= 1
  /\ timeout armed_page = Some 1
  /\ laters (timers (clearTimeout (timeout armed_page) armed_page)) = [].
Proof.
  assert (Ht : timers armed_page = [Build_Timer 1 500 (Later "fix my code please")])
    by (vm_compute; reflexivity).
  assert (Hin : Build_Timer 1 500 (Later "fix my code please") ∈ timers armed_page)
    by (rewrite Ht; constructor).
  pose proof (one_pending_debounced_call armed_page reachable_armed_page) as [Hlen H].
  specialize (H _ Hin eq_refl). destruct H as [H1 H2].
  split; [exact Hin|]. split; [exact Hlen|]. split; [exact H1 | exact H2].
Defined.

(** ** Badge and button *)

Lemma BadgeInv_ext a b :
  button (ui a) = button (ui b) -> badge_show (ui a) = badge_show (ui b) ->
  badge_text (ui a) = badge_text (ui b) -> suggestions a = suggestions b ->
  BadgeInv b -> BadgeInv a.
Proof.
  intros H1 H2 H3 H4 [B1 B2]. constructor; rewrite ?H1, ?H2, ?H3, ?H4; assumption.
Qed.

Ltac same_badge s :=
  apply (BadgeInv_ext _ s); [reflexivity | reflexivity | reflexivity | reflexivity | ].

Lemma BadgeInv_updateMartinButton b s :
  (b = BSuggestions -> 0 < length (suggestions s)) ->
  BadgeInv (updateMartinButton b s).
Proof.
  intros H. destruct b; constructor; cbn; try (split; discriminate); try discriminate.
  - split; reflexivity.
  - intros _. split; [reflexivity | now apply H].
Qed.

Lemma BadgeInv_Agree a b : Agree a b -> ui a = ui b -> BadgeInv b -> BadgeInv a.
Proof.
  intros Hag Hui. apply BadgeInv_ext; try now rewrite Hui. apply Hag.
Qed.

Lemma ui_input_event id s : ui (input_event id s) = ui s.
Proof.
  unfold input_event. destruct (heap s !! id); [|reflexivity]. apply ui_iter_analyzeText.
Qed.

Lemma ui_dispatchEvent id s : ui (dispatchEvent id s) = ui s.
Proof. unfold dispatchEvent. now rewrite ui_input_event. Qed.

Lemma ui_focus_event id s : ui (focus_event id s) = ui s.
Proof.
  unfold focus_event. destruct (heap s !! id) as [e|]; [|reflexivity].
  induction (focus_listeners e) as [|n IH]; [reflexivity|].
  rewrite Nat.iter_succ. unfold focus_listener at 1.
  destruct (JsString.longer_than 10 (text_of e)); [|exact IH].
  now rewrite ui_analyzeText.
Qed.

Lemma BadgeInv_analyzeText text s : BadgeInv s -> BadgeInv (analyzeText text s).
Proof. apply BadgeInv_Agree; [apply Agree_analyzeText | apply ui_analyzeText]. Qed.

Lemma BadgeInv_button_click s : BadgeInv s -> BadgeInv (button_click s).
Proof.
  intros B. unfold button_click. destruct (_ || _); [same_badge s; exact B|].
  destruct (currentTextarea s) as [id|]; [|exact B].
  destruct (heap s !! id) as [e|]; [|exact B].
  destruct (JsString.longer_than 10 (text_of e)); [now apply BadgeInv_analyzeText | exact B].
Qed.

Lemma BadgeInv_applySuggestion i s : BadgeInv s -> BadgeInv (state_of (applySuggestion i s)).
Proof.
  intros B. unfold applySuggestion.
  destruct (suggestions s !! i) as [sg|]; [|exact B].
  destruct (currentTextarea s) as [id|]; [|exact B].
  destruct (heap s !! id) as [e|]; [|exact B].
  destruct (get_value e) as [text|]; [|exact B].
  cbn [state_of].
  match goal with |- BadgeInv (if ?c then showSuggestions ?s4 else closeMartinCard ?s4) =>
    assert (B4 : BadgeInv s4);
    [| destruct c; [same_badge s4 | same_badge s4]; exact B4]
  end.
  apply BadgeInv_updateMartinButton.
  match goal with |- (if ?c then _ else _) = _ -> _ => destruct c eqn:Hc end;
    [|discriminate].
  intros _. now apply Nat.ltb_lt in Hc.
Qed.

Lemma BadgeInv_acceptAllSuggestions s : BadgeInv s -> BadgeInv (acceptAllSuggestions s).
Proof.
  intros B. unfold acceptAllSuggestions.
  destruct (currentTextarea s) as [id|]; [|exact B].
  destruct (String.eqb _ _); [exact B|].
  match goal with |- BadgeInv (snd (setTimeout _ _ ?s4)) => same_badge s4 end.
  apply BadgeInv_updateMartinButton. discriminate.
Qed.

Lemma BadgeInv_analysis text s : BadgeInv s -> BadgeInv (analysis text s).
Proof.
  intros B. rewrite analysis_unfold. destruct (_ || _); [exact B|].
  match goal with |- BadgeInv (fetch _ ?x) => same_badge x end.
  apply BadgeInv_updateMartinButton. discriminate.
Qed.

Lemma BadgeInv_clearTimeout o s : BadgeInv s -> BadgeInv (clearTimeout o s).
Proof. intros B. destruct o; [same_badge s|]; exact B. Qed.

Lemma BadgeInv_fire tm rest s : BadgeInv s -> BadgeInv (fire tm rest s).
Proof.
  intros B. unfold fire, run_action. destruct (action tm) as [text|].
  - unfold later. apply BadgeInv_analysis, BadgeInv_clearTimeout. same_badge s; exact B.
  - apply BadgeInv_updateMartinButton. discriminate.
Qed.

Lemma BadgeInv_run_timers n t s : BadgeInv s -> BadgeInv (run_timers n t s).
Proof.
  revert s; induction n as [|n IH]; intros s B; [exact B|]. simpl.
  destruct (pop_due t (timers s)) as [[tm rest]|]; [|exact B].
  now apply IH, BadgeInv_fire.
Qed.

Lemma BadgeInv_resume r s : BadgeInv (resume r s).
Proof.
  unfold resume. destruct r as [r|].
  - match goal with |- BadgeInv (with_isAnalyzing _ ?x) => same_badge x end.
    apply BadgeInv_updateMartinButton.
    match goal with |- (if ?c then _ else _) = _ -> _ => destruct c eqn:Hc end;
      [|discriminate].
    intros _. now apply Nat.ltb_lt in Hc.
  - match goal with |- BadgeInv (with_isAnalyzing _ ?x) => same_badge x end.
    apply BadgeInv_updateMartinButton. discriminate.
Qed.

Lemma BadgeInv_observer_callback s : BadgeInv s -> BadgeInv (observer_callback s).
Proof.
  intros B.
  assert (H : BadgeInv (snd (findAndMonitorTextarea s))).
  { unfold findAndMonitorTextarea.
    destruct (first_match selectors s); [same_badge s|]; exact B. }
  unfold observer_callback. destruct (currentTextarea s) as [id|]; [|exact H].
  destruct (attached id s); [exact B | exact H].
Qed.

Lemma BadgeInv_step ev s : BadgeInv s -> BadgeInv (step ev s).
Proof.
  intros B. destruct ev; cbn [step].
  - unfold user_types.
    apply (BadgeInv_Agree _ _ (Agree_input_event _ _) (ui_input_event _ _)).
    same_badge s; exact B.
  - apply (BadgeInv_Agree _ _ (Agree_focus_event _ _) (ui_focus_event _ _)). exact B.
  - now apply BadgeInv_button_click.
  - now apply BadgeInv_applySuggestion.
  - now apply BadgeInv_acceptAllSuggestions.
  - unfold showOptimizedPrompt. destruct (currentTextarea s) as [id|]; [|exact B].
    destruct (heap s !! id); [same_badge s|]; exact B.
  - unfold replaceWithOptimized.
    same_badge (acceptAllSuggestions s). now apply BadgeInv_acceptAllSuggestions.
  - same_badge s; exact B.
  - same_badge s; exact B.
  - unfold advance.
    same_badge (run_timers (length (timers s)) (now s + dt) s).
    now apply BadgeInv_run_timers.
  - unfold answer. destruct (outstanding s !! n); [|exact B]. apply BadgeInv_resume.
  - unfold page_changes. apply BadgeInv_observer_callback. same_badge s; exact B.
Qed.

(** X9.  In every state the script reaches, the badge is shown exactly
    when the button has its has-suggestions look, and then the number on
    it is the number of active suggestions, which is not zero. *)
Theorem badge_follows_button (s : State) :
  reachable s ->
  (badge_show (ui s) = true <-> button (ui s) = BSuggestions)
  /\ (button (ui s) = BSuggestions ->
      badge_text (ui s) = length (suggestions s) /\ 0 < length (suggestions s)).
Proof.
  intros Hr.
  assert (B : BadgeInv s).
  { revert s Hr. apply reachable_induction.
    - intros host h doc. constructor; cbn; [split; discriminate | discriminate].
    - intros s ev _ IH. now apply BadgeInv_step. }
  destruct B as [B1 B2]. split; assumption.
Qed.

Lemma badge_follows_button_witness :
  button (ui suggested_page) = BSuggestions
  /\ badge_show (ui suggested_page) = true
  /\ badge_text (ui suggested_page) = length (suggestions suggested_page).
Proof.
  assert (Hb : button (ui suggested_page) = BSuggestions) by (vm_compute; reflexivity).
  pose proof (badge_follows_button suggested_page reachable_suggested_page) as [H1 H2].
  split; [exact Hb|]. split; [now apply H1 | now apply H2].
Defined.

(** ** Answers *)

Lemma in_flight_request s :
  reachable s -> isAnalyzing s = true -> exists r, outstanding s = [r].
Proof.
  intros Hr Ha. apply reachable_Inv in Hr. pose proof (inv_network s Hr) as H.
  rewrite Ha in H. destruct (outstanding s) as [|r [|r' l]]; try discriminate.
  now exists r.
Qed.

Lemma answer_in_flight s resp r :
  outstanding s = [r] ->
  answer 0 resp s = resume (settle resp) (with_network [] (sent s) s).
Proof. intros H. unfold answer. now rewrite H. Qed.

(** X10.  When the call in flight fails, by a network error, a status
    that is not OK or a body that does not parse, the button goes back to
    its default look with the badge hidden and the script is ready for
    the next call; the suggestions, the optimized text and the metrics of
    the previous result stay as they were, nothing is sent and no timer
    is set to try again. *)
Theorem failed_answer_keeps_previous_result (s : State) (resp : Response) :
  reachable s ->
  isAnalyzing s = true ->
  (forall r, resp <> Parsed r) ->
  let s' := answer 0 resp s in
  button (ui s') = BDefault /\ badge_show (ui s') = false
  /\ isAnalyzing s' = false /\ outstanding s' = []
  /\ suggestions s' = suggestions s /\ optimizedPrompt s' = optimizedPrompt s
  /\ metrics_view (ui s') = metrics_view (ui s)
  /\ sent s' = sent s /\ timers s' = timers s /\ heap s' = heap s.
Proof.
  intros Hr Ha Hfail s'. subst s'.
  destruct (in_flight_request s Hr Ha) as (r & Ho).
  rewrite (answer_in_flight s resp r Ho).
  assert (Hs : settle resp = None)
    by (destruct resp as [| | |r0]; try reflexivity; now destruct (Hfail r0)).
  rewrite Hs. cbn. repeat split; reflexivity.
Qed.

Lemma failed_answer_keeps_previous_result_witness :
  let s' := answer 0 (HttpError 503) in_flight_page in
  button (ui s') = BDefault /\ isAnalyzing s' = false /\ sent s' = sent in_flight_page.
Proof.
  assert (Ha : isAnalyzing in_flight_page = true) by (vm_compute; reflexivity).
  assert (Hf : forall r, HttpError 503 <> Parsed r) by discriminate.
  pose proof (failed_answer_keeps_previous_result in_flight_page (HttpError 503)
                reachable_in_flight_page Ha Hf) as (H1 & _ & H3 & _ & _ & _ & _ & H8 & _).
  split; [exact H1|]. split; [exact H3 | exact H8].
Defined.

(** X11.  When the call in flight succeeds, its result replaces the
    previous one as a whole: the active suggestions and the optimized
    text are those of the result, the button shows has-suggestions with
    their number on the badge when there are some and optimized when
    there are none, and the script is ready for the next call.  The text
    of the page is not touched, nothing is sent and no timer is set. *)
Theorem successful_answer_replaces_result (s : State) (r : AnalysisResult) :
  reachable s ->
  isAnalyzing s = true ->
  let s' := answer 0 (Parsed r) s in
  suggestions s' = result_suggestions r
  /\ optimizedPrompt s' = optimized_prompt r
  /\ button (ui s') = (if 0 <? length (result_suggestions r) then BSuggestions else BOptimized)
  /\ badge_show (ui s') = (0 <? length (result_suggestions r))
  /\ (0 < length (result_suggestions r) -> badge_text (ui s') = length (result_suggestions r))
  /\ isAnalyzing s' = false /\ outstanding s' = []
  /\ sent s' = sent s /\ timers s' = timers s /\ heap s' = heap s.
Proof.
  intros Hr Ha s'. subst s'.
  destruct (in_flight_request s Hr Ha) as (r0 & Ho).
  rewrite (answer_in_flight s (Parsed r) r0 Ho). cbn [settle].
  unfold resume. cbn [suggestions with_suggestions with_optimizedPrompt].
  destruct (metrics r); cbn;
    destruct (length (result_suggestions r)) as [|n] eqn:Hn; cbn;
    repeat split; try reflexivity; try lia.
Qed.

Lemma successful_answer_replaces_result_witness :
  let s' := answer 0 (Parsed (sample_result [sample_suggestion "fix" "repair"] "repair my code"))
              in_flight_page in
  length (suggestions s') = 1 /\ button (ui s') = BSuggestions /\ badge_text (ui s') = 1.
Proof.
  assert (Ha : isAnalyzing in_flight_page = true) by (vm_compute; reflexivity).
  pose proof (successful_answer_replaces_result in_flight_page
                (sample_result [sample_suggestion "fix" "repair"] "repair my code")
                reachable_in_flight_page Ha) as (H1 & _ & H3 & _ & H5 & _).
  split; [now rewrite H1|]. split; [exact H3|]. apply H5. simpl. lia.
Defined.

(** ** Listeners are never taken away *)

Lemma SameNode_refl e : SameNode e e.
Proof. constructor; reflexivity || lia. Qed.

Lemma SameNode_trans a b c : SameNode a b -> SameNode b c -> SameNode a c.
Proof. intros [] []; constructor; try congruence; lia. Qed.

Lemma SameNode_set_value v e : SameNode e (set_value v e).
Proof. constructor; reflexivity || (cbn; lia). Qed.

Lemma SameNode_set_textContent t e : SameNode e (set_textContent t e).
Proof. constructor; reflexivity || (cbn; lia). Qed.

Lemma SameNode_add_listeners e : SameNode e (add_listeners e).
Proof. constructor; reflexivity || (cbn; lia). Qed.

Lemma HeapGrows_refl s : HeapGrows s s.
Proof. intros id e He. exists e. split; [exact He | apply SameNode_refl]. Qed.

Lemma HeapGrows_trans a b c : HeapGrows a b -> HeapGrows b c -> HeapGrows a c.
Proof.
  intros H1 H2 id e He. destruct (H1 id e He) as (e1 & He1 & Hn1).
  destruct (H2 id e1 He1) as (e2 & He2 & Hn2).
  exists e2. split; [exact He2 | eapply SameNode_trans; eassumption].
Qed.

Lemma HeapGrows_same a b : heap b = heap a -> HeapGrows a b.
Proof. intros H id e He. exists e. rewrite H. split; [exact He | apply SameNode_refl]. Qed.

Lemma HeapGrows_alter f id s s' :
  (forall e, SameNode e (f e)) -> heap s' = alter f id (heap s) -> HeapGrows s s'.
Proof.
  intros Hf Hh j e He. rewrite Hh, lookup_alter.
  destruct (decide (id = j)) as [<-|].
  - rewrite He. exists (f e). split; [reflexivity | apply Hf].
  - exists e. split; [exact He | apply SameNode_refl].
Qed.

Lemma heap_analysis text s : heap (analysis text s) = heap s.
Proof. rewrite analysis_unfold. destruct (_ || _); reflexivity. Qed.

Lemma currentTextarea_analysis text s :
  currentTextarea (analysis text s) = currentTextarea s.
Proof. rewrite analysis_unfold. destruct (_ || _); reflexivity. Qed.

Lemma heap_advance dt s : reachable s -> heap (advance dt s) = heap s.
Proof.
  intros Hr. pose proof (advance_agree dt s (reachable_Inv s Hr)) as H.
  rewrite (agree_heap _ _ H). destruct (due_later _ _); [apply heap_analysis | reflexivity].
Qed.

Lemma currentTextarea_advance dt s :
  reachable s -> currentTextarea (advance dt s) = currentTextarea s.
Proof.
  intros Hr. pose proof (advance_agree dt s (reachable_Inv s Hr)) as H.
  rewrite (agree_currentTextarea _ _ H).
  destruct (due_later _ _); [apply currentTextarea_analysis | reflexivity].
Qed.

Lemma currentTextarea_resume r s : currentTextarea (resume r s) = currentTextarea s.
Proof.
  unfold resume. destruct r as [r|]; [|reflexivity].
  destruct (metrics r);
    match goal with |- context [updateMartinButton ?b _] => destruct b end; reflexivity.
Qed.

Lemma applySuggestion_heap i s :
  heap (state_of (applySuggestion i s)) = heap s
  \/ exists id e v, heap s !! id = Some e
       /\ heap (state_of (applySuggestion i s)) = <[id := set_value v e]> (heap s).
Proof.
  destruct (suggestions s !! i) as [sg|] eqn:Hsg;
    [|left; unfold applySuggestion; now rewrite Hsg].
  destruct (currentTextarea s) as [id|] eqn:Hcur;
    [|left; unfold applySuggestion; now rewrite Hsg, Hcur].
  destruct (heap s !! id) as [e|] eqn:He;
    [|left; unfold applySuggestion; now rewrite Hsg, Hcur, He].
  destruct (get_value e) as [text|] eqn:Hv;
    [|left; unfold applySuggestion; now rewrite Hsg, Hcur, He, Hv].
  right. destruct (applySuggestion_applies s i sg id e text Hsg Hcur He Hv)
    as (s' & Hs' & _ & Hheap & _).
  rewrite Hs'. cbn [state_of]. eauto.
Qed.

Lemma applySuggestion_currentTextarea i s :
  currentTextarea (state_of (applySuggestion i s)) = currentTextarea s.
Proof.
  destruct (suggestions s !! i) as [sg|] eqn:Hsg;
    [|unfold applySuggestion; now rewrite Hsg].
  destruct (currentTextarea s) as [id|] eqn:Hcur;
    [|unfold applySuggestion; now rewrite Hsg, Hcur].
  destruct (heap s !! id) as [e|] eqn:He;
    [|unfold applySuggestion; now rewrite Hsg, Hcur, He].
  destruct (get_value e) as [text|] eqn:Hv;
    [|unfold applySuggestion; now rewrite Hsg, Hcur, He, Hv].
  destruct (applySuggestion_applies s i sg id e text Hsg Hcur He Hv)
    as (s' & Hs' & _ & _ & _ & Hc & _).
  rewrite Hs'. cbn [state_of]. exact Hc.
Qed.

Lemma acceptAllSuggestions_heap s :
  heap (acceptAllSuggestions s) = heap s
  \/ exists id v, heap (acceptAllSuggestions s) = alter (set_value v) id (heap s).
Proof.
  destruct (currentTextarea s) as [id|] eqn:Hcur;
    [|left; unfold acceptAllSuggestions; now rewrite Hcur].
  destruct (String.eqb_spec (optimizedPrompt s) EmptyString) as [Ho|Ho].
  - left. unfold acceptAllSuggestions. rewrite Hcur, Ho. reflexivity.
  - right. destruct (acceptAllSuggestions_accepts s id Hcur Ho) as (Hh & _). eauto.
Qed.

Lemma acceptAllSuggestions_currentTextarea s :
  currentTextarea (acceptAllSuggestions s) = currentTextarea s.
Proof.
  destruct (currentTextarea s) as [id|] eqn:Hcur;
    [|unfold acceptAllSuggestions; now rewrite Hcur].
  destruct (String.eqb_spec (optimizedPrompt s) EmptyString) as [Ho|Ho].
  - unfold acceptAllSuggestions. rewrite Hcur, Ho. cbn. exact Hcur.
  - destruct (acceptAllSuggestions_accepts s id Hcur Ho) as (_ & _ & _ & _ & Hc).
    exact Hc.
Qed.

Lemma HeapGrows_acceptAllSuggestions s : HeapGrows s (acceptAllSuggestions s).
Proof.
  destruct (acceptAllSuggestions_heap s) as [H | (id & v & H)].
  - now apply HeapGrows_same.
  - apply (HeapGrows_alter (set_value v) id); [apply SameNode_set_value | exact H].
Qed.

Lemma HeapGrows_applySuggestion i s : HeapGrows s (state_of (applySuggestion i s)).
Proof.
  destruct (applySuggestion_heap i s) as [H | (id & e & v & He & H)].
  - now apply HeapGrows_same.
  - intros j e0 He0. rewrite H, lookup_insert.
    destruct (decide (id = j)) as [<-|].
    + rewrite He in He0. injection He0 as <-.
      exists (set_value v e). split; [reflexivity | apply SameNode_set_value].
    + exists e0. split; [exact He0 | apply SameNode_refl].
Qed.

Lemma HeapGrows_findAndMonitorTextarea s : HeapGrows s (snd (findAndMonitorTextarea s)).
Proof.
  unfold findAndMonitorTextarea. destruct (first_match selectors s) as [id|];
    [|apply HeapGrows_refl].
  apply (HeapGrows_alter add_listeners id); [apply SameNode_add_listeners | reflexivity].
Qed.

Lemma HeapGrows_observer_callback s : HeapGrows s (observer_callback s).
Proof.
  unfold observer_callback.
  destruct (currentTextarea s) as [id|]; [|apply HeapGrows_findAndMonitorTextarea].
  destruct (attached id s); [apply HeapGrows_refl | apply HeapGrows_findAndMonitorTextarea].
Qed.

Lemma HeapGrows_page_changes created doc s : HeapGrows s (page_changes created doc s).
Proof.
  unfold page_changes. eapply HeapGrows_trans; [|apply HeapGrows_observer_callback].
  intros id e He. exists e. split; [|apply SameNode_refl].
  cbn. apply lookup_union_Some_l. exact He.
Qed.

Lemma HeapGrows_user_types id text s : HeapGrows s (user_types id text s).
Proof.
  unfold user_types.
  eapply HeapGrows_trans;
    [|apply HeapGrows_same; apply (agree_heap _ _ (Agree_input_event _ _))].
  eapply HeapGrows_alter; [|reflexivity].
  intros e. cbv beta.
  destruct (is_textarea e); [apply SameNode_set_value | apply SameNode_set_textContent].
Qed.

Lemma HeapGrows_step ev s : reachable s -> HeapGrows s (step ev s).
Proof.
  intros Hr. destruct ev; cbn [step].
  - apply HeapGrows_user_types.
  - apply HeapGrows_same, (agree_heap _ _ (Agree_focus_event _ _)).
  - apply HeapGrows_same. unfold button_click. destruct (_ || _); [reflexivity|].
    destruct (currentTextarea s) as [id|]; [|reflexivity].
    destruct (heap s !! id) as [e|]; [|reflexivity].
    destruct (JsString.longer_than 10 (text_of e)); [|reflexivity].
    apply (agree_heap _ _ (Agree_analyzeText _ _)).
  - apply HeapGrows_applySuggestion.
  - apply HeapGrows_acceptAllSuggestions.
  - apply HeapGrows_same. unfold showOptimizedPrompt.
    destruct (currentTextarea s) as [id|]; [|reflexivity].
    destruct (heap s !! id); reflexivity.
  - unfold replaceWithOptimized.
    eapply HeapGrows_trans; [apply HeapGrows_acceptAllSuggestions|].
    now apply HeapGrows_same.
  - now apply HeapGrows_same.
  - now apply HeapGrows_same.
  - apply HeapGrows_same. now apply heap_advance.
  - apply HeapGrows_same. unfold answer. destruct (outstanding s !! n); [|reflexivity].
    match goal with |- heap (resume ?r ?x) = _ =>
      destruct (resume_frame r x) as (_ & _ & _ & _ & -> & _) end.
    reflexivity.
  - apply HeapGrows_page_changes.
Qed.

(** X12.  No handler of the script takes a listener away: after any
    event every element still has at least the input and focus listeners
    it had.  An element that was monitored once goes on reacting to input
    after another has taken its place. *)
Theorem listeners_are_never_removed (s : State) (ev : Event) (id : nat) (e : Element) :
  reachable s ->
  heap s !! id = Some e ->
  exists e', heap (step ev s) !! id = Some e'
             /\ input_listeners e <= input_listeners e'
             /\ focus_listeners e <= focus_listeners e'.
Proof.
  intros Hr He. destruct (HeapGrows_step ev s Hr id e He) as (e' & He' & Hn).
  exists e'. split; [exact He'|]. split; apply Hn.
Qed.

Lemma listeners_are_never_removed_witness :
  exists e', heap (step (PageChanges ∅ []) suggested_page) !! 7 = Some e'
             /\ 1 <= input_listeners e' /\ 1 <= focus_listeners e'.
Proof.
  apply (listeners_are_never_removed suggested_page (PageChanges ∅ []) 7
           (add_listeners (plain_textarea "fix my code please"))
           reachable_suggested_page).
  vm_compute. reflexivity.
Defined.

(** ** The monitored element *)

Lemma currentTextarea_step ev s :
  reachable s ->
  (forall created doc, ev <> PageChanges created doc) ->
  currentTextarea (step ev s) = currentTextarea s.
Proof.
  intros Hr Hev. destruct ev; cbn [step].
  - unfold user_types. now rewrite (agree_currentTextarea _ _ (Agree_input_event _ _)).
  - apply (agree_currentTextarea _ _ (Agree_focus_event _ _)).
  - unfold button_click. destruct (_ || _); [reflexivity|].
    destruct (currentTextarea s) as [id|] eqn:Hc; [|exact Hc].
    destruct (heap s !! id) as [e|]; [|exact Hc].
    destruct (JsString.longer_than 10 (text_of e)); [|exact Hc].
    now rewrite (agree_currentTextarea _ _ (Agree_analyzeText _ _)).
  - apply applySuggestion_currentTextarea.
  - apply acceptAllSuggestions_currentTextarea.
  - unfold showOptimizedPrompt. destruct (currentTextarea s) as [id|] eqn:Hc; [|exact Hc].
    destruct (heap s !! id); exact Hc.
  - unfold replaceWithOptimized. cbn. apply acceptAllSuggestions_currentTextarea.
  - reflexivity.
  - reflexivity.
  - now apply currentTextarea_advance.
  - unfold answer. destruct (outstanding s !! n); [|reflexivity].
    now rewrite currentTextarea_resume.
  - now destruct (Hev created doc).
Qed.

Lemma MonitoredInv_grows s s' :
  MonitoredInv s -> HeapGrows s s' -> currentTextarea s' = currentTextarea s ->
  MonitoredInv s'.
Proof.
  intros M Hg Hc id Hid. rewrite Hc in Hid. destruct (M id Hid) as (e & He & Hi & Hf).
  destruct (Hg id e He) as (e' & He' & Hn). exists e'. split; [exact He'|].
  destruct Hn. split; lia.
Qed.

Lemma MonitoredInv_findAndMonitorTextarea s :
  MonitoredInv s -> MonitoredInv (snd (findAndMonitorTextarea s)).
Proof.
  intros M. unfold findAndMonitorTextarea.
  destruct (first_match selectors s) as [id|] eqn:E; [|exact M].
  destruct (first_match_candidate s id E) as (_ & e & He & _).
  intros id' [= <-]. exists (add_listeners e). cbn.
  rewrite lookup_alter_eq, He. split; [reflexivity|]. split; lia.
Qed.

Lemma MonitoredInv_step ev s : reachable s -> MonitoredInv s -> MonitoredInv (step ev s).
Proof.
  intros Hr M. destruct ev;
    try (apply (MonitoredInv_grows s); [exact M | now apply HeapGrows_step
         | apply currentTextarea_step; [exact Hr | discriminate]]).
  cbn [step]. unfold page_changes.
  set (s1 := with_page _ doc s).
  assert (M1 : MonitoredInv s1).
  { apply (MonitoredInv_grows s); [exact M | | reflexivity].
    intros id e He. exists e. split; [|apply SameNode_refl].
    cbn. now apply lookup_union_Some_l. }
  unfold observer_callback.
  destruct (currentTextarea s1) as [id|]; [|now apply MonitoredInv_findAndMonitorTextarea].
  destruct (attached id s1); [exact M1 | now apply MonitoredInv_findAndMonitorTextarea].
Qed.

Lemma reachable_MonitoredInv s : reachable s -> MonitoredInv s.
Proof.
  revert s. apply reachable_induction.
  - intros host h doc id. discriminate.
  - intros s ev Hr IH. now apply MonitoredInv_step.
Qed.

Lemma Armed_ext text d s0 s s' :
  Armed text d s0 s -> Inv s' -> Agree s' s -> laters (timers s') = laters (timers s) ->
  Armed text d s0 s'.
Proof.
  intros [I Hag Htm] I' Hag' Hl. constructor.
  - exact I'.
  - eapply Agree_trans; eassumption.
  - now rewrite Hl.
Qed.

Lemma text_of_set_value text e :
  text <> EmptyString ->
  text_of (set_value (Some text) e) = if is_textarea e then normalize_newlines text else text.
Proof.
  intros H. unfold text_of. rewrite get_value_set_value.
  destruct (is_textarea e).
  - pose proof (normalize_newlines_nonempty text H) as Hn.
    destruct (normalize_newlines text); [contradiction | reflexivity].
  - destruct text; [contradiction | reflexivity].
Qed.

Lemma or_else_nonempty v text :
  text <> EmptyString -> JsString.or_else v text <> EmptyString.
Proof. intros H. destruct v as [[|c r]|]; cbn; [exact H | discriminate | exact H]. Qed.

(** What the listener reads after the user has typed [text]. *)
Lemma text_of_typed text e :
  text <> EmptyString ->
  text_of (if is_textarea e then set_value (Some text) e else set_textContent text e)
  = if is_textarea e then normalize_newlines text else JsString.or_else (value e) text.
Proof.
  intros H. destruct (is_textarea e) eqn:Hta.
  - rewrite (text_of_set_value text e H). now rewrite Hta.
  - unfold text_of, get_value. cbn. now rewrite Hta.
Qed.

(** An input event on an element with at least one listener arms the
    debounce timer for the element's text. *)
Lemma Armed_input_event id e s :
  Inv s -> heap s !! id = Some e -> 0 < input_listeners e ->
  Armed (text_of e) (now s + DEBOUNCE_DELAY) s (input_event id s).
Proof.
  intros I He Hn. unfold input_event. rewrite He.
  destruct (input_listeners e) as [|n]; [lia|].
  destruct (iter_analyzeText_S n (text_of e) s) as (s1 & -> & HI & Hag & Hnow).
  rewrite <- Hnow. apply Armed_analyzeText; [now apply HI | exact Hag].
Qed.

Lemma nonempty_length text : 0 < String.length text -> text <> EmptyString.
Proof. destruct text; simpl; [lia | discriminate]. Qed.

Lemma shorter_than_ltb text :
  0 < String.length text ->
  JsString.shorter_than 10 text = (String.length text <? 10).
Proof. destruct text; simpl; [lia | reflexivity]. Qed.

(** X13.  Typing a non-empty text into the monitored element, with no
    call in flight, and then leaving it alone for 500 ms or more sends
    exactly one request when the text the listener reads has at least 10
    characters, and none when it is shorter, however many listeners the
    script has attached to the element.  On a textarea the listener reads
    the typed text with CR LF and CR as LF.  On any other element it
    reads the typed text, unless a non-empty value has been stored on the
    element, as accepting or applying does: then it reads that stored
    value and the typed text is not sent. *)
Theorem typing_sends_one_request (s : State) (id : nat) (e : Element) (text : string)
    (dt : nat) :
  reachable s ->
  currentTextarea s = Some id ->
  heap s !! id = Some e ->
  isAnalyzing s = false ->
  0 < String.length text ->
  DEBOUNCE_DELAY <= dt ->
  sent (run [UserTypes id text; Elapse dt] s) =
  if String.length (heard_after_typing e text) <? 10 then sent s
  else sent s ++ [request_for (heard_after_typing e text) s].
Proof.
  intros Hr Hcur He Hidle Htext Hdt. set (heard := heard_after_typing e text).
  destruct (reachable_MonitoredInv s Hr id Hcur) as (e0 & He0 & Hin & _).
  rewrite He in He0. injection He0 as <-.
  pose proof (reachable_Inv s Hr) as I.
  pose proof (nonempty_length text Htext) as Hne.
  cbn [run foldl step]. unfold user_types.
  set (edit := fun e : Element =>
                 if is_textarea e then set_value (Some text) e else set_textContent text e).
  set (s1 := with_heap (alter edit id (heap s)) s).
  assert (I1 : Inv s1) by (apply (Inv_ext _ s); try reflexivity; exact I).
  assert (He1 : heap s1 !! id = Some (edit e))
    by (cbn; now rewrite lookup_alter_eq, He).
  assert (Hl1 : 0 < input_listeners (edit e))
    by (unfold edit; destruct (is_textarea e); exact Hin).
  pose proof (Armed_input_event id (edit e) s1 I1 He1 Hl1) as A.
  assert (Ht : text_of (edit e) = heard) by (apply text_of_typed; exact Hne).
  rewrite Ht in A.
  assert (Hheard : heard <> EmptyString).
  { subst heard. unfold heard_after_typing. destruct (is_textarea e);
      [now apply normalize_newlines_nonempty | now apply or_else_nonempty]. }
  apply (Armed_advance_late _ _ _ _ dt) in A.
  - rewrite (agree_sent _ _ A), sent_analysis.
    change (isAnalyzing s1) with (isAnalyzing s).
    rewrite Hidle. cbn [orb]. rewrite shorter_than_ltb
      by (destruct heard; [contradiction | simpl; lia]).
    destruct (String.length heard <? 10); reflexivity.
  - assert (Hnow : now (input_event id s1) = now s1).
    { unfold input_event. rewrite He1. apply now_iter_analyzeText. }
    rewrite Hnow. lia.
Qed.

Lemma reachable_stale_page : reachable stale_page.
Proof. apply reachable_run, reachable_editable_page. Qed.

Lemma if_false_branch {A} (b : bool) (x y z : A) :
  b = false -> x = (if b then y else z) -> x = z.
Proof. intros ->. trivial. Qed.

Lemma typing_sends_one_request_witness :
  option_map content (heap (run [UserTypes 5 "something entirely new"] stale_page) !! 5)
    = Some "something entirely new"%string
  /\ sent (run [UserTypes 5 "something entirely new"; Elapse 500] stale_page)
     = sent stale_page ++ [request_for "repair my code" stale_page].
Proof.
  split; [vm_compute; reflexivity|].
  assert (Hcur : currentTextarea stale_page = Some 5) by (vm_compute; reflexivity).
  assert (He : heap stale_page !! 5 =
               Some (set_value (Some "repair my code"%string)
                       (set_textContent "fix my code please" (add_listeners editable_div))))
    by (vm_compute; reflexivity).
  assert (Hidle : isAnalyzing stale_page = false) by (vm_compute; reflexivity).
  assert (Htext : 0 < String.length "something entirely new") by (simpl; lia).
  assert (Hd : DEBOUNCE_DELAY <= 500) by (unfold DEBOUNCE_DELAY; lia).
  pose proof (typing_sends_one_request stale_page 5 _ "something entirely new" 500
                reachable_stale_page Hcur He Hidle Htext Hd) as H.
  assert (Hh : heard_after_typing
                 (set_value (Some "repair my code"%string)
                    (set_textContent "fix my code please" (add_listeners editable_div)))
                 "something entirely new" = "repair my code"%string) by reflexivity.
  rewrite Hh in H.
  exact (if_false_branch (String.length "repair my code" <? 10) _ (sent stale_page) _
           eq_refl H).
Defined.

(** X14.  In every state the script reaches, the monitored element, when
    there is one, is an existing element that carries at least one input
    listener and one focus listener of the script. *)
Theorem monitored_element_has_listeners (s : State) (id : nat) :
  reachable s ->
  currentTextarea s = Some id ->
  exists e, heap s !! id = Some e /\ 0 < input_listeners e /\ 0 < focus_listeners e.
Proof. intros Hr. now apply reachable_MonitoredInv. Qed.

Lemma monitored_element_has_listeners_witness :
  exists e, heap suggested_page !! 7 = Some e
            /\ 0 < input_listeners e /\ 0 < focus_listeners e.
Proof.
  apply (monitored_element_has_listeners suggested_page 7 reachable_suggested_page).
  vm_compute. reflexivity.
Defined.

(** ** The synthetic input event feeds the analyzer *)

Lemma now_acceptAllSuggestions s : now (acceptAllSuggestions s) = now s.
Proof.
  unfold acceptAllSuggestions. destruct (currentTextarea s) as [id|]; [|reflexivity].
  destruct (String.eqb _ _); [reflexivity|]. cbn. now rewrite now_dispatchEvent.
Qed.

(** X15.  Accepting the full optimized text makes the script analyze
    again what the monitored element then gives back as its value: the
    optimized text, on a textarea with CR LF and CR read as LF.  The
    synthetic input event arms the debounce timer, nothing is sent at the
    click, and 500 ms after it, with no call in flight, one request
    carrying that text is sent when it has at least 10 characters, and
    none when it is shorter. *)
Theorem accept_all_triggers_reanalysis (s : State) (id : nat) (e : Element) (dt : nat) :
  reachable s ->
  currentTextarea s = Some id ->
  heap s !! id = Some e ->
  optimizedPrompt s <> EmptyString ->
  isAnalyzing s = false ->
  DEBOUNCE_DELAY <= dt ->
  sent (acceptAllSuggestions s) = sent s
  /\ sent (advance dt (acceptAllSuggestions s)) =
     if String.length (read_back e (optimizedPrompt s)) <? 10 then sent s
     else sent s ++ [request_for (read_back e (optimizedPrompt s)) s].
Proof.
  intros Hr Hcur He Hopt Hidle Hdt.
  destruct (reachable_MonitoredInv s Hr id Hcur) as (e0 & He0 & Hin & _).
  rewrite He in He0. injection He0 as <-.
  pose proof (reachable_Inv s Hr) as I.
  split; [apply Quiet_acceptAllSuggestions|].
  pose proof (now_acceptAllSuggestions s) as Hnow.
  unfold acceptAllSuggestions in *. rewrite Hcur in *.
  destruct (String.eqb_spec (optimizedPrompt s) EmptyString) as [|_]; [contradiction|].
  set (s1 := with_heap (alter (set_value (Some (optimizedPrompt s))) id (heap s)) s) in *.
  set (s1' := with_dispatched (dispatched s1 ++ [id]) s1).
  assert (I1 : Inv s1') by (apply (Inv_ext _ s); try reflexivity; exact I).
  assert (He1 : heap s1' !! id = Some (set_value (Some (optimizedPrompt s)) e))
    by (cbn; now rewrite lookup_alter_eq, He).
  pose proof (Armed_input_event id _ s1' I1 He1 Hin) as A.
  rewrite (text_of_set_value _ e Hopt) in A.
  change (if is_textarea e then normalize_newlines (optimizedPrompt s) else optimizedPrompt s)
    with (read_back e (optimizedPrompt s)) in A.
  set (heard := read_back e (optimizedPrompt s)) in *.
  assert (Hheard : heard <> EmptyString).
  { subst heard. unfold read_back. destruct (is_textarea e);
      [now apply normalize_newlines_nonempty | exact Hopt]. }
  change (input_event id s1') with (dispatchEvent id s1) in A.
  set (s2 := dispatchEvent id s1) in *.
  match goal with |- sent (advance dt ?x) = _ => set (s5 := x) in * end.
  assert (A5 : Armed heard (now s1' + DEBOUNCE_DELAY) s1' s5).
  { apply (Armed_ext _ _ _ s2); [exact A | | |].
    - apply Inv_setTimeout_ResetButton, Inv_updateMartinButton, Inv_closeMartinCard.
      apply A.
    - constructor; reflexivity.
    - subst s5. cbn [timers snd setTimeout with_timers updateMartinButton closeMartinCard
                     with_ui].
      rewrite laters_app, laters_cons. cbn [is_later action].
      unfold laters at 2. now rewrite filter_nil, app_nil_r. }
  apply (Armed_advance_late _ _ _ _ dt) in A5.
  - rewrite (agree_sent _ _ A5), sent_analysis.
    change (isAnalyzing s1') with (isAnalyzing s). rewrite Hidle. cbn [orb].
    rewrite shorter_than_ltb by (destruct heard; [contradiction | simpl; lia]).
    destruct (String.length heard <? 10); reflexivity.
  - rewrite Hnow. change (now s1') with (now s). lia.
Qed.

Lemma accept_all_triggers_reanalysis_witness :
  sent (advance 500 (acceptAllSuggestions suggested_page))
  = sent suggested_page ++ [request_for "repair my code" suggested_page].
Proof.
  assert (Hcur : currentTextarea suggested_page = Some 7) by (vm_compute; reflexivity).
  assert (He : heap suggested_page !! 7 =
               Some (add_listeners (plain_textarea "fix my code please")))
    by (vm_compute; reflexivity).
  assert (Hopt : optimizedPrompt suggested_page = "repair my code"%string)
    by (vm_compute; reflexivity).
  assert (Hne : optimizedPrompt suggested_page <> EmptyString) by (rewrite Hopt; discriminate).
  assert (Hidle : isAnalyzing suggested_page = false) by (vm_compute; reflexivity).
  assert (Hd : DEBOUNCE_DELAY <= 500) by (unfold DEBOUNCE_DELAY; lia).
  pose proof (accept_all_triggers_reanalysis suggested_page 7 _ 500
                reachable_suggested_page Hcur He Hne Hidle Hd) as [_ H].
  rewrite Hopt in H.
  assert (Hh : read_back (add_listeners (plain_textarea "fix my code please"))
                 "repair my code" = "repair my code"%string) by reflexivity.
  rewrite Hh in H.
  exact (if_false_branch (String.length "repair my code" <? 10) _ (sent suggested_page) _
           eq_refl H).
Defined.

(** X22.  On a monitored element that is not a textarea, accepting the
    full optimized text leaves the text of the element as it was: the
    optimized text is only stored under [value], and from then on the
    listeners, which read [value || textContent], read that stored text
    whatever the element shows. *)
Theorem accept_all_leaves_other_content (s : State) (id : nat) (e : Element) :
  currentTextarea s = Some id ->
  heap s !! id = Some e ->
  optimizedPrompt s <> EmptyString ->
  is_textarea e = false ->
  exists e', heap (acceptAllSuggestions s) !! id = Some e'
    /\ content e' = content e
    /\ textContent e' = textContent e
    /\ value e' = Some (optimizedPrompt s)
    /\ text_of e' = optimizedPrompt s
    /\ forall text, text_of (set_textContent text e') = optimizedPrompt s.
Proof.
  intros Hcur He Hopt Hta.
  destruct (acceptAllSuggestions_accepts s id Hcur Hopt) as (Hh & _).
  exists (set_value (Some (optimizedPrompt s)) e).
  split; [now rewrite Hh, lookup_alter_eq, He|].
  split; [unfold content; cbn; now rewrite Hta|].
  split; [reflexivity|]. split; [reflexivity|].
  assert (Hread : forall t, JsString.or_else (Some (optimizedPrompt s)) t = optimizedPrompt s)
    by (intros t; destruct (optimizedPrompt s); [contradiction | reflexivity]).
  split.
  - unfold text_of, get_value. cbn. rewrite Hta. apply Hread.
  - intros text. unfold text_of, get_value. cbn. rewrite Hta. apply Hread.
Qed.

Lemma accept_all_leaves_other_content_witness :
  exists e', heap (acceptAllSuggestions editable_page) !! 5 = Some e'
    /\ content e' = "fix my code please"%string
    /\ value e' = Some "repair my code"%string.
Proof.
  assert (Hcur : currentTextarea editable_page = Some 5) by (vm_compute; reflexivity).
  assert (He : heap editable_page !! 5 =
               Some (set_textContent "fix my code please" (add_listeners editable_div)))
    by (vm_compute; reflexivity).
  assert (Hopt : optimizedPrompt editable_page = "repair my code"%string)
    by (vm_compute; reflexivity).
  assert (Hne : optimizedPrompt editable_page <> EmptyString) by (rewrite Hopt; discriminate).
  destruct (accept_all_leaves_other_content editable_page 5 _ Hcur He Hne eq_refl)
    as (e' & H1 & H2 & _ & H4 & _).
  exists e'. split; [exact H1|]. split; [rewrite H2; reflexivity|]. now rewrite H4, Hopt.
Defined.

(** ** The panel after an application *)

(** X16.  After a suggestion has been applied, the panel and the button
    show what is left: with suggestions remaining the button keeps its
    has-suggestions look, the badge shows their number and the open panel
    lists exactly them, in their order; with none remaining the button
    goes back to its default look, the badge is hidden and the panel is
    closed. *)
Theorem applySuggestion_updates_panel (s : State) (i id : nat) (e : Element) (text : string) :
  currentTextarea s = Some id ->
  heap s !! id = Some e ->
  value e = Some text ->
  i < length (suggestions s) ->
  exists s', applySuggestion i s = Normal s'
    /\ match delete i (suggestions s) with
       | [] => button (ui s') = BDefault /\ badge_show (ui s') = false
               /\ card_display (ui s') = false
       | rest => button (ui s') = BSuggestions /\ badge_show (ui s') = true
                 /\ badge_text (ui s') = length rest
                 /\ card_display (ui s') = true /\ list_view (ui s') = Entries rest
       end.
Proof.
  intros Hcur He Hv Hi.
  destruct (lookup_lt_is_Some_2 (suggestions s) i Hi) as [sg Hsg].
  destruct (get_value_of_value text e Hv) as [heard Hg].
  unfold applySuggestion. rewrite Hsg, Hcur, He, Hg.
  eexists. split; [reflexivity|].
  match goal with |- context [dispatchEvent id ?s1] =>
    destruct (dispatchEvent_frame id s1) as (_ & Hs & _);
    pose proof (ui_dispatchEvent id s1) as Hu;
    set (s2 := dispatchEvent id s1) in *
  end.
  cbn in Hs, Hu. clearbody s2.
  destruct (delete i (suggestions s)) as [|x rest] eqn:Hd.
  - rewrite Hs, Hd. cbn. repeat split; reflexivity.
  - rewrite Hs, Hd. cbn. repeat split; reflexivity.
Qed.

Lemma applySuggestion_updates_panel_witness :
  exists s', applySuggestion 0 suggested_page = Normal s'
    /\ button (ui s') = BSuggestions /\ badge_text (ui s') = 1
    /\ list_view (ui s') = Entries [sample_suggestion " please" ""].
Proof.
  assert (Hcur : currentTextarea suggested_page = Some 7) by (vm_compute; reflexivity).
  assert (He : heap suggested_page !! 7 =
               Some (add_listeners (plain_textarea "fix my code please")))
    by (vm_compute; reflexivity).
  assert (Hsg : suggestions suggested_page
                = [sample_suggestion "fix" "repair"; sample_suggestion " please" ""])
    by (vm_compute; reflexivity).
  assert (Hlen : 0 < length (suggestions suggested_page)) by (rewrite Hsg; simpl; lia).
  destruct (applySuggestion_updates_panel suggested_page 0 7 _ "fix my code please"
              Hcur He eq_refl Hlen) as (s' & H1 & H2).
  rewrite Hsg in H2. cbn in H2. destruct H2 as (Hb & _ & Ht & _ & Hl).
  exists s'. split; [exact H1|]. split; [exact Hb|]. split; [exact Ht | exact Hl].
Defined.

(** X17.  [applySuggestion] does nothing when the index is out of range
    or no element is monitored.  On a monitored element without a string
    value, as a contenteditable node is, it throws before it has changed
    anything: the suggestion stays in the list. *)
Theorem applySuggestion_guards (s : State) (i : nat) :
  (length (suggestions s) <= i -> applySuggestion i s = Normal s)
  /\ (currentTextarea s = None -> applySuggestion i s = Normal s)
  /\ (forall id e, i < length (suggestions s) -> currentTextarea s = Some id ->
        heap s !! id = Some e -> value e = None -> applySuggestion i s = Throw s).
Proof.
  split; [|split].
  - intros H. unfold applySuggestion. now rewrite (lookup_ge_None_2 _ _ H).
  - intros H. unfold applySuggestion. rewrite H. now destruct (suggestions s !! i).
  - intros id e Hi Hcur He Hv.
    destruct (lookup_lt_is_Some_2 (suggestions s) i Hi) as [sg Hsg].
    unfold applySuggestion. now rewrite Hsg, Hcur, He, (get_value_None e Hv).
Qed.

Lemma applySuggestion_guards_witness :
  applySuggestion 2 suggested_page = Normal suggested_page.
Proof.
  pose proof (applySuggestion_guards suggested_page 2) as [H _].
  apply H. vm_compute. lia.
Defined.

(** ** The comparison modal *)

(** X18.  In a state the script reaches, [showOptimizedPrompt] throws,
    changing nothing, exactly when no element is monitored.  Otherwise it
    opens the modal with the value of the monitored element, as reading
    it gives it, on the left (nothing when the element has no value) and
    the optimized text on the right, and touches nothing else. *)
Theorem showOptimizedPrompt_outcome (s : State) :
  reachable s ->
  (currentTextarea s = None -> showOptimizedPrompt s = Throw s)
  /\ (forall id, currentTextarea s = Some id ->
        exists e s', heap s !! id = Some e
          /\ showOptimizedPrompt s = Normal s'
          /\ modal_show (ui s') = true
          /\ modal_original (ui s') = default EmptyString (get_value e)
          /\ modal_optimized (ui s') = optimizedPrompt s
          /\ Agree s' s /\ timers s' = timers s
          /\ button (ui s') = button (ui s) /\ card_display (ui s') = card_display (ui s)).
Proof.
  intros Hr. split.
  - intros H. unfold showOptimizedPrompt. now rewrite H.
  - intros id Hcur. destruct (reachable_MonitoredInv s Hr id Hcur) as (e & He & _).
    unfold showOptimizedPrompt. rewrite Hcur, He.
    exists e. eexists. split; [reflexivity|]. split; [reflexivity|].
    cbn. repeat split; reflexivity.
Qed.

Lemma showOptimizedPrompt_outcome_witness :
  showOptimizedPrompt (loaded "claude.ai" ∅ []) = Throw (loaded "claude.ai" ∅ []).
Proof.
  pose proof (showOptimizedPrompt_outcome (loaded "claude.ai" ∅ [])
                (reachable_loaded _ _ _)) as [H _].
  apply H. reflexivity.
Defined.

(** ** Startup discovery *)

Lemma initializeMonitoring_cases rc s :
  (exists s', initializeMonitoring rc s = (Ready, rc, s')
              /\ fst (findAndMonitorTextarea s) = true)
  \/ (initializeMonitoring rc s = (RetryIn 1000, S rc, s)
      /\ rc < maxRetries /\ fst (findAndMonitorTextarea s) = false)
  \/ (initializeMonitoring rc s = (GivenUp, rc, s)
      /\ maxRetries <= rc /\ fst (findAndMonitorTextarea s) = false).
Proof.
  unfold initializeMonitoring.
  pose proof (findAndMonitorTextarea_false s) as Hsame.
  destruct (findAndMonitorTextarea s) as [found s'] eqn:E. cbn [fst snd] in *.
  destruct found.
  - left. now exists s'.
  - rewrite (Hsame eq_refl). right.
    destruct (Nat.ltb_spec rc maxRetries); [left | right]; repeat split; assumption.
Qed.

Lemma startup_bounded rc intervals s :
  rc <= maxRetries ->
  attempts rc intervals s <= S (maxRetries - rc)
  /\ (maxRetries - rc <= length intervals ->
      forall wait, fst (fst (startup rc intervals s)) <> RetryIn wait)
  /\ (fst (fst (startup rc intervals s)) = GivenUp ->
      snd (fst (startup rc intervals s)) = maxRetries).
Proof.
  revert rc s; induction intervals as [|evs rest IH]; intros rc s Hrc.
  - cbn [startup attempts].
    destruct (initializeMonitoring_cases rc s)
      as [(s' & -> & _) | [(-> & Hlt & _) | (-> & Hge & _)]]; cbn.
    + split; [lia|]. split; [discriminate | discriminate].
    + split; [lia|]. split; [|discriminate].
      intros Hlen. simpl in Hlen. unfold maxRetries in *. exfalso. lia.
    + split; [lia|]. split; [discriminate|]. intros _. unfold maxRetries in *. lia.
  - cbn [startup attempts].
    destruct (initializeMonitoring_cases rc s)
      as [(s' & -> & _) | [(-> & Hlt & _) | (-> & Hge & _)]].
    + cbn. split; [lia|]. split; discriminate.
    + destruct (IH (S rc) (run evs s) ltac:(lia)) as (H1 & H2 & H3).
      split; [lia|]. split; [|exact H3].
      intros Hlen. apply H2. simpl in Hlen. unfold maxRetries in *. lia.
    + cbn. split; [lia|]. split; [discriminate|]. intros _. unfold maxRetries in *. lia.
Qed.

(** X19.  The startup discovery calls [findAndMonitorTextarea] at most 21
    times: once, and again after each of at most 20 retries.  Given the
    time for all of them it ends ready or having given up, never waiting
    for a further retry, and it gives up only once the 20 retries are
    used up. *)
Theorem startup_discovery_is_bounded (intervals : list (list Event)) (s : State) :
  attempts 0 intervals s <= 21
  /\ (maxRetries <= length intervals ->
      forall wait, fst (fst (startup 0 intervals s)) <> RetryIn wait)
  /\ (fst (fst (startup 0 intervals s)) = GivenUp ->
      snd (fst (startup 0 intervals s)) = maxRetries).
Proof.
  destruct (startup_bounded 0 intervals s) as (H1 & H2 & H3); [unfold maxRetries; lia|].
  split; [exact H1|]. split; [|exact H3].
  intros Hlen. apply H2. lia.
Qed.

Lemma startup_discovery_is_bounded_witness :
  fst (fst (startup 0 (repeat [] 20) (loaded "claude.ai" ∅ []))) = GivenUp
  /\ snd (fst (startup 0 (repeat [] 20) (loaded "claude.ai" ∅ []))) = maxRetries.
Proof.
  assert (H : fst (fst (startup 0 (repeat [] 20) (loaded "claude.ai" ∅ []))) = GivenUp)
    by (vm_compute; reflexivity).
  split; [exact H|].
  pose proof (startup_discovery_is_bounded (repeat [] 20) (loaded "claude.ai" ∅ []))
    as (_ & _ & H3).
  exact (H3 H).
Defined.

(** X20.  When the startup discovery ends ready, an element of the
    document that is a textarea or has [contenteditable="true"] is
    monitored and carries the listeners of the script. *)
Theorem startup_ready_monitors (rc : nat) (s : State) (s' : State) :
  reachable s ->
  initializeMonitoring rc s = (Ready, rc, s') ->
  exists id e, currentTextarea s' = Some id /\ id ∈ document s'
    /\ heap s' !! id = Some e /\ candidate e = true
    /\ 0 < input_listeners e /\ 0 < focus_listeners e.
Proof.
  intros Hr H.
  destruct (initializeMonitoring_cases rc s)
    as [(s'' & E & Hfound) | [(E & _) | (E & _)]]; rewrite E in H; try discriminate.
  injection H as <-.
  assert (Hs'' : s'' = snd (findAndMonitorTextarea s)).
  { unfold initializeMonitoring in E.
    destruct (findAndMonitorTextarea s) as [found x]. cbn in Hfound. subst found.
    now injection E as <-. }
  destruct (findAndMonitorTextarea_true s Hfound) as (id & e & Hc & Hin & He & Hcand & Hheap & Hdoc).
  rewrite <- Hs'' in *.
  exists id, (add_listeners e). split; [exact Hc|]. split; [now rewrite Hdoc|].
  split; [now rewrite Hheap, lookup_insert_eq|].
  split; [exact Hcand|]. cbn. split; lia.
Qed.

Lemma startup_ready_monitors_witness :
  exists id e, currentTextarea (snd (initializeMonitoring 0 mixed_page)) = Some id
    /\ id ∈ document (snd (initializeMonitoring 0 mixed_page))
    /\ heap (snd (initializeMonitoring 0 mixed_page)) !! id = Some e /\ candidate e = true
    /\ 0 < input_listeners e /\ 0 < focus_listeners e.
Proof.
  apply (startup_ready_monitors 0 mixed_page).
  - apply reachable_loaded.
  - vm_compute. reflexivity.
Defined.

(** ** The call in flight *)

Lemma outstanding_analysis text s :
  outstanding (analysis text s) = outstanding s
  /\ sent (analysis text s) = sent s
  \/ isAnalyzing s = false
     /\ outstanding (analysis text s) = outstanding s ++ [request_for text s]
     /\ sent (analysis text s) = sent s ++ [request_for text s].
Proof.
  rewrite analysis_unfold. destruct (isAnalyzing s); [left; split; reflexivity|].
  cbn [orb]. destruct (JsString.shorter_than 10 text); [left | right]; repeat split;
    reflexivity.
Qed.

(** X21.  In every state the script reaches, the call in flight, when
    there is one, is for the request sent last: an answer is always the
    answer to the latest request. *)
Theorem call_in_flight_is_latest_request (s : State) :
  reachable s ->
  outstanding s = []
  \/ exists earlier r, sent s = earlier ++ [r] /\ outstanding s = [r].
Proof.
  revert s. apply reachable_induction.
  - intros host h doc. left. reflexivity.
  - intros s ev Hr IH. pose proof (reachable_Inv s Hr) as I.
    destruct (event_kinds ev) as [Hq | [(dt & ->) | (n & resp & ->)]].
    + destruct (Quiet_step ev s Hq) as [_ _ -> ->]. exact IH.
    + cbn [step]. pose proof (advance_agree dt s I) as H.
      rewrite (agree_outstanding _ _ H), (agree_sent _ _ H).
      destruct (due_later (now s + dt) (timers s)) as [text|]; [|exact IH].
      destruct (outstanding_analysis text s) as [[-> ->] | (Hidle & -> & ->)]; [exact IH|].
      pose proof (inv_network s I) as Hn. rewrite Hidle in Hn.
      destruct (outstanding s); [|discriminate].
      right. exists (sent s), (request_for text s). split; reflexivity.
    + cbn [step]. pose proof (Inv_answer n resp s I) as I'.
      unfold answer in *. destruct (outstanding s !! n) eqn:E; [|exact IH].
      left. pose proof (inv_network _ I') as Hn.
      match goal with |- outstanding (resume ?r ?x) = [] =>
        assert (Ha : isAnalyzing (resume r x) = false) by reflexivity;
        rewrite Ha in Hn
      end.
      now apply length_zero_iff_nil.
Qed.

Lemma call_in_flight_is_latest_request_witness :
  exists earlier r, sent in_flight_page = earlier ++ [r] /\ outstanding in_flight_page = [r].
Proof.
  destruct (call_in_flight_is_latest_request in_flight_page reachable_in_flight_page)
    as [H | H]; [|exact H].
  vm_compute in H. discriminate.
Defined.

(** ** Sample runs of the string primitives *)

Example replace_first_only :
  JsString.replace "fix my code, my friend" "my" "the" = "fix the code, my friend"%string.
Proof. reflexivity. Qed.

Example replace_dollar_patterns :
  JsString.replace "abc" "b" "[$&|$`|$'|$$|$1]" = "a[b|a|c|$|$1]c"%string.
Proof. reflexivity. Qed.

Example replace_absent_pattern : JsString.replace "hello" "xyz" "q" = "hello"%string.
Proof. reflexivity. Qed.
